(** * Service-unit accounting and CPU sweeps: a shallow embedding

    The three Python programs of the repository are embedded here:

    - [nextflow/fixed_cpus/get_su_nf2-fixedCpus.py]  (module [FixedCpus]),
    - [nextflow/pipeline/get_su_nf.py]               (module [Pipeline]),
    - [single_jobs/get_su_threads_cpus.py]           (module [Sweep]).

    Conventions of the embedding.

    - A Python [str] is the list of its code points; the model covers the
      code points 0..255, i.e. Rocq's [ascii].
    - A Python [int] is a [Z].  A Python [float] is a rational [Q].  In
      [convert_time_to_hours] and in [round], whose results decide the
      digits of the fixed-CPUs report, the arithmetic is binary64: every
      operation is rounded to the nearest binary64 number ([PyNum.b64]) and
      an [int] too large for a [float] raises [OverflowError].  Elsewhere
      the products, quotients and sums of floats are kept exact, and an
      [int] that meets a [float] is injected with [inject_Z].  Signed
      zeros, infinities and NaN are outside the model.
    - A Python exception is the [Raise] constructor of [result].
    - The scheduler, the file system and the clock of the sweep program are
      an explicit [World], threaded by a small state-and-exception monad. *)

From Stdlib Require Import ZArith QArith Qround Qabs Ascii String List Lia DecimalString.
From Stdlib Require Import DecimalPos DecimalZ Qpower Lqa.
From stdpp Require Import base list gmap strings.
Import ListNotations.
Local Open Scope Z_scope.

(** ** Python values and exceptions *)

Abbreviation str := (list ascii).

Definition lit (s : string) : str := list_ascii_of_string s.

Inductive exn : Type :=
| ValueError
| IndexError
| FileNotFoundError
| OverflowError.

Inductive result (A : Type) : Type :=
| Ok (a : A)
| Raise (e : exn).

Arguments Ok {A} a.
Arguments Raise {A} e.

#[global] Instance result_ret : MRet result := fun _ a => Ok a.

#[global] Instance result_bind : MBind result := fun _ _ f m =>
  match m with
  | Ok a => f a
  | Raise e => Raise e
  end.

(** ** The [str] methods the programs call *)

Module PyStr.

Definition ord (c : ascii) : N := N_of_ascii c.

Definition in_range (lo hi : N) (c : ascii) : bool :=
  ((lo <=? ord c) && (ord c <=? hi))%N.

(** [str.isspace] on one character, which is also the class [\s] of [re]
    and the set that [strip()] and [split()] remove. *)
Definition isspace (c : ascii) : bool :=
  in_range 9 13 c || in_range 28 32 c || in_range 133 133 c || in_range 160 160 c.

(** The class [\d] of [re]. *)
Definition isdecimal (c : ascii) : bool := in_range 48 57 c.

(** The class [\w] of [re] on a [str] pattern: alphanumeric or underscore. *)
Definition isword (c : ascii) : bool :=
  in_range 48 57 c || in_range 65 90 c || in_range 95 95 c || in_range 97 122 c
  || in_range 170 170 c || in_range 178 179 c || in_range 181 181 c
  || in_range 185 186 c || in_range 188 190 c || in_range 192 214 c
  || in_range 216 246 c || in_range 248 255 c.

Fixpoint dropwhile (p : ascii -> bool) (s : str) : str :=
  match s with
  | [] => []
  | c :: s' => if p c then dropwhile p s' else s
  end.

Fixpoint takewhile (p : ascii -> bool) (s : str) : str :=
  match s with
  | [] => []
  | c :: s' => if p c then c :: takewhile p s' else []
  end.

Definition lstrip (s : str) : str := dropwhile isspace s.
Definition rstrip (s : str) : str := rev (dropwhile isspace (rev s)).

(** [s.strip()] *)
Definition strip (s : str) : str := rstrip (lstrip s).

(** [s.startswith(p)] *)
Fixpoint startswith (p s : str) : bool :=
  match p, s with
  | [], _ => true
  | _ :: _, [] => false
  | a :: p', b :: s' => Ascii.eqb a b && startswith p' s'
  end.

(** [sub in s] *)
Fixpoint contains (sub s : str) : bool :=
  startswith sub s ||
  match s with
  | [] => false
  | _ :: s' => contains sub s'
  end.

(** [s.split(sep)] for a non-empty [sep]: the pieces between the
    occurrences of [sep], found from the left without overlap.  [skip]
    counts the characters of a found separator that are still to be
    passed, [cur] is the piece being collected. *)
Fixpoint split_go (sep : str) (skip : nat) (cur s : str) : list str :=
  match s with
  | [] => [cur]
  | c :: s' =>
      match skip with
      | S k => split_go sep k cur s'
      | O =>
          if startswith sep s
          then cur :: split_go sep (length sep - 1) [] s'
          else split_go sep 0 (cur ++ [c]) s'
      end
  end.

Definition split (sep s : str) : list str := split_go sep 0 [] s.

(** [s.split()]: the maximal runs of characters that are not white
    space. *)
Fixpoint split_ws_go (cur : str) (s : str) : list str :=
  match s with
  | [] => match cur with [] => [] | _ => [cur] end
  | c :: s' =>
      if isspace c
      then match cur with
           | [] => split_ws_go [] s'
           | _ => cur :: split_ws_go [] s'
           end
      else split_ws_go (cur ++ [c]) s'
  end.

Definition split_ws (s : str) : list str := split_ws_go [] s.

(** [s.replace(old, new)]: every occurrence of [old], found from the
    left without overlap, becomes [new]. *)
Fixpoint replace_go (fuel : nat) (old new s : str) : str :=
  match fuel with
  | O => s
  | S fuel' =>
      if startswith old s
      then new ++ replace_go fuel' old new (drop (length old) s)
      else match s with
           | [] => []
           | c :: s' => c :: replace_go fuel' old new s'
           end
  end.

Definition replace (old new s : str) : str :=
  match old with
  | [] => new ++ concat (map (fun c => c :: new) s)
  | _ :: _ => replace_go (length s) old new s
  end.

(** [l[i]] for [0 <= i], and [l[-1]]. *)
Definition getitem {A : Type} (l : list A) (i : nat) : result A :=
  match nth_error l i with
  | Some x => Ok x
  | None => Raise IndexError
  end.

Definition getlast {A : Type} (l : list A) : result A :=
  match last l with
  | Some x => Ok x
  | None => Raise IndexError
  end.

(** The string literals of one control character. *)
Definition line_feed : str := ["010"%char].
Definition tab : str := ["009"%char].

(** [s.ljust(width)], which is what the format specification [<width]
    does to the text of a value. *)
Definition ljust (width : nat) (s : str) : str :=
  s ++ repeat " "%char (width - length s).

End PyStr.

(** ** Numbers: [str(n)], [int(s)], [float(s)], [round(x, 2)], [.2f] *)

Module PyNum.
Import PyStr.

(** [str(n)] for an [int]. *)
Definition str_of_Z (z : Z) : str := lit (NilZero.string_of_int (Z.to_int z)).

Definition digit_val (c : ascii) : Z := Z.of_N (ord c) - 48.

(** The value of a run of decimal digits, most significant first. *)
Fixpoint digits_val (acc : Z) (s : str) : Z :=
  match s with
  | [] => acc
  | c :: s' => digits_val (10 * acc + digit_val c) s'
  end.

Definition all_digits (s : str) : bool :=
  match s with
  | [] => false
  | _ => forallb isdecimal s
  end.

Definition split_sign (s : str) : bool * str :=
  match s with
  | "-"%char :: s' => (true, s')
  | "+"%char :: s' => (false, s')
  | _ => (false, s)
  end.

(** The white space that [int()] and [float()] skip around a number: the
    set of [str.strip] without the separators 28 to 31. *)
Definition isnumspace (c : ascii) : bool := isspace c && negb (in_range 28 31 c).

Definition numstrip (s : str) : str :=
  rev (dropwhile isnumspace (rev (dropwhile isnumspace s))).

(** [int(s)] on the decimal literals: an optional sign, then one or
    more digits; surrounding white space allowed.  The further literals
    CPython reads (digits grouped by underscores) are answered here with
    [ValueError]; no statement below rests on a [ValueError] for one of
    them.  The interpreter's limit on the digits of an [int] text
    ([sys.set_int_max_str_digits], 4300 unless set otherwise) is a
    setting and is taken as switched off. *)
Definition py_int (s : str) : result Z :=
  let '(neg, body) := split_sign (numstrip s) in
  if all_digits body
  then Ok (if neg then - digits_val 0 body else digits_val 0 body)
  else Raise ValueError.

(** [float(s)] on the plain decimal literals: an optional sign, then
    digits with an optional point and optional further digits, or a
    point followed by digits; surrounding white space allowed.  The
    value is the exact rational that the literal denotes; [float_of_text]
    below rounds it to binary64.  Exponents, [inf], [nan] and underscores
    are answered with [ValueError]; no statement below rests on a
    [ValueError] for one of them. *)
Definition py_float (s : str) : result Q :=
  let '(neg, body) := split_sign (numstrip s) in
  let ip := takewhile isdecimal body in
  let rest := dropwhile isdecimal body in
  let mk (fp : str) : result Q :=
    let n := digits_val 0 (ip ++ fp) in
    let q := (inject_Z n / inject_Z (10 ^ Z.of_nat (length fp)))%Q in
    Ok (if neg then (- q)%Q else q) in
  match rest with
  | [] => if all_digits ip then mk [] else Raise ValueError
  | "."%char :: fp =>
      if forallb isdecimal fp && (all_digits ip || all_digits fp)
      then mk fp
      else Raise ValueError
  | _ => Raise ValueError
  end.

(** Rounding to the nearest integer, ties to even. *)
Definition round_half_even (q : Q) : Z :=
  let f := Qfloor q in
  match ((q - inject_Z f) ?= (1 # 2))%Q with
  | Lt => f
  | Gt => f + 1
  | Eq => if Z.even f then f else f + 1
  end.

(** *** Binary64

    The numbers of binary64 are the rationals [m * 2 ^ e] with
    [|m| < 2 ^ 53] and [-1074 <= e]; [b64 q] is the one nearest to [q],
    the even one of two that are equally near.  Beyond the largest of them
    Python has [inf] or an [OverflowError]; the operations that raise are
    modelled with their exception, and no statement below is about an
    [inf]. *)

Definition pow2 (e : Z) : Q := (2 ^ e)%Q.

(** The exponent [e] with [2 ^ e <= |q| < 2 ^ (e + 1)], for [q] other
    than 0. *)
Definition ilog2 (q : Q) : Z :=
  let e := Z.log2 (Z.abs (Qnum q)) - Z.log2 (Zpos (Qden q)) in
  if Qle_bool (pow2 e) (Qabs q) then e else e - 1.

Definition b64 (q : Q) : Q :=
  if Qeq_bool q 0 then 0%Q
  else
    let e := Z.max (ilog2 q) (-1022) in
    let ulp := pow2 (e - 52) in
    (inject_Z (round_half_even (q / ulp)) * ulp)%Q.

(** An [int] of this magnitude or more has no [float]: it is the midpoint
    of the largest binary64 number and [2 ^ 1024]. *)
Definition float_max_bound : Z := 2 ^ 1024 - 2 ^ 970.

(** [float(n)] for an [int], which is also what [n + x] and [n * x] do
    to [n] when [x] is a [float]. *)
Definition float_of_int (n : Z) : result Q :=
  if Z.abs n <? float_max_bound then Ok (b64 (inject_Z n)) else Raise OverflowError.

(** [a / b] for two [int]s, [b] other than 0: the quotient rounded
    once. *)
Definition int_truediv (a b : Z) : result Q :=
  if Z.abs a <? float_max_bound * Z.abs b
  then Ok (b64 (inject_Z a / inject_Z b))
  else Raise OverflowError.

(** [x + y] and [x / y] for two [float]s. *)
Definition fadd (x y : Q) : Q := b64 (x + y).
Definition fdiv (x y : Q) : Q := b64 (x / y).

(** [float(s)] as the binary64 number it is. *)
Definition float_of_text (s : str) : result Q :=
  q ← py_float s;
  mret (b64 q).

(** [round(x, 2)] for a [float] [x]: the decimal of two places nearest to
    the value of [x], as a [float]. *)
Definition round2 (x : Q) : Q :=
  b64 (inject_Z (round_half_even (x * 100)) / 100).

Definition two_digits (n : Z) : str :=
  str_of_Z (n / 10) ++ str_of_Z (n mod 10).

(** The format specification [.2f]. *)
Definition format_2f (q : Q) : str :=
  let r := round_half_even (Qabs q * 100) in
  (if Qlt_le_dec q 0 then lit "-" else []) ++
  str_of_Z (r / 100) ++ lit "." ++ two_digits (r mod 100).

End PyNum.

(** ** [convert_time_to_hours]

    The two accounting programs define this function with the same text
    ([get_su_nf2-fixedCpus.py] and [get_su_nf.py], lines 11-21). *)

Module Duration.
Import PyStr PyNum.

Definition convert_time_to_hours (time_str : str) : result Q :=
  '(hours, time_str) ←
    (if contains (lit "h") time_str
     then
       h0 ← getitem (split (lit "h") time_str) 0;
       hours ← py_int (strip h0);
       h1 ← getitem (split (lit "h") time_str) 1;
       mret (hours, strip h1)
     else mret (0, time_str));
  '(minutes, time_str) ←
    (if contains (lit "m") time_str
     then
       m0 ← getitem (split (lit "m") time_str) 0;
       minutes ← py_int (strip m0);
       m1 ← getitem (split (lit "m") time_str) 1;
       mret (minutes, strip m1)
     else mret (0, time_str));
  seconds ←
    (if contains (lit "s") time_str
     then
       s0 ← getitem (split (lit "s") time_str) 0;
       float_of_text (strip s0)
     else mret 0%Q);
  minutes_60 ← int_truediv minutes 60;
  hours ← float_of_int hours;
  mret (fadd (fadd hours minutes_60) (fdiv seconds 3600)).

End Duration.

(** ** [nextflow/fixed_cpus/get_su_nf2-fixedCpus.py] *)

Module FixedCpus.
Import PyStr PyNum.

Definition convert_time_to_hours := Duration.convert_time_to_hours.

(** The character class of the first group of the pattern, a digit or a
    point. *)
Definition isvalue (c : ascii) : bool := isdecimal c || Ascii.eqb c ".".

(** [re.match] of the pattern of [format_memory]: a group of one or more
    digits or points, then white space, then a group of one or more word
    characters.  The three quantifiers are greedy and give characters
    back in the order a backtracking matcher does: [match_value n] tries
    the first group on [n] characters, then on [n - 1], down to one;
    [match_spaces k] tries the white space on [k] characters, then on
    [k - 1], down to none; [match_unit] takes the longest run of word
    characters, which has to be non-empty. *)
Definition match_unit (rest : str) : option str :=
  match takewhile isword rest with
  | [] => None
  | u => Some u
  end.

Fixpoint match_spaces (k : nat) (rest : str) : option str :=
  match match_unit (drop k rest) with
  | Some u => Some u
  | None =>
      match k with
      | O => None
      | S k' => match_spaces k' rest
      end
  end.

Fixpoint match_value (n : nat) (s : str) : option (str * str) :=
  match n with
  | O => None
  | S n' =>
      let rest := drop n s in
      match match_spaces (length (takewhile isspace rest)) rest with
      | Some u => Some (take n s, u)
      | None => match_value n' s
      end
  end.

Definition re_match_memory (s : str) : option (str * str) :=
  match_value (length (takewhile isvalue s)) s.

Definition format_memory (memory_value : str) : str :=
  match strip memory_value with
  | [] => lit "N/A"
  | _ =>
      match re_match_memory memory_value with
      | Some (value, unit) => value ++ lit " " ++ unit
      | None => memory_value
      end
  end.

(** [re.sub] of the pattern of [clean_name] with the empty string: an
    opening bracket, the shortest run of characters other than a line
    feed, a closing bracket.  [find_close s] is the text after the
    bracket that closes one opened just before [s]. *)
Fixpoint find_close (s : str) : option str :=
  match s with
  | [] => None
  | c :: s' =>
      if Ascii.eqb c ")" then Some s'
      else if Ascii.eqb c "010" then None
      else find_close s'
  end.

Fixpoint sub_brackets (fuel : nat) (s : str) : str :=
  match fuel with
  | O => s
  | S fuel' =>
      match s with
      | [] => []
      | c :: s' =>
          if Ascii.eqb c "("
          then match find_close s' with
               | Some rest => sub_brackets fuel' rest
               | None => c :: sub_brackets fuel' s'
               end
          else c :: sub_brackets fuel' s'
      end
  end.

Definition clean_name (name : str) : str :=
  strip (sub_brackets (length name) name).

(** One entry of the list [output] of [main]. *)
Record task : Type := {
  name : str;
  duration : str;
  duration_hours : Q;
  peak_rss : str;
  SU : Q;
  CPUs : Z;
  total_cores : Z
}.

(** The body of the loop [for row in rows] of [main], without the
    running total. *)
Definition main_row (cpus : Z) (row : list str) : result task :=
  name0 ← getitem row 3;
  let name := clean_name name0 in
  duration ← getitem row 8;
  rss0 ← getitem row 10;
  let peak_rss := format_memory rss0 in
  hours ← convert_time_to_hours duration;
  let duration_hours := round2 hours in
  let cores_per_cpu := 64 in
  let SU := (duration_hours * inject_Z (cores_per_cpu * cpus))%Q in
  mret {| name := name; duration := duration; duration_hours := duration_hours;
          peak_rss := peak_rss; SU := SU; CPUs := cpus;
          total_cores := cores_per_cpu * cpus |}.

Fixpoint main_rows (cpus : Z) (rows : list (list str))
    (output : list task) (total_su : Q) : result (list task * Q) :=
  match rows with
  | [] => mret (output, total_su)
  | row :: rows' =>
      t ← main_row cpus row;
      main_rows cpus rows' (output ++ [t]) (total_su + SU t)%Q
  end.

(** [main], from the CPU count [cpus] read on the command line and the
    text [data] of the input file, to the list [output] and the total
    that are then printed. *)
Definition main (cpus : Z) (data : str) : result (list task * Q) :=
  let lines := split line_feed (strip data) in
  let rows := map (split tab) (tail lines) in
  main_rows cpus rows [] 0%Q.

End FixedCpus.

(** ** [nextflow/pipeline/get_su_nf.py] *)

Module Pipeline.

Definition convert_time_to_hours := Duration.convert_time_to_hours.

(** [cores_per_node] has the default value 64. *)
Definition calculate_su (cpu_percent : Q) (duration_str : str)
    (cores_per_node : Z) : result Q :=
  duration_hours ← convert_time_to_hours duration_str;
  let su := ((cpu_percent / 100) * inject_Z cores_per_node * duration_hours)%Q in
  mret su.



End Pipeline.

(** ** [single_jobs/get_su_threads_cpus.py] *)

Module Sweep.
Import PyStr PyNum.

(** *** The world outside the program *)

(** What [subprocess.run] hands back. *)
Record CompletedProcess : Type := {
  returncode : Z;
  stdout : str;
  stderr : str
}.

(** The cluster is an oracle.  The program meets it at [sbatch], at
    [sacct] and when it sleeps; these meetings are numbered, and the
    number is the [tick] of the world.  At meeting [t] the cluster answers
    [sbatch_reply t] or [sacct_reply t], and the jobs that ran meanwhile
    have written the files [job_output t]. *)
Record Cluster : Type := {
  sbatch_reply : nat -> str -> CompletedProcess;
  sacct_reply : nat -> str -> str;
  job_output : nat -> gmap str str
}.

(** What the program does to the world, in the order it does it.
    [LogWrite] is a [write] to [job_output.log]. *)
Inductive event : Type :=
| WriteFile (filename content : str)
| Sbatch (script_filename : str)
| Sacct (job_id : str)
| Sleep (seconds : Z)
| ReadFile (filename : str)
| LogWrite (text : str).

Record World : Type := {
  cluster : Cluster;
  tick : nat;
  files : gmap str str;
  trace : list event
}.

(** A run ends with a value, with an exception, or is still in the loop
    of [wait_for_job_completion] when the iterations granted to it are
    used up. *)
Inductive outcome (A : Type) : Type :=
| Done (a : A) (w : World)
| Raised (e : exn) (w : World)
| Running (w : World).

Arguments Done {A} a w.
Arguments Raised {A} e w.
Arguments Running {A} w.

Definition M (A : Type) : Type := World -> outcome A.

#[global] Instance M_ret : MRet M := fun _ a w => Done a w.

#[global] Instance M_bind : MBind M := fun _ _ f m w =>
  match m w with
  | Done a w' => f a w'
  | Raised e w' => Raised e w'
  | Running w' => Running w'
  end.

Definition lift {A : Type} (r : result A) : M A := fun w =>
  match r with
  | Ok a => Done a w
  | Raise e => Raised e w
  end.

Definition emit (e : event) : M unit := fun w =>
  Done tt {| cluster := cluster w; tick := tick w; files := files w;
             trace := trace w ++ [e] |}.

(** A meeting with the cluster: the jobs' files of this tick appear and
    the tick advances. *)
Definition meet : M nat := fun w =>
  Done (tick w)
       {| cluster := cluster w; tick := S (tick w);
          files := job_output (cluster w) (tick w) ∪ files w;
          trace := trace w |}.

Definition write_file (filename content : str) : M unit := fun w =>
  Done tt {| cluster := cluster w; tick := tick w;
             files := <[filename := content]> (files w);
             trace := trace w ++ [WriteFile filename content] |}.

(** [open(filename, "r")] and [read()]. *)
Definition read_file (filename : str) : M str := fun w =>
  let w' := {| cluster := cluster w; tick := tick w; files := files w;
               trace := trace w ++ [ReadFile filename] |} in
  match files w !! filename with
  | Some content => Done content w'
  | None => Raised FileNotFoundError w'
  end.

Definition the_cluster : M Cluster := fun w => Done (cluster w) w.

(** [subprocess.run(['sbatch', script_filename], ...)] *)
Definition run_sbatch (script_filename : str) : M CompletedProcess :=
  _ ← emit (Sbatch script_filename);
  t ← meet;
  c ← the_cluster;
  mret (sbatch_reply c t script_filename).

(** [subprocess.run(['sacct', '-j', job_id, ...]).stdout] *)
Definition run_sacct (job_id : str) : M str :=
  _ ← emit (Sacct job_id);
  t ← meet;
  c ← the_cluster;
  mret (sacct_reply c t job_id).

Definition sleep (seconds : Z) : M unit :=
  _ ← emit (Sleep seconds);
  _ ← meet;
  mret tt.

Definition log_write (text : str) : M unit := emit (LogWrite text).

(** [try: body except FileNotFoundError: handler] *)
Definition catch_not_found {A : Type} (body : M A) (handler : M A) : M A :=
  fun w =>
    match body w with
    | Raised FileNotFoundError w' => handler w'
    | o => o
    end.

(** *** The program *)

Definition nl : str := line_feed.
Definition dq : str := ["034"%char].

Definition unlines (ls : list str) : str := concat (map (fun l => l ++ nl) ls).

Definition script_filename_of (num_cpus : Z) : str :=
  lit "slurm_job_" ++ str_of_Z num_cpus ++ lit ".sh".

Definition time_filename_of (cpu_count : Z) : str :=
  lit "job-" ++ str_of_Z cpu_count ++ lit ".time".

Definition substitute (command : str) (cores num_cpus : Z) : str :=
  replace (lit "{cpus}") (str_of_Z num_cpus)
    (replace (lit "{cores}") (str_of_Z cores) command).

(** The text of the script is one template; it is cut here into the
    lines before the command, the command, and the lines after it. *)
Definition script_head (num_cpus cores : Z) (job_name account partition : str) : list str :=
  [ lit "#!/bin/bash";
    lit "#SBATCH --job-name=" ++ job_name;
    lit "#SBATCH --ntasks=" ++ str_of_Z num_cpus;
    lit "#SBATCH --cpus-per-task=1";
    lit "#SBATCH --time=1-00:00:00  # Adjust this as necessary";
    lit "#SBATCH --account=" ++ account ++ lit "  # Specify your account";
    lit "#SBATCH --partition=" ++ partition ++ lit "  # Specify the partition";
    lit "#SBATCH --exclusive";
    lit "#SBATCH --output=slurm-%j.out";
    lit "#SBATCH --error=slurm-%j.err";
    lit "#SBATCH --mem-per-cpu=200GB";
    [];
    lit "echo " ++ dq ++ lit "Running on $SLURM_JOB_NODELIST" ++ dq;
    lit "echo " ++ dq ++ lit "Using " ++ str_of_Z num_cpus ++ lit " CPUs and "
      ++ str_of_Z cores ++ lit " cores" ++ dq;
    [];
    lit "# Record start time";
    lit "start_time=$(date +%s)";
    [];
    lit "# Run the command with the number of cores and output directory" ].

Definition script_tail (num_cpus : Z) : list str :=
  [ [];
    lit "# Record end time";
    lit "end_time=$(date +%s)";
    lit "elapsed_time=$((end_time - start_time))";
    [];
    lit "# Write the elapsed time to a file";
    lit "echo " ++ dq ++ lit "Elapsed time: $elapsed_time seconds" ++ dq
      ++ lit " > " ++ time_filename_of num_cpus ].

Definition script_content_of (num_cpus : Z) (command job_name account partition : str) : str :=
  let cores := num_cpus * 64 in
  let command_with_cores := substitute command cores num_cpus in
  unlines (script_head num_cpus cores job_name account partition
           ++ [command_with_cores] ++ script_tail num_cpus).

Definition create_slurm_script (num_cpus : Z) (command job_name account partition : str)
    : M str :=
  let script_content := script_content_of num_cpus command job_name account partition in
  let script_filename := script_filename_of num_cpus in
  _ ← write_file script_filename script_content;
  mret script_filename.

(** The answer of [submit_slurm_job] from what [sbatch] handed back. *)
Definition job_id_of (result : CompletedProcess) : str :=
  if negb (returncode result =? 0)
  then lit "Error submitting job: " ++ stderr result
  else
    let output := stdout result in
    match getlast (split_ws (strip output)) with
    | Ok job_id => job_id
    | Raise _ => lit "Error: Failed to extract job ID from sbatch output."
    end.

Definition submit_slurm_job (script_filename : str) : M str :=
  result ← run_sbatch script_filename;
  mret (job_id_of result).

Definition is_terminal (job_status : str) : bool :=
  contains (lit "COMPLETED") job_status
  || contains (lit "FAILED") job_status
  || contains (lit "CANCELLED") job_status.

(** The loop [while True]; [fuel] bounds the iterations of the model
    only, the program has no bound. *)
Fixpoint wait_for_job_completion (fuel : nat) (job_id : str) : M unit :=
  match fuel with
  | O => fun w => Running w
  | S fuel' =>
      out ← run_sacct job_id;
      let job_status := strip out in
      if is_terminal job_status
      then mret tt
      else
        _ ← sleep 10;
        wait_for_job_completion fuel' job_id
  end.

Definition calculate_su (num_cpus cores_per_cpu : Z) (wall_time_hours : Q)
    (su_cost_per_core_hour : Z) : Q :=
  let num_cores := num_cpus * cores_per_cpu in
  let total_su :=
    (inject_Z num_cores * wall_time_hours * inject_Z su_cost_per_core_hour)%Q in
  total_su.

Definition read_wall_time (cpu_count : Z) : M Q :=
  catch_not_found
    (time_data0 ← read_file (time_filename_of cpu_count);
     let time_data := strip time_data0 in
     field ← lift (getitem (split_ws time_data) 2);
     elapsed_time ← lift (py_float field);
     mret (elapsed_time / 3600)%Q)
    (mret 0%Q).

(** The dictionary [job_ids]: keys in the order of their first
    insertion, a later assignment to a key replaces its value in
    place. *)
Fixpoint dict_set (k : Z) (v : str) (d : list (Z * str)) : list (Z * str) :=
  match d with
  | [] => [(k, v)]
  | (k', v') :: d' =>
      if k' =? k then (k, v) :: d' else (k', v') :: dict_set k v d'
  end.

Definition header_line : str :=
  ljust 10 (lit "CPUs") ++ ljust 10 (lit "Cores") ++ ljust 10 (lit "SU") ++ nl.

Definition rule_line : str := repeat "="%char 30 ++ nl.

Definition report_line (num_cpus num_cores : Z) (total_su : Q) : str :=
  ljust 10 (str_of_Z num_cpus) ++ ljust 10 (str_of_Z num_cores)
    ++ ljust 10 (format_2f total_su) ++ nl.

Fixpoint parse_cpu_list (fields : list str) : result (list Z) :=
  match fields with
  | [] => mret []
  | cpu :: fields' =>
      n ← py_int cpu;
      ns ← parse_cpu_list fields';
      mret (n :: ns)
  end.

(** The first loop of [main]: a script and a submission per CPU count. *)
Fixpoint submit_all (cpu_list : list Z) (command account partition : str)
    (job_ids : list (Z * str)) : M (list (Z * str)) :=
  match cpu_list with
  | [] => mret job_ids
  | num_cpus :: cpu_list' =>
      let job_name := lit "test_job_" ++ str_of_Z num_cpus ++ lit "_cpus" in
      script_filename ← create_slurm_script num_cpus command job_name account partition;
      job_id ← submit_slurm_job script_filename;
      let job_ids :=
        if negb (contains (lit "Error") job_id)
        then dict_set num_cpus job_id job_ids
        else job_ids in
      submit_all cpu_list' command account partition job_ids
  end.

(** The second loop: [for num_cpus, job_id in job_ids.items()]. *)
Fixpoint wait_all (fuel : nat) (items : list (Z * str)) : M unit :=
  match items with
  | [] => mret tt
  | (num_cpus, job_id) :: items' =>
      _ ← wait_for_job_completion fuel job_id;
      wait_all fuel items'
  end.

(** The body of the third loop. *)
Definition report_one (cores_per_cpu su_cost_per_core_hour : Z) (num_cpus : Z) : M unit :=
  wall_time_hours ← read_wall_time num_cpus;
  let total_su := calculate_su num_cpus cores_per_cpu wall_time_hours su_cost_per_core_hour in
  let num_cores := num_cpus * cores_per_cpu in
  log_write (report_line num_cpus num_cores total_su).

Fixpoint report_all (cores_per_cpu su_cost_per_core_hour : Z) (cpu_list : list Z) : M unit :=
  match cpu_list with
  | [] => mret tt
  | num_cpus :: cpu_list' =>
      _ ← report_one cores_per_cpu su_cost_per_core_hour num_cpus;
      report_all cores_per_cpu su_cost_per_core_hour cpu_list'
  end.

(** [main] after the check of the argument count; the four arguments are
    [sys.argv[1]] to [sys.argv[4]], and [fuel] is what each call of
    [wait_for_job_completion] is granted. *)
Definition main (fuel : nat) (cpu_list_str command account partition : str) : M unit :=
  cpu_list ← lift (parse_cpu_list (split (lit ",") cpu_list_str));
  let cores_per_cpu := 64 in
  let su_cost_per_core_hour := 1 in
  _ ← log_write header_line;
  _ ← log_write rule_line;
  job_ids ← submit_all cpu_list command account partition [];
  _ ← wait_all fuel job_ids;
  report_all cores_per_cpu su_cost_per_core_hour cpu_list.

(** The text of [job_output.log]: the writes to it, in order. *)
Definition log_text (t : list event) : str :=
  concat (map (fun e => match e with LogWrite text => text | _ => [] end) t).

End Sweep.

(** ** Well-formed duration texts

    The texts the duration parser is specified on: an optional hour
    segment, an optional minute segment and an optional second segment, in
    that order, each a number followed by its letter. *)

Module DurationText.
Import PyStr PyNum.

Definition has_char (c : ascii) (s : str) : bool := existsb (Ascii.eqb c) s.

(** The number of a second segment: digits, or digits around a point
    with at least one digit on one side. *)
Inductive seconds_literal : Type :=
| Whole (ip : str)
| Fraction (ip fp : str).

Record t : Type := {
  hour_seg : option str;
  minute_seg : option str;
  second_seg : option seconds_literal
}.

Definition int_ok (o : option str) : bool :=
  match o with
  | None => true
  | Some ds => all_digits ds
  end.

Definition seconds_ok (o : option seconds_literal) : bool :=
  match o with
  | None => true
  | Some (Whole ip) => all_digits ip
  | Some (Fraction ip fp) =>
      forallb isdecimal ip && forallb isdecimal fp && (all_digits ip || all_digits fp)
  end.


Definition seconds_text (l : seconds_literal) : str :=
  match l with
  | Whole ip => ip
  | Fraction ip fp => ip ++ "."%char :: fp
  end.

Definition marked (o : option str) (letter : ascii) : str :=
  match o with
  | None => []
  | Some number => number ++ [letter]
  end.

Definition text (d : t) : str :=
  marked (hour_seg d) "h" ++ marked (minute_seg d) "m"
    ++ marked (option_map seconds_text (second_seg d)) "s".

Definition int_value (o : option str) : Z :=
  match o with
  | None => 0
  | Some ds => digits_val 0 ds
  end.

Definition seconds_value (o : option seconds_literal) : Q :=
  match o with
  | None => 0
  | Some (Whole ip) => inject_Z (digits_val 0 ip)
  | Some (Fraction ip fp) =>
      inject_Z (digits_val 0 ip)
      + inject_Z (digits_val 0 fp) / inject_Z (10 ^ Z.of_nat (length fp))
  end%Q.

(** [hours + minutes/60 + seconds/3600] *)
Definition value (d : t) : Q :=
  (inject_Z (int_value (hour_seg d)) + inject_Z (int_value (minute_seg d)) / 60
   + seconds_value (second_seg d) / 3600)%Q.








End DurationText.

(** ** Memory texts

    What the memory formatter is specified on: a text is white space only,
    or it begins with a numeric value, optional white space and a unit
    token of letters, or it does not begin with a digit or a point. *)

Module MemoryText.
Import PyStr.

Definition whitespace_only (s : str) : bool := forallb isspace s.

(** What the pattern of [format_memory] can match at the start of [s]:
    [s] is [value], then [spaces], then [unit], then anything, where [value]
    is a non-empty run of digits and points, [spaces] is white space and
    [unit] is a non-empty run of the pattern's word characters. *)
Definition shape (s value spaces unit rest : str) : Prop :=
  s = value ++ spaces ++ unit ++ rest
  /\ value <> [] /\ forallb FixedCpus.isvalue value = true
  /\ forallb isspace spaces = true
  /\ unit <> [] /\ forallb isword unit = true.

Definition matches (s : str) : Prop :=
  exists value spaces unit rest, shape s value spaces unit rest.

(** A letter of a unit: [A] to [Z] and [a] to [z]. *)
Definition isletter (c : ascii) : bool := in_range 65 90 c || in_range 97 122 c.

(** The unit ends where [rest] begins: [rest] is empty or begins with a
    character that is no letter, digit or underscore. *)
Definition unit_ends (rest : str) : bool :=
  match rest with
  | [] => true
  | c :: _ => negb (isword c)
  end.

(** [s] is [value], then [spaces], then [unit], then [rest]: [value] is a
    non-empty run of digits and points, [spaces] is white space, [unit] is a
    non-empty run of letters that ends where [rest] begins. *)
Definition reading (s value spaces unit rest : str) : Prop :=
  s = value ++ spaces ++ unit ++ rest
  /\ value <> [] /\ forallb FixedCpus.isvalue value = true
  /\ forallb isspace spaces = true
  /\ unit <> [] /\ forallb isletter unit = true
  /\ unit_ends rest = true.

(** [s] begins with a digit or a point. *)
Definition numeric_start (s : str) : bool :=
  match s with
  | [] => false
  | c :: _ => FixedCpus.isvalue c
  end.

End MemoryText.

(** ** Filling a command template

    What the script generator is specified to do with the command: going
    through the template once from the left, each [{cores}] becomes the
    core count and each [{cpus}] the CPU count. *)

Module Template.
Import PyStr.

Fixpoint fill_go (fuel : nat) (t1 a t2 b : str) (template : str) : str :=
  match fuel with
  | O => template
  | S fuel' =>
      if startswith t1 template
      then a ++ fill_go fuel' t1 a t2 b (drop (length t1) template)
      else if startswith t2 template
      then b ++ fill_go fuel' t1 a t2 b (drop (length t2) template)
      else match template with
           | [] => []
           | c :: template' => c :: fill_go fuel' t1 a t2 b template'
           end
  end.

(** One pass with the placeholders [t1] and [t2]. *)
Definition fill_tokens (t1 a t2 b : str) (template : str) : str :=
  fill_go (length template) t1 a t2 b template.

Definition fill (cores cpus : str) (template : str) : str :=
  fill_tokens (lit "{cores}") cores (lit "{cpus}") cpus template.

(** The characters of the text of an integer, and the characters of the
    inside of a placeholder. *)
Definition isnum (c : ascii) : bool := isdecimal c || Ascii.eqb c "-".
Definition isplain (c : ascii) : bool := negb (Ascii.eqb c "{") && negb (isnum c).

End Template.

(** ** Runs of the sweep

    The vocabulary in which the runs of the sweep program are described:
    the events a phase leaves in the trace and the world it leaves
    behind. *)

Module Run.
Import PyStr PyNum Sweep.

(** [w] with the events [evs] added to its trace. *)
Definition record (evs : list event) (w : World) : World :=
  {| cluster := cluster w; tick := tick w; files := files w;
     trace := trace w ++ evs |}.

(** [w] after [k] meetings with the cluster. *)
Fixpoint elapse (k : nat) (w : World) : World :=
  match k with
  | O => w
  | S k' =>
      elapse k' {| cluster := cluster w; tick := S (tick w);
                   files := job_output (cluster w) (tick w) ∪ files w;
                   trace := trace w |}
  end.

(** What [sacct] prints at the [n]-th query of a polling loop that starts
    in [w]: a round of the loop is two meetings, the query and the
    sleep. *)
Definition status_at (w : World) (job_id : str) (n : nat) : str :=
  sacct_reply (cluster w) (tick w + 2 * n) job_id.

(** [n] is the first query that finds a terminal state. *)
Definition first_terminal (w : World) (job_id : str) (n : nat) : Prop :=
  is_terminal (status_at w job_id n) = true
  /\ forall i, (i < n)%nat -> is_terminal (status_at w job_id i) = false.

(** The events of a polling loop that returns at its [n]-th query, and of
    one that is still going after [n] rounds. *)
Definition poll_rounds (job_id : str) (n : nat) : list event :=
  concat (repeat [Sacct job_id; Sleep 10] n).

Definition poll_events (job_id : str) (n : nat) : list event :=
  poll_rounds job_id n ++ [Sacct job_id].

Definition is_query_or_delay (job_id : str) (e : event) : Prop :=
  e = Sacct job_id \/ e = Sleep 10.

(** The polling loops of a list of jobs, the [i]-th returning at its
    [rounds !! i]-th query, and the meetings they take. *)
Fixpoint poll_all_events (items : list (Z * str)) (rounds : list nat) : list event :=
  match items, rounds with
  | (_, job_id) :: items', n :: rounds' =>
      poll_events job_id n ++ poll_all_events items' rounds'
  | _, _ => []
  end.

Fixpoint poll_all_ticks (rounds : list nat) : nat :=
  match rounds with
  | [] => 0
  | n :: rounds' => (2 * n + 1) + poll_all_ticks rounds'
  end.

(** The job [job_id] reaches a terminal state, whenever the polling
    starts. *)
Definition finishing (c : Cluster) (job_id : str) : Prop :=
  forall t, exists n, is_terminal (sacct_reply c (t + 2 * n)%nat job_id) = true.

(** The submission of the script of [num_cpus] at tick [t]: what
    [submit_slurm_job] returns, and whether [main] takes it for a job
    ID. *)
Definition submission (c : Cluster) (t : nat) (num_cpus : Z) : str :=
  job_id_of (sbatch_reply c t (script_filename_of num_cpus)).

Definition accepted (job_id : str) : bool := negb (contains (lit "Error") job_id).

(** The dictionary [job_ids] after the submissions of [cpu_list], the
    first of them at tick [t]. *)
Fixpoint register (c : Cluster) (t : nat) (cpu_list : list Z) (job_ids : list (Z * str))
    : list (Z * str) :=
  match cpu_list with
  | [] => job_ids
  | num_cpus :: cpu_list' =>
      let job_id := submission c t num_cpus in
      register c (S t) cpu_list'
        (if accepted job_id then dict_set num_cpus job_id job_ids else job_ids)
  end.

(** The accepted submissions of [cpu_list], in the order of the list. *)
Fixpoint accepted_jobs (c : Cluster) (t : nat) (cpu_list : list Z) : list (Z * str) :=
  match cpu_list with
  | [] => []
  | num_cpus :: cpu_list' =>
      let job_id := submission c t num_cpus in
      (if accepted job_id then [(num_cpus, job_id)] else [])
      ++ accepted_jobs c (S t) cpu_list'
  end.

Definition job_name_of (num_cpus : Z) : str :=
  lit "test_job_" ++ str_of_Z num_cpus ++ lit "_cpus".

Definition submit_events (command account partition : str) (cpu_list : list Z) : list event :=
  flat_map (fun num_cpus =>
              [WriteFile (script_filename_of num_cpus)
                 (script_content_of num_cpus command (job_name_of num_cpus) account partition);
               Sbatch (script_filename_of num_cpus)]) cpu_list.

(** The world after the first loop of [main], apart from its trace. *)
Fixpoint submitted (command account partition : str) (cpu_list : list Z) (w : World) : World :=
  match cpu_list with
  | [] => w
  | num_cpus :: cpu_list' =>
      submitted command account partition cpu_list'
        (elapse 1
           {| cluster := cluster w; tick := tick w;
              files := <[script_filename_of num_cpus :=
                           script_content_of num_cpus command (job_name_of num_cpus)
                             account partition]> (files w);
              trace := trace w |})
  end.

(** The wall time [read_wall_time] finds in the files [fs]. *)
Definition wall_time_in (fs : gmap str str) (cpu_count : Z) : result Q :=
  match fs !! time_filename_of cpu_count with
  | None => Ok 0%Q
  | Some time_data0 =>
      field ← getitem (split_ws (strip time_data0)) 2;
      elapsed_time ← py_float field;
      mret (elapsed_time / 3600)%Q
  end.

Definition wall_time_or_zero (fs : gmap str str) (cpu_count : Z) : Q :=
  match wall_time_in fs cpu_count with
  | Ok q => q
  | Raise _ => 0%Q
  end.

Definition report_events (fs : gmap str str) (cpu_list : list Z) : list event :=
  flat_map (fun num_cpus =>
              [ReadFile (time_filename_of num_cpus);
               LogWrite (report_line num_cpus (num_cpus * 64)
                           (calculate_su num_cpus 64 (wall_time_or_zero fs num_cpus) 1))])
           cpu_list.

(** A wall-time file as the generated script writes it. *)
Definition written_by_script (content : str) : Prop :=
  exists ds, all_digits ds = true
             /\ content = lit "Elapsed time: " ++ ds ++ lit " seconds" ++ nl.

(** Every wall-time file among [fs] is as the generated script writes
    it. *)
Definition tidy (fs : gmap str str) : Prop :=
  forall cpu_count content,
    fs !! time_filename_of cpu_count = Some content -> written_by_script content.

(** The shape of the trace of a run of [main] from [w] to [w'] on the CPU
    counts [cpu_list] whose dictionary of job IDs is [job_ids]: the two
    header lines of the log; then, per CPU count in the order given, the
    script and its submission; then, per entry of [job_ids] in its order,
    the polling loop of the job; then, per CPU count in the order given,
    the reading of the wall time and the report line. *)
Definition phased (command account partition : str) (cpu_list : list Z)
    (job_ids : list (Z * str)) (w w' : World) : Prop :=
  exists rounds,
    length rounds = length job_ids
    /\ trace w'
       = trace w ++ [LogWrite header_line; LogWrite rule_line]
         ++ submit_events command account partition cpu_list
         ++ poll_all_events job_ids rounds
         ++ report_events (files w') cpu_list.

(** The report row of a CPU count whose SU is shown as zero. *)
Definition zero_row (num_cpus : Z) : str :=
  ljust 10 (str_of_Z num_cpus) ++ ljust 10 (str_of_Z (num_cpus * 64))
    ++ lit "0.00      " ++ nl.

End Run.

(** ** Sample clusters *)

Module Sample.
Import PyStr PyNum Sweep.

(** [sbatch] accepts every script and numbers the jobs from 7 by the
    tick; [sacct] reports a job running until tick [done_at] and completed
    from then on; no job writes a file. *)
Definition steady (done_at : nat) : Cluster :=
  {| sbatch_reply := fun t _ =>
       {| returncode := 0;
          stdout := lit "Submitted batch job " ++ str_of_Z (Z.of_nat t + 7) ++ nl;
          stderr := [] |};
     sacct_reply := fun t _ =>
       if (t <? done_at)%nat then lit "   RUNNING " ++ nl else lit " COMPLETED " ++ nl;
     job_output := fun _ => ∅ |}.

(** As [steady], but [sbatch] refuses the script at tick [bad]. *)
Definition refusing (bad done_at : nat) : Cluster :=
  {| sbatch_reply := fun t script =>
       if (t =? bad)%nat
       then {| returncode := 1; stdout := [];
               stderr := lit "sbatch: error: invalid partition" ++ nl |}
       else sbatch_reply (steady done_at) t script;
     sacct_reply := sacct_reply (steady done_at);
     job_output := fun _ => ∅ |}.

(** As [steady], and at tick [done_at] the job of 2 CPUs has written its
    wall-time file: two hours. *)
Definition timed (done_at : nat) : Cluster :=
  {| sbatch_reply := sbatch_reply (steady done_at);
     sacct_reply := sacct_reply (steady done_at);
     job_output := fun t =>
       if (t =? done_at)%nat
       then {[ time_filename_of 2 := lit "Elapsed time: 7200 seconds" ++ nl ]}
       else ∅ |}.

Definition start (c : Cluster) : World :=
  {| cluster := c; tick := 0; files := ∅; trace := [] |}.

(** An input file of one record: the header line and one row of eleven
    columns, the task name in the fourth, the duration in the ninth and the
    peak memory in the eleventh. *)
Definition one_record_file (duration : string) : str :=
  lit "c0" ++ tab ++ lit "c1" ++ line_feed
  ++ lit "1" ++ tab ++ lit "ab/12" ++ tab ++ lit "77" ++ tab
  ++ lit "align (sample 1)" ++ tab ++ lit "COMPLETED" ++ tab
  ++ lit "0" ++ tab ++ lit "2024-09-25" ++ tab ++ lit "-" ++ tab
  ++ lit duration ++ tab ++ lit "95.0%" ++ tab ++ lit "512.5MB"
  ++ line_feed.

End Sample.

(** ** Task names

    What [clean_name] is specified by: a text holds a bracket group when
    an opening bracket is followed, on the same line, by a closing one. *)

Module NameText.
Import PyStr FixedCpus.

(** No opening bracket of [s] is closed on its line. *)
Definition bracket_free (s : str) : Prop :=
  forall pre suf, s = pre ++ "("%char :: suf -> find_close suf = None.

End NameText.

(** ** The rows of an accounting file *)

Module Report.
Import PyStr FixedCpus.

(** The rows [main] goes through: the lines of the stripped file after the
    first, cut at the tabs. *)
Definition data_rows (data : str) : list (list str) :=
  map (split tab) (tail (split line_feed (strip data))).

(** The running total after the records [output], from [total_su]. *)
Definition add_su (output : list task) (total_su : Q) : Q :=
  fold_left (fun acc t => (acc + SU t)%Q) output total_su.

End Report.

(** ** The dictionary of job IDs *)

Module Dict.
Import Sweep Run.

(** Among the submissions of [cpu_list], the first of them at tick [t],
    the [i]-th is the last accepted one of the CPU count [k]. *)
Definition last_accepted (c : Cluster) (t : nat) (cpu_list : list Z) (k : Z) (i : nat) : Prop :=
  cpu_list !! i = Some k
  /\ accepted (submission c (t + i) k) = true
  /\ forall j, (i < j)%nat -> cpu_list !! j = Some k ->
               accepted (submission c (t + j) k) = false.

(** No submission of the CPU count [k] is accepted. *)
Definition never_accepted (c : Cluster) (t : nat) (cpu_list : list Z) (k : Z) : Prop :=
  forall i, cpu_list !! i = Some k -> accepted (submission c (t + i) k) = false.

End Dict.

(** ** A cluster whose jobs never end *)

Module Stalled.
Import PyStr PyNum Sweep.

(** [sbatch] accepts every script, and [sacct] reports every job as
    running, for ever. *)
Definition never_done : Cluster :=
  {| sbatch_reply := sbatch_reply (Sample.steady 0);
     sacct_reply := fun _ _ => lit "   RUNNING " ++ nl;
     job_output := fun _ => ∅ |}.

End Stalled.

(** ** Duration texts with white space

    The duration texts of a trace file carry white space between their
    segments, as in ["1h 30m 5s"].  Here white space may stand before and
    after each number and at the end of the text. *)

Module PaddedText.
Import PyStr DurationText.

Record gaps : Type := {
  before_hours : str;
  after_hours : str;
  before_minutes : str;
  after_minutes : str;
  before_seconds : str;
  after_seconds : str;
  at_end : str
}.


(** A segment: white space, the number, white space, the letter. *)
Definition seg (before : str) (o : option str) (after : str) (letter : ascii) : str :=
  match o with
  | None => []
  | Some number => before ++ number ++ after ++ [letter]
  end.


Definition text (d : DurationText.t) (g : gaps) : str :=
  seg (before_hours g) (hour_seg d) (after_hours g) "h"
  ++ seg (before_minutes g) (minute_seg d) (after_minutes g) "m"
  ++ seg (before_seconds g) (option_map seconds_text (second_seg d)) (after_seconds g) "s"
  ++ at_end g.

End PaddedText.

(** ** The loops of [nextflow/pipeline/get_su_nf.py]

    [parse_input_file] (lines 35-46) and [output_results] (lines 49-65).
    The rows are taken as [csv.reader] yields them after the header row,
    which [next(reader)] has skipped; of what [output_results] prints, the
    numbers are kept, in the order of the printing. *)

Module PipelineReport.
Import PyStr PyNum Pipeline.

(** An element of [tasks], the tuple
    [(task_id, cpu_percent, duration, peak_rss)]. *)
Record task : Type := {
  task_id : str;
  cpu_percent : Q;
  duration : str;
  peak_rss : str
}.




(** What [output_results] prints for one task. *)
Record shown : Type := {
  shown_task : task;
  shown_cores : Q;
  shown_hours : Q;
  shown_su : Q
}.





(** The sum of the SUs of [printed], added to [total_su] in the order of
    the list. *)
Definition add_su (printed : list shown) (total_su : Q) : Q :=
  fold_left (fun acc s => (acc + shown_su s)%Q) printed total_su.

End PipelineReport.

(** * Properties *)

(** ** Characters and strings *)

Section StrFacts.
Import PyStr PyNum DurationText.

Ltac by_cases c := destruct c as [[] [] [] [] [] [] [] []]; vm_compute; congruence.

Lemma isdecimal_not_space c : isdecimal c = true -> isspace c = false.
Proof. by_cases c. Qed.

Lemma isdecimal_not_letter c : isdecimal c = true ->
  Ascii.eqb "h" c = false /\ Ascii.eqb "m" c = false /\ Ascii.eqb "s" c = false
  /\ Ascii.eqb "." c = false.
Proof. destruct c as [[] [] [] [] [] [] [] []]; vm_compute; intuition congruence. Qed.

Lemma split_sign_digit c s : isdecimal c = true -> split_sign (c :: s) = (false, c :: s).
Proof. by_cases c. Qed.

Lemma startswith_single c s :
  startswith [c] s = match s with [] => false | d :: _ => Ascii.eqb c d end.
Proof. destruct s as [|d s]; simpl; [reflexivity | apply andb_true_r]. Qed.

Lemma contains_single c s : contains [c] s = has_char c s.
Proof.
  induction s as [|d s IH]; [reflexivity |].
  change (contains [c] (d :: s)) with (startswith [c] (d :: s) || contains [c] s).
  rewrite startswith_single, IH. reflexivity.
Qed.

Lemma has_char_app c a b : has_char c (a ++ b) = has_char c a || has_char c b.
Proof. apply existsb_app. Qed.

Lemma has_char_absent (p : ascii -> bool) c s :
  (forall d, p d = true -> Ascii.eqb c d = false) ->
  forallb p s = true -> has_char c s = false.
Proof.
  intros Hp. induction s as [|d s IH]; simpl; [reflexivity |].
  intros [Hd Hs]%andb_true_iff. rewrite (Hp d Hd), (IH Hs). reflexivity.
Qed.

Lemma split_absent c cur s :
  has_char c s = false -> split_go [c] 0 cur s = [cur ++ s].
Proof.
  revert cur. induction s as [|d s IH]; intros cur; simpl.
  - rewrite app_nil_r. reflexivity.
  - intros [Hd Hs]%orb_false_iff. rewrite Hd. simpl.
    rewrite (IH _ Hs), <- app_assoc. reflexivity.
Qed.

Lemma split_at_first c cur a b :
  has_char c a = false ->
  split_go [c] 0 cur (a ++ c :: b) = (cur ++ a) :: split_go [c] 0 [] b.
Proof.
  revert cur. induction a as [|d a IH]; intros cur; simpl.
  - intros _. rewrite Ascii.eqb_refl, app_nil_r. reflexivity.
  - intros [Hd Ha]%orb_false_iff. rewrite Hd. simpl.
    rewrite (IH _ Ha), <- app_assoc. reflexivity.
Qed.

Lemma dropwhile_none p s : existsb p s = false -> dropwhile p s = s.
Proof. destruct s as [|c s]; simpl; [reflexivity |]. intros [-> _]%orb_false_iff. reflexivity. Qed.

Lemma existsb_rev (p : ascii -> bool) s : existsb p (rev s) = existsb p s.
Proof.
  induction s as [|c s IH]; simpl; [reflexivity |].
  rewrite existsb_app, IH. simpl. rewrite orb_false_r. apply orb_comm.
Qed.

Lemma strip_no_space s : existsb isspace s = false -> strip s = s.
Proof.
  intros H. unfold strip, lstrip, rstrip. rewrite (dropwhile_none _ _ H).
  rewrite dropwhile_none; [apply rev_involutive |].
  rewrite existsb_rev. exact H.
Qed.


Lemma digits_no_space s : forallb isdecimal s = true -> existsb isspace s = false.
Proof.
  induction s as [|c s IH]; simpl; [reflexivity |].
  intros [Hc Hs]%andb_true_iff. rewrite (isdecimal_not_space c Hc), (IH Hs). reflexivity.
Qed.

Lemma all_digits_forallb s : all_digits s = true -> forallb isdecimal s = true.
Proof. destruct s; [discriminate | trivial]. Qed.

Lemma takewhile_all p s : forallb p s = true -> takewhile p s = s.
Proof.
  induction s as [|c s IH]; simpl; [reflexivity |].
  intros [-> Hs]%andb_true_iff. rewrite (IH Hs). reflexivity.
Qed.

Lemma dropwhile_all p s : forallb p s = true -> dropwhile p s = [].
Proof.
  induction s as [|c s IH]; simpl; [reflexivity |].
  intros [-> Hs]%andb_true_iff. exact (IH Hs).
Qed.

Lemma takewhile_app p a c b :
  forallb p a = true -> p c = false -> takewhile p (a ++ c :: b) = a.
Proof.
  intros Ha Hc. induction a as [|d a IH]; simpl in *; [rewrite Hc; reflexivity |].
  apply andb_true_iff in Ha as [-> Ha]. rewrite (IH Ha). reflexivity.
Qed.

Lemma dropwhile_app p a c b :
  forallb p a = true -> p c = false -> dropwhile p (a ++ c :: b) = c :: b.
Proof.
  intros Ha Hc. induction a as [|d a IH]; simpl in *; [rewrite Hc; reflexivity |].
  apply andb_true_iff in Ha as [-> Ha]. exact (IH Ha).
Qed.

Lemma numstrip_no_space s : existsb isspace s = false -> numstrip s = s.
Proof.
  intros H. assert (H' : existsb isnumspace s = false).
  { induction s as [|c s IH]; [reflexivity |]. simpl in H |- *.
    apply orb_false_iff in H as [Hc Hs]. unfold isnumspace at 1. rewrite Hc, (IH Hs).
    reflexivity. }
  unfold numstrip. rewrite (dropwhile_none _ _ H').
  rewrite dropwhile_none; [apply rev_involutive |].
  rewrite existsb_rev. exact H'.
Qed.

Lemma py_int_digits ds : all_digits ds = true -> py_int ds = Ok (digits_val 0 ds).
Proof.
  intros H. unfold py_int.
  rewrite (numstrip_no_space ds (digits_no_space ds (all_digits_forallb ds H))).
  destruct ds as [|c ds]; [discriminate |].
  rewrite split_sign_digit by (simpl in H; apply andb_true_iff in H; tauto).
  rewrite H. reflexivity.
Qed.

End StrFacts.

(** ** Binary64 rounding *)

Section Binary64.
Import PyNum.
Local Open Scope Q_scope.

Lemma pow2_pos e : 0 < pow2 e.
Proof. apply Qpower_0_lt. reflexivity. Qed.

Lemma pow2_add a b : pow2 (a + b) == pow2 a * pow2 b.
Proof. apply Qpower_plus. discriminate. Qed.

Lemma pow2_Z a : (0 <= a)%Z -> pow2 a == inject_Z (2 ^ a).
Proof. intros Ha. unfold pow2. rewrite Zpower_Qpower by exact Ha. reflexivity. Qed.

Lemma pow2_le a b : (a <= b)%Z -> pow2 a <= pow2 b.
Proof. intros H. apply Qpower_le_compat_l; [exact H | discriminate]. Qed.

Lemma pow2_lt a b : (a < b)%Z -> pow2 a < pow2 b.
Proof. intros H. apply Qpower_lt_compat_l; [exact H | reflexivity]. Qed.

Lemma round_half_even_comp x y : x == y -> round_half_even x = round_half_even y.
Proof.
  intros E. unfold round_half_even. rewrite (Qfloor_comp x y E).
  assert (E' : x - inject_Z (Qfloor y) == y - inject_Z (Qfloor y)) by (rewrite E; reflexivity).
  rewrite (Qcompare_comp _ _ E' (1 # 2) (1 # 2) (Qeq_refl _)). reflexivity.
Qed.

Lemma round_half_even_Z k : round_half_even (inject_Z k) = k.
Proof.
  unfold round_half_even. rewrite Qfloor_Z.
  assert (E : inject_Z k - inject_Z k == 0) by ring.
  rewrite (Qcompare_comp _ _ E (1 # 2) (1 # 2) (Qeq_refl _)). reflexivity.
Qed.





(** [ilog2 q] is the exponent of the binade of [q]. *)
Lemma ilog2_spec q : ~ q == 0 -> pow2 (ilog2 q) <= Qabs q /\ Qabs q < pow2 (ilog2 q + 1).
Proof.
  intros Hq. destruct q as [n d]. unfold ilog2. cbn [Qnum Qden].
  assert (Hn : (0 < Z.abs n)%Z).
  { assert (n <> 0%Z); [| lia]. intros ->. apply Hq. reflexivity. }
  set (a := Z.log2 (Z.abs n)). set (b := Z.log2 (Z.pos d)).
  destruct (Z.log2_spec (Z.abs n) Hn) as [Ha1 Ha2]. fold a in Ha1, Ha2.
  destruct (Z.log2_spec (Z.pos d) eq_refl) as [Hb1 Hb2]. fold b in Hb1, Hb2.
  assert (Ha0 : (0 <= a)%Z) by apply Z.log2_nonneg.
  assert (Hb0 : (0 <= b)%Z) by apply Z.log2_nonneg.
  assert (Habs : Qabs (n # d) == inject_Z (Z.abs n) / inject_Z (Z.pos d)).
  { unfold Qabs. cbn [Qnum Qden]. rewrite (Qmake_Qdiv (Z.abs n) d). reflexivity. }
  assert (Hd : 0 < inject_Z (Z.pos d)) by reflexivity.
  assert (Hlow : pow2 (a - b - 1) < Qabs (n # d)).
  { rewrite Habs. apply Qlt_shift_div_l; [exact Hd |].
    apply Qlt_le_trans with (pow2 (a - b - 1) * pow2 (b + 1)).
    - apply Qmult_lt_l; [apply pow2_pos |].
      rewrite (pow2_Z (b + 1)) by lia. rewrite <- Zlt_Qlt. replace (b + 1)%Z with (Z.succ b) by lia. exact Hb2.
    - rewrite <- pow2_add. replace (a - b - 1 + (b + 1))%Z with a by lia.
      rewrite (pow2_Z a Ha0). rewrite <- Zle_Qle. exact Ha1. }
  assert (Hup : Qabs (n # d) < pow2 (a - b + 1)).
  { rewrite Habs. apply Qlt_shift_div_r; [exact Hd |].
    apply Qlt_le_trans with (pow2 (a + 1)).
    - rewrite (pow2_Z (a + 1)) by lia. rewrite <- Zlt_Qlt. replace (a + 1)%Z with (Z.succ a) by lia. exact Ha2.
    - replace (a + 1)%Z with (a - b + 1 + b)%Z by lia. rewrite pow2_add.
      apply Qmult_le_l; [apply pow2_pos |].
      rewrite (pow2_Z b Hb0). rewrite <- Zle_Qle. exact Hb1. }
  destruct (Qle_bool (pow2 (a - b)) (Qabs (n # d))) eqn:E.
  - apply Qle_bool_iff in E. split; assumption.
  - split.
    + apply Qlt_le_weak. exact Hlow.
    + replace (a - b - 1 + 1)%Z with (a - b)%Z by lia.
      apply Qnot_le_lt. intros H. apply Qle_bool_iff in H. congruence.
Qed.


Lemma b64_zero q : q == 0 -> b64 q = 0.
Proof. intros H. unfold b64. rewrite (Qeq_eq_bool _ _ H). reflexivity. Qed.




(** An integer of magnitude below [2 ^ 53] is a binary64 number. *)
Lemma b64_int n : (Z.abs n < 2 ^ 53)%Z -> b64 (inject_Z n) == inject_Z n.
Proof.
  intros Hn. unfold b64. destruct (Qeq_bool (inject_Z n) 0) eqn:E.
  { apply Qeq_bool_iff in E. rewrite E. reflexivity. }
  apply Qeq_bool_neq in E. destruct (ilog2_spec _ E) as [Hlo Hhi].
  set (l := ilog2 (inject_Z n)) in *.
  assert (Habs : Qabs (inject_Z n) == inject_Z (Z.abs n)) by reflexivity.
  assert (Hn1 : (1 <= Z.abs n)%Z).
  { assert (n <> 0%Z); [| lia]. intros ->. apply E. reflexivity. }
  assert (Hl0 : (0 <= l)%Z).
  { destruct (Z.le_gt_cases 0 l) as [H | H]; [exact H |]. exfalso.
    assert (pow2 (l + 1) <= pow2 0) by (apply pow2_le; lia).
    change (pow2 0) with 1 in H0. rewrite Habs in Hhi.
    change 1 with (inject_Z 1) in H0. rewrite Zle_Qle in Hn1. lra. }
  assert (Hl52 : (l <= 52)%Z).
  { destruct (Z.le_gt_cases l 52) as [H | H]; [exact H |]. exfalso.
    assert (pow2 53 <= pow2 l) by (apply pow2_le; lia).
    rewrite Habs in Hlo. rewrite Zlt_Qlt in Hn. rewrite (pow2_Z 53) in H0 by lia. lra. }
  rewrite Z.max_l by lia.
  set (k := (n * 2 ^ (52 - l))%Z).
  assert (Hk : inject_Z n / pow2 (l - 52) == inject_Z k).
  { unfold k. rewrite inject_Z_mult, <- (pow2_Z (52 - l)) by lia.
    replace (52 - l)%Z with (- (l - 52))%Z by lia. unfold pow2. rewrite Qpower_opp.
    field. apply Qpower_not_0. discriminate. }
  rewrite (round_half_even_comp _ _ Hk), round_half_even_Z, <- Hk.
  field. apply Qpower_not_0. discriminate.
Qed.



End Binary64.

(** ** The duration parser on well-formed texts *)

Section DurationFacts.
Import PyStr PyNum DurationText Duration.

(** The characters that may follow the hour segment, and those that may
    follow the minute segment. *)
Let after_h (c : ascii) : bool :=
  isdecimal c || Ascii.eqb c "." || Ascii.eqb c "m" || Ascii.eqb c "s".
Let after_m (c : ascii) : bool :=
  isdecimal c || Ascii.eqb c "." || Ascii.eqb c "s".

Ltac by_cases c := destruct c as [[] [] [] [] [] [] [] []]; vm_compute; intuition congruence.


Lemma after_m_char c :
  after_m c = true -> Ascii.eqb "m" c = false /\ isspace c = false /\ after_h c = true.
Proof. by_cases c. Qed.

Lemma isdecimal_after_m c : isdecimal c = true -> after_m c = true.
Proof. by_cases c. Qed.

Lemma forallb_impl (p q : ascii -> bool) s :
  (forall c, p c = true -> q c = true) -> forallb p s = true -> forallb q s = true.
Proof.
  intros Hpq. induction s as [|c s IH]; simpl; [reflexivity |].
  intros [Hc Hs]%andb_true_iff. rewrite (Hpq c Hc), (IH Hs). reflexivity.
Qed.

Lemma forallb_no_space (p : ascii -> bool) s :
  (forall c, p c = true -> isspace c = false) ->
  forallb p s = true -> existsb isspace s = false.
Proof.
  intros Hp. induction s as [|c s IH]; simpl; [reflexivity |].
  intros [Hc Hs]%andb_true_iff. rewrite (Hp c Hc), (IH Hs). reflexivity.
Qed.

Lemma seconds_text_after_m l :
  seconds_ok (Some l) = true -> forallb after_m (seconds_text l) = true.
Proof.
  destruct l as [ip | ip fp]; simpl.
  - intros H%all_digits_forallb. revert H. apply forallb_impl, isdecimal_after_m.
  - intros [[Hi Hf]%andb_true_iff _]%andb_true_iff.
    rewrite forallb_app. simpl.
    rewrite (forallb_impl _ _ _ isdecimal_after_m Hi).
    rewrite (forallb_impl _ _ _ isdecimal_after_m Hf). reflexivity.
Qed.



(** One of the two integer segments: the text begins with the segment
    of letter [c] (or without it) and goes on with [rest]. *)
Lemma int_stage (c : ascii) (o : option str) (rest : str) :
  isdecimal c = false ->
  int_ok o = true ->
  has_char c rest = false ->
  existsb isspace rest = false ->
  (if contains [c] (marked o c ++ rest)
   then
     h0 ← @getitem str (split [c] (marked o c ++ rest)) 0;
     hours ← py_int (strip h0);
     h1 ← @getitem str (split [c] (marked o c ++ rest)) 1;
     @mret result _ (Z * str) (hours, strip h1)
   else @mret result _ (Z * str) (0, marked o c ++ rest)) = Ok (int_value o, rest).
Proof.
  intros Hc Ho Hrest Hsp. rewrite contains_single.
  destruct o as [ds |]; simpl in *.
  - assert (Hds : has_char c ds = false).
    { apply (has_char_absent isdecimal); [| apply all_digits_forallb, Ho].
      intros d Hd. destruct (Ascii.eqb_spec c d); [congruence | reflexivity]. }
    rewrite <- app_assoc. simpl.
    rewrite has_char_app, Hds. simpl. rewrite Ascii.eqb_refl. simpl.
    unfold split. rewrite (split_at_first c [] ds rest Hds), (split_absent c [] rest Hrest).
    simpl. unfold mbind, result_bind, mret, result_ret.
    rewrite (strip_no_space ds) by apply digits_no_space, all_digits_forallb, Ho.
    rewrite (py_int_digits ds Ho), (strip_no_space rest Hsp). reflexivity.
  - rewrite Hrest. reflexivity.
Qed.

Lemma digits_val_acc acc s :
  digits_val acc s = acc * 10 ^ Z.of_nat (length s) + digits_val 0 s.
Proof.
  revert acc. induction s as [|c s IH]; intros acc; simpl digits_val.
  - simpl. lia.
  - rewrite (IH (10 * acc + digit_val c)), (IH (10 * 0 + digit_val c)).
    change (length (c :: s)) with (S (length s)).
    rewrite Nat2Z.inj_succ, Z.pow_succ_r by lia. ring.
Qed.

Lemma digits_val_app a b :
  digits_val 0 (a ++ b) = digits_val 0 a * 10 ^ Z.of_nat (length b) + digits_val 0 b.
Proof.
  assert (H : forall acc, digits_val acc (a ++ b) = digits_val (digits_val acc a) b).
  { induction a as [|c a IH]; intros acc; simpl; [reflexivity | apply IH]. }
  rewrite H. apply digits_val_acc.
Qed.

Lemma py_float_seconds l :
  seconds_ok (Some l) = true ->
  exists q, py_float (seconds_text l) = Ok q /\ (q == seconds_value (Some l))%Q.
Proof.
  intros Hok.
  assert (Hsp : numstrip (seconds_text l) = seconds_text l).
  { apply numstrip_no_space, (forallb_no_space after_m); [| apply seconds_text_after_m, Hok].
    intros c Hc. apply after_m_char, Hc. }
  unfold py_float. rewrite Hsp.
  destruct l as [ip | ip fp]; simpl in *.
  - destruct ip as [|c ip]; [discriminate |].
    rewrite split_sign_digit by (simpl in Hok; apply andb_true_iff in Hok; tauto).
    rewrite (takewhile_all _ _ Hok), (dropwhile_all _ _ Hok).
    rewrite Hok. eexists. split; [reflexivity |]. rewrite app_nil_r.
    change (inject_Z (10 ^ Z.of_nat 0)) with 1%Q. field.
  - apply andb_true_iff in Hok as [[Hi Hf]%andb_true_iff Hne].
    assert (Hsign : split_sign (ip ++ "."%char :: fp) = (false, ip ++ "."%char :: fp)).
    { destruct ip as [|c ip]; [reflexivity |].
      apply split_sign_digit. simpl in Hi. apply andb_true_iff in Hi. tauto. }
    rewrite Hsign, (takewhile_app _ ip "." fp Hi eq_refl), (dropwhile_app _ ip "." fp Hi eq_refl).
    rewrite Hf, Hne. simpl. eexists. split; [reflexivity |].
    rewrite digits_val_app, inject_Z_plus, inject_Z_mult.
    assert (Hpos : ~ (inject_Z (10 ^ Z.of_nat (length fp)) == 0)%Q).
    { intros H. unfold Qeq in H. simpl in H. assert (0 < 10 ^ Z.of_nat (length fp)) by (apply Z.pow_pos_nonneg; lia). lia. }
    field. exact Hpos.
Qed.

End DurationFacts.

Section DurationSpec.
Import PyStr PyNum DurationText Duration.





Lemma digits_val_nonneg s : forall acc,
  forallb isdecimal s = true -> 0 <= acc -> 0 <= digits_val acc s.
Proof.
  induction s as [|c s IH]; intros acc Hs Hacc; simpl; [exact Hacc |].
  simpl in Hs. apply andb_true_iff in Hs as [Hc Hs]. apply IH; [exact Hs |].
  assert (0 <= digit_val c); [| lia].
  destruct c as [[] [] [] [] [] [] [] []]; vm_compute in Hc |- *; congruence.
Qed.










End DurationSpec.




(** ** The fixed-CPUs accounting report *)

Section FixedCpusFacts.
Import PyStr PyNum FixedCpus.




End FixedCpusFacts.





(** ** The utilization-weighted report *)



(** ** The memory formatter *)

Section MemoryFacts.
Import PyStr PyNum FixedCpus MemoryText.

Lemma takewhile_dropwhile (p : ascii -> bool) s : takewhile p s ++ dropwhile p s = s.
Proof.
  induction s as [|c s IH]; simpl; [reflexivity |].
  destruct (p c); simpl; [rewrite IH |]; reflexivity.
Qed.

Lemma forallb_takewhile (p : ascii -> bool) s : forallb p (takewhile p s) = true.
Proof.
  induction s as [|c s IH]; simpl; [reflexivity |].
  destruct (p c) eqn:Hc; simpl; [rewrite Hc, IH |]; reflexivity.
Qed.

Lemma take_takewhile (p : ascii -> bool) n s :
  (n <= length (takewhile p s))%nat -> take n s = take n (takewhile p s).
Proof.
  intros Hn. rewrite <- (takewhile_dropwhile p s) at 1. apply take_app_le, Hn.
Qed.

Lemma forallb_take (p : ascii -> bool) n s :
  forallb p s = true -> forallb p (take n s) = true.
Proof.
  revert n. induction s as [|c s IH]; intros [|n]; simpl; try reflexivity.
  intros [-> Hs]%andb_true_iff. apply IH, Hs.
Qed.

Lemma takewhile_prefix (p : ascii -> bool) a b :
  forallb p a = true -> (length a <= length (takewhile p (a ++ b)))%nat.
Proof.
  induction a as [|c a IH]; simpl; [lia |].
  intros [-> Ha]%andb_true_iff. simpl. specialize (IH Ha). lia.
Qed.

Lemma takewhile_stop (p : ascii -> bool) a c b :
  forallb p a = true -> p c = false -> takewhile p (a ++ c :: b) = a.
Proof.
  intros Ha Hc. induction a as [|d a IH]; simpl in *; [rewrite Hc; reflexivity |].
  apply andb_true_iff in Ha as [-> Ha]. rewrite (IH Ha). reflexivity.
Qed.

Lemma isword_not_space c : isword c = true -> isspace c = false.
Proof. destruct c as [[] [] [] [] [] [] [] []]; vm_compute; congruence. Qed.

Lemma match_unit_some rest u :
  match_unit rest = Some u ->
  u <> [] /\ forallb isword u = true /\ rest = u ++ dropwhile isword rest.
Proof.
  unfold match_unit. pose proof (forallb_takewhile isword rest) as Hall.
  pose proof (takewhile_dropwhile isword rest) as Hsplit.
  destruct (takewhile isword rest) as [|c w]; [discriminate |].
  intros [= <-]. split; [discriminate |]. split; [exact Hall | symmetry; exact Hsplit].
Qed.

Lemma match_unit_word c rest : isword c = true -> match_unit (c :: rest) <> None.
Proof. intros Hc. unfold match_unit. simpl. rewrite Hc. discriminate. Qed.

Lemma match_spaces_some k rest u :
  match_spaces k rest = Some u ->
  exists k', (k' <= k)%nat /\ match_unit (drop k' rest) = Some u.
Proof.
  induction k as [|k IH]; simpl; destruct (match_unit (drop _ rest)) as [u' |] eqn:Hu.
  - intros [= <-]. exists 0%nat. split; [lia | exact Hu].
  - discriminate.
  - intros [= <-]. exists (S k). split; [lia | exact Hu].
  - intros H. destruct (IH H) as (k' & Hk' & Hm). exists k'. split; [lia | exact Hm].
Qed.

Lemma match_spaces_first k rest :
  match_unit (drop k rest) <> None -> match_spaces k rest <> None.
Proof.
  destruct k; simpl; destruct (match_unit _); congruence.
Qed.

Lemma match_value_some n s v u :
  match_value n s = Some (v, u) ->
  exists n' k',
    (1 <= n' <= n)%nat /\ v = take n' s
    /\ (k' <= length (takewhile isspace (drop n' s)))%nat
    /\ match_unit (drop k' (drop n' s)) = Some u.
Proof.
  induction n as [|n IH]; simpl; [discriminate |].
  destruct (match_spaces _ _) as [u' |] eqn:Hsp.
  - intros [= <- <-]. apply match_spaces_some in Hsp as (k' & Hk' & Hm).
    exists (S n), k'. repeat split; try lia; assumption.
  - intros H. destruct (IH H) as (n' & k' & Hn' & Hv & Hk' & Hm).
    exists n', k'. repeat split; try lia; assumption.
Qed.

Lemma match_value_reaches n m s :
  (1 <= m <= n)%nat ->
  match_spaces (length (takewhile isspace (drop m s))) (drop m s) <> None ->
  match_value n s <> None.
Proof.
  intros Hm Hsp. induction n as [|n IH]; [lia |].
  simpl. destruct (Nat.eq_dec m (S n)) as [-> |].
  - destruct (match_spaces _ (drop (S n) s)) eqn:E; [congruence | contradiction].
  - destruct (match_spaces _ (drop (S n) s)) eqn:E; [congruence | apply IH; lia].
Qed.

(** What the matcher finds has the specified shape. *)
Lemma re_match_memory_sound s v u :
  re_match_memory s = Some (v, u) -> exists sp rest, shape s v sp u rest.
Proof.
  unfold re_match_memory. intros H.
  apply match_value_some in H as (n & k & Hn & -> & Hk & Hm).
  apply match_unit_some in Hm as (Hu & Hw & Hrest).
  exists (take k (drop n s)), (dropwhile isword (drop k (drop n s))).
  unfold shape. repeat split.
  - rewrite <- Hrest, (take_drop k), (take_drop n). reflexivity.
  - intros Hnil. apply take_nil_inv in Hnil as [-> | ->]; [lia |]. simpl in Hn. lia.
  - rewrite (take_takewhile isvalue) by lia. apply forallb_take, forallb_takewhile.
  - rewrite (take_takewhile isspace) by lia. apply forallb_take, forallb_takewhile.
  - exact Hu.
  - exact Hw.
Qed.

(** A text of the specified shape is matched. *)
Lemma re_match_memory_complete s : matches s -> re_match_memory s <> None.
Proof.
  intros (v & sp & u & rest & -> & Hv & Hvall & Hsp & Hu & Hw).
  unfold re_match_memory.
  apply (match_value_reaches _ (length v)).
  - split; [destruct v; [congruence | simpl; lia] |]. apply takewhile_prefix, Hvall.
  - rewrite drop_app_length.
    destruct u as [|c u]; [congruence |]. simpl in Hw. apply andb_true_iff in Hw as [Hc Hw].
    assert (Htw : takewhile isspace (sp ++ (c :: u) ++ rest) = sp).
    { apply takewhile_stop; [exact Hsp | apply isword_not_space, Hc]. }
    rewrite Htw. apply match_spaces_first. rewrite drop_app_length.
    apply match_unit_word, Hc.
Qed.

Lemma dropwhile_nil_iff (p : ascii -> bool) s : dropwhile p s = [] <-> forallb p s = true.
Proof.
  induction s as [|c s IH]; simpl; [tauto |].
  destruct (p c); simpl; [exact IH |]. split; discriminate.
Qed.

Lemma dropwhile_stuck (p : ascii -> bool) s :
  forallb p (dropwhile p s) = true -> forallb p s = true.
Proof.
  induction s as [|c s IH]; simpl; [trivial |].
  destruct (p c) eqn:Hc; simpl; [exact IH |]. rewrite Hc. discriminate.
Qed.

Lemma forallb_rev (p : ascii -> bool) s : forallb p (rev s) = forallb p s.
Proof.
  induction s as [|c s IH]; simpl; [reflexivity |].
  rewrite forallb_app, IH. simpl. rewrite andb_true_r. apply andb_comm.
Qed.

Lemma strip_nil_iff s : strip s = [] <-> whitespace_only s = true.
Proof.
  unfold strip, rstrip, lstrip, whitespace_only. split.
  - intros H. apply (f_equal (@rev ascii)) in H. rewrite rev_involutive in H. simpl in H.
    apply dropwhile_nil_iff in H. rewrite forallb_rev in H. apply dropwhile_stuck, H.
  - intros H. apply dropwhile_nil_iff in H. rewrite H. reflexivity.
Qed.

Lemma format_memory_cases s :
  (whitespace_only s = true /\ format_memory s = lit "N/A")
  \/ (whitespace_only s = false /\
      exists v sp u rest, shape s v sp u rest /\ format_memory s = v ++ lit " " ++ u)
  \/ (whitespace_only s = false /\ ~ matches s /\ format_memory s = s).
Proof.
  unfold format_memory. destruct (strip s) as [|c t] eqn:Hstrip.
  - left. split; [apply strip_nil_iff, Hstrip | reflexivity].
  - right.
    assert (Hws : whitespace_only s = false).
    { destruct (whitespace_only s) eqn:E; [| reflexivity].
      apply strip_nil_iff in E. congruence. }
    destruct (re_match_memory s) as [[v u] |] eqn:Hm.
    + left. split; [exact Hws |].
      destruct (re_match_memory_sound s v u Hm) as (sp & rest & Hshape).
      exists v, sp, u, rest. split; [exact Hshape | reflexivity].
    + right. split; [exact Hws |]. split; [| reflexivity].
      intros Hmatch. exact (re_match_memory_complete s Hmatch Hm).
Qed.

End MemoryFacts.

Section MemorySpec.
Import PyStr PyNum FixedCpus MemoryText.

Lemma format_memory_value_head s v sp u rest :
  shape s v sp u rest -> v ++ lit " " ++ u <> lit "N/A".
Proof.
  intros (_ & Hv & Hvall & _). destruct v as [|c v]; [congruence |].
  simpl in Hvall. apply andb_true_iff in Hvall as [Hc _].
  intros [= -> _]. discriminate Hc.
Qed.

End MemorySpec.

Section MemoryLetters.
Import PyStr PyNum FixedCpus MemoryText.

Lemma isletter_class c :
  isletter c = true -> isword c = true /\ isvalue c = false /\ isspace c = false.
Proof. destruct c as [[] [] [] [] [] [] [] []]; vm_compute; intuition congruence. Qed.

Lemma isspace_not_value c : isspace c = true -> isvalue c = false.
Proof. destruct c as [[] [] [] [] [] [] [] []]; vm_compute; congruence. Qed.

Lemma takewhile_ends (p : ascii -> bool) a b :
  forallb p a = true ->
  match b with [] => True | c :: _ => p c = false end ->
  takewhile p (a ++ b) = a.
Proof.
  intros Ha Hb. destruct b as [|c b].
  - rewrite app_nil_r. apply takewhile_all, Ha.
  - apply takewhile_stop; assumption.
Qed.

Lemma match_spaces_here k rest u :
  match_unit (drop k rest) = Some u -> match_spaces k rest = Some u.
Proof. intros H. destruct k; simpl; rewrite H; reflexivity. Qed.

(** The matcher on a text with a reading: it finds that value and that
    unit. *)
Lemma re_match_memory_reading s v sp u rest :
  reading s v sp u rest -> re_match_memory s = Some (v, u).
Proof.
  intros (-> & Hv & Hvall & Hsp & Hu & Hlet & Hend).
  destruct u as [|c u]; [congruence |].
  simpl in Hlet. apply andb_true_iff in Hlet as [Hc Hlet].
  destruct (isletter_class c Hc) as (Hcw & Hcv & Hcs).
  assert (Hword : forallb isword (c :: u) = true).
  { simpl. rewrite Hcw. simpl. apply forallb_forall. intros x Hx.
    apply isletter_class. revert x Hx. apply forallb_forall, Hlet. }
  assert (Hhead : takewhile isvalue (v ++ sp ++ (c :: u) ++ rest) = v).
  { apply takewhile_ends; [exact Hvall |].
    destruct sp as [|x sp]; simpl.
    - exact Hcv.
    - simpl in Hsp. apply andb_true_iff in Hsp as [Hx _]. apply isspace_not_value, Hx. }
  assert (Hunit : match_unit (c :: u ++ rest) = Some (c :: u)).
  { unfold match_unit. change (c :: u ++ rest) with ((c :: u) ++ rest).
    rewrite takewhile_ends; [reflexivity | exact Hword |].
    destruct rest as [|y rest]; [exact I |]. simpl in Hend.
    destruct (isword y); [discriminate | reflexivity]. }
  unfold re_match_memory. rewrite Hhead.
  destruct (length v) as [|n] eqn:Hn; [destruct v; [congruence | discriminate] |].
  cbn [match_value]. rewrite <- Hn.
  rewrite drop_app_length, take_app_length.
  change ((c :: u) ++ rest) with (c :: (u ++ rest)).
  rewrite (takewhile_stop isspace sp c (u ++ rest) Hsp Hcs).
  assert (Hsps : match_spaces (length sp) (sp ++ c :: u ++ rest) = Some (c :: u)).
  { apply match_spaces_here. rewrite drop_app_length. exact Hunit. }
  rewrite Hsps. reflexivity.
Qed.

Lemma re_match_memory_no_start s : numeric_start s = false -> re_match_memory s = None.
Proof.
  unfold re_match_memory. destruct s as [|c s]; [reflexivity |].
  simpl. intros ->. reflexivity.
Qed.

Lemma not_blank_value_start s : numeric_start s = true -> whitespace_only s = false.
Proof.
  destruct s as [|c s]; [discriminate |]. simpl. intros Hc.
  destruct (isspace c) eqn:E; [| reflexivity].
  apply isspace_not_value in E. congruence.
Qed.

End MemoryLetters.

(** A bare number is read as a value and a unit, because the last group
    of the pattern takes digits as well as letters. *)
Example format_memory_bare_number : FixedCpus.format_memory (lit "512") = lit "51 2".
Proof. reflexivity. Qed.

(** C4, as the code has it.  [format_memory] returns ['N/A'] on an empty or
    white-space-only input.  On an input that begins with a numeric value
    (digits and points), optional white space and a unit token of letters
    (ending where the input ends or where a character that is no letter,
    digit or underscore follows) it returns that value and that unit
    joined by one space.  An input that is not white space only and does
    not begin with a digit or a point is returned unchanged.  So the
    result is ['N/A'] exactly when the input is empty, white space only,
    or the text ['N/A'] itself.  The function is total: every input has a
    result, none raises. *)
Theorem format_memory_spec (s : str) :
  (MemoryText.whitespace_only s = true -> FixedCpus.format_memory s = lit "N/A")
  /\ (forall value spaces unit rest : str,
        MemoryText.reading s value spaces unit rest ->
        FixedCpus.format_memory s = value ++ lit " " ++ unit)
  /\ (MemoryText.whitespace_only s = false -> MemoryText.numeric_start s = false ->
      FixedCpus.format_memory s = s)
  /\ (FixedCpus.format_memory s = lit "N/A" <->
      MemoryText.whitespace_only s = true \/ s = lit "N/A")
  /\ FixedCpus.format_memory [] = lit "N/A"
  /\ FixedCpus.format_memory (lit "   ") = lit "N/A"
  /\ FixedCpus.format_memory (lit "512.5MB") = lit "512.5 MB"
  /\ FixedCpus.format_memory (lit "12 GiB") = lit "12 GiB"
  /\ FixedCpus.format_memory (lit "garbled!!") = lit "garbled!!".
Proof.
  split; [| split; [| split; [| split]]].
  - intros Hw. destruct (format_memory_cases s) as [[_ H] | [[H _] | [H _]]]; congruence.
  - intros v sp u rest Hr. unfold FixedCpus.format_memory.
    rewrite (re_match_memory_reading s v sp u rest Hr).
    destruct (PyStr.strip s) as [|c t] eqn:E; [| reflexivity].
    apply strip_nil_iff in E. destruct Hr as (-> & Hv & Hvall & _).
    destruct v as [|x v]; [congruence |].
    rewrite (not_blank_value_start ((x :: v) ++ sp ++ u ++ rest)) in E; [discriminate |].
    simpl in Hvall |- *. apply andb_true_iff in Hvall. tauto.
  - intros Hw Hn. unfold FixedCpus.format_memory.
    rewrite (re_match_memory_no_start s Hn).
    destruct (PyStr.strip s) as [|c t] eqn:E; [| reflexivity].
    apply strip_nil_iff in E. congruence.
  - split.
    + intros HNA. destruct (format_memory_cases s) as [[H _] | [[_ H] | [_ [_ H]]]].
      * left. exact H.
      * destruct H as (v & sp & u & rest & Hshape & Hf).
        destruct (format_memory_value_head s v sp u rest Hshape). congruence.
      * right. congruence.
    + intros [Hw | ->]; [| reflexivity].
      destruct (format_memory_cases s) as [[_ H] | [[H _] | [H _]]]; congruence.
  - repeat split; reflexivity.
Qed.

(** ["0.5  GB peak"] is the value [0.5], two blanks, the unit [GB] and a
    rest that begins with a blank; ["n/a"] begins with a letter. *)
Lemma format_memory_spec_witness :
  FixedCpus.format_memory (lit "0.5  GB peak") = lit "0.5 GB"
  /\ FixedCpus.format_memory (lit "n/a") = lit "n/a".
Proof.
  split.
  - apply (proj1 (proj2 (format_memory_spec (lit "0.5  GB peak")))
             (lit "0.5") (lit "  ") (lit "GB") (lit " peak")).
    unfold MemoryText.reading. repeat split; discriminate.
  - apply (proj1 (proj2 (proj2 (format_memory_spec (lit "n/a"))))); reflexivity.
Defined.

(** C4, as it is stated, fails: the input ['N/A'] is neither empty nor white
    space, and [format_memory] returns ['N/A'] on it. *)
Lemma format_memory_sentinel_not_exact :
  ~ (forall s : str,
        FixedCpus.format_memory s = lit "N/A" <-> MemoryText.whitespace_only s = true).
Proof.
  intros H. specialize (H (lit "N/A")). destruct H as [H _].
  specialize (H eq_refl). discriminate H.
Qed.

(** ** [replace] and the filling of a template *)

Section ReplaceFacts.
Import PyStr.
Variables old new : str.
Hypothesis Hold : old <> [].

Lemma startswith_nil : startswith old [] = false.
Proof. destruct old; [congruence | reflexivity]. Qed.

Lemma startswith_length (p s : str) : startswith p s = true -> (length p <= length s)%nat.
Proof.
  revert s. induction p as [|c p IH]; intros [|d s]; simpl; try lia; try discriminate.
  intros [_ H]%andb_true_iff. specialize (IH s H). lia.
Qed.

Lemma startswith_split (p s : str) : startswith p s = true -> s = p ++ drop (length p) s.
Proof.
  revert s. induction p as [|c p IH]; intros [|d s]; simpl; try reflexivity; try discriminate.
  intros [Hc H]%andb_true_iff. apply Ascii.eqb_eq in Hc as ->. f_equal. apply IH, H.
Qed.

Lemma startswith_app (p x : str) : startswith p (p ++ x) = true.
Proof. induction p as [|c p IH]; simpl; [reflexivity |]. rewrite Ascii.eqb_refl. exact IH. Qed.

Lemma replace_go_fuel f1 : forall f2 s,
  (length s <= f1)%nat -> (length s <= f2)%nat ->
  replace_go f1 old new s = replace_go f2 old new s.
Proof.
  induction f1 as [|f1 IH]; intros [|f2] s H1 H2; simpl.
  - reflexivity.
  - destruct s; [| simpl in H1; lia]. rewrite startswith_nil. reflexivity.
  - destruct s; [| simpl in H2; lia]. rewrite startswith_nil. reflexivity.
  - destruct (startswith old s) eqn:E.
    + f_equal. apply startswith_length in E.
      assert (0 < length old)%nat by (destruct old; [congruence | simpl; lia]).
      apply IH; rewrite length_drop; lia.
    + destruct s as [|c s]; [reflexivity |]. simpl in H1, H2. f_equal. apply IH; lia.
Qed.

Lemma replace_unfold s :
  replace old new s =
  if startswith old s then new ++ replace old new (drop (length old) s)
  else match s with
       | [] => []
       | c :: s' => c :: replace old new s'
       end.
Proof.
  assert (Hr : forall x, replace old new x = replace_go (length x) old new x).
  { intros x. unfold replace. destruct old; [congruence | reflexivity]. }
  assert (Hlen : (0 < length old)%nat) by (destruct old; [congruence | simpl; lia]).
  rewrite !Hr. destruct s as [|c s'].
  - simpl. rewrite startswith_nil. reflexivity.
  - simpl replace_go. destruct (startswith old (c :: s')) eqn:E.
    + f_equal. apply replace_go_fuel; [| lia].
      apply startswith_length in E. rewrite length_drop. simpl in *. lia.
    + rewrite Hr. reflexivity.
Qed.

(** A stretch without the first character of [old] is passed over. *)
Lemma replace_skip (h : ascii) (o x y : str) :
  old = h :: o ->
  forallb (fun c => negb (Ascii.eqb h c)) x = true ->
  replace old new (x ++ y) = x ++ replace old new y.
Proof.
  intros Eo. induction x as [|c x IH]; simpl; [reflexivity |].
  intros [Hc Hx]%andb_true_iff. rewrite replace_unfold.
  assert (E : startswith old ((c :: x) ++ y) = false).
  { rewrite Eo. simpl. apply negb_true_iff in Hc. rewrite Hc. reflexivity. }
  simpl in E. rewrite E, (IH Hx). reflexivity.
Qed.

End ReplaceFacts.

Section FillFacts.
Import PyStr Template.
#[local] Arguments Ascii.eqb : simpl never.
Variables p1 p2 a b : str.
Let t1 : str := "{"%char :: p1.
Let t2 : str := "{"%char :: p2.
Hypothesis Hp1 : forallb isplain p1 = true.
Hypothesis Hp2 : forallb isplain p2 = true.
Hypothesis Ha : a <> [] /\ forallb isnum a = true.
Hypothesis Hb : b <> [] /\ forallb isnum b = true.

Lemma fill_go_fuel f1 : forall f2 s,
  (length s <= f1)%nat -> (length s <= f2)%nat ->
  fill_go f1 t1 a t2 b s = fill_go f2 t1 a t2 b s.
Proof.
  induction f1 as [|f1 IH]; intros [|f2] s H1 H2; simpl.
  - reflexivity.
  - destruct s; [reflexivity | simpl in H1; lia].
  - destruct s; [reflexivity | simpl in H2; lia].
  - destruct s as [|c s]; [reflexivity |].
    simpl in H1, H2.
    destruct (Ascii.eqb "{" c && startswith p1 s) eqn:E1.
    + f_equal. apply IH; rewrite length_drop; simpl; lia.
    + destruct (Ascii.eqb "{" c && startswith p2 s) eqn:E2.
      * f_equal. apply IH; rewrite length_drop; simpl; lia.
      * f_equal. apply IH; lia.
Qed.

Local Abbreviation fill' := (fill_tokens t1 a t2 b).

Lemma fill_unfold s :
  fill' s =
  if startswith t1 s then a ++ fill' (drop (length t1) s)
  else if startswith t2 s then b ++ fill' (drop (length t2) s)
  else match s with
       | [] => []
       | c :: s' => c :: fill' s'
       end.
Proof.
  unfold fill_tokens. destruct s as [|c s]; [reflexivity |].
  simpl fill_go. simpl startswith.
  destruct (Ascii.eqb "{" c && startswith p1 s) eqn:E1.
  - f_equal. apply fill_go_fuel; [| lia]. rewrite length_drop. simpl. lia.
  - destruct (Ascii.eqb "{" c && startswith p2 s) eqn:E2; [| reflexivity].
    f_equal. apply fill_go_fuel; [| lia]. rewrite length_drop. simpl. lia.
Qed.

Lemma isnum_not_plain c d : isnum c = true -> isplain d = true -> Ascii.eqb d c = false.
Proof.
  intros Hc Hd. destruct (Ascii.eqb_spec d c) as [-> |]; [| reflexivity].
  unfold isplain in Hd. rewrite Hc in Hd. rewrite andb_false_r in Hd. discriminate.
Qed.

Lemma isnum_not_brace x :
  forallb isnum x = true -> forallb (fun c => negb (Ascii.eqb "{" c)) x = true.
Proof.
  induction x as [|c x IH]; simpl; [reflexivity |].
  intros [Hc Hx]%andb_true_iff. rewrite (IH Hx), andb_true_r.
  destruct (Ascii.eqb_spec "{" c) as [<- |]; [discriminate Hc | reflexivity].
Qed.

Lemma isplain_not_brace x :
  forallb isplain x = true -> forallb (fun c => negb (Ascii.eqb "{" c)) x = true.
Proof.
  induction x as [|c x IH]; simpl; [reflexivity |].
  intros [Hc Hx]%andb_true_iff. rewrite (IH Hx), andb_true_r.
  destruct (Ascii.eqb_spec "{" c) as [<- |]; [discriminate Hc | reflexivity].
Qed.

(** A plain prefix of the text after the first replacement was a prefix
    before it. *)
Lemma startswith_replace (p : str) : forall s,
  forallb isplain p = true ->
  startswith p (replace t1 a s) = true -> startswith p s = true.
Proof.
  induction p as [|x p IH]; intros s Hp; [reflexivity |].
  simpl in Hp. apply andb_true_iff in Hp as [Hx Hp].
  rewrite (replace_unfold t1 a) by discriminate.
  destruct (startswith t1 s) eqn:E.
  - destruct Ha as [Hne Hnum]. destruct a as [|a0 a']; [congruence |].
    simpl in Hnum. apply andb_true_iff in Hnum as [Ha0 _].
    simpl. rewrite (isnum_not_plain a0 x Ha0 Hx). discriminate.
  - destruct s as [|d s]; [discriminate |]. simpl.
    intros [-> H]%andb_true_iff. simpl. apply IH; assumption.
Qed.

Lemma startswith_fill (p : str) : forall s,
  forallb isplain p = true ->
  startswith p (fill' s) = true -> startswith p s = true.
Proof.
  induction p as [|x p IH]; intros s Hp; [reflexivity |].
  simpl in Hp. apply andb_true_iff in Hp as [Hx Hp].
  rewrite fill_unfold.
  destruct (startswith t1 s) eqn:E1; [| destruct (startswith t2 s) eqn:E2].
  - destruct Ha as [Hne Hall]. destruct a as [|a0 a']; [congruence |].
    simpl in Hall. apply andb_true_iff in Hall as [Ha0 _].
    simpl. rewrite (isnum_not_plain a0 x Ha0 Hx). discriminate.
  - destruct Hb as [Hne Hall]. destruct b as [|b0 b']; [congruence |].
    simpl in Hall. apply andb_true_iff in Hall as [Hb0 _].
    simpl. rewrite (isnum_not_plain b0 x Hb0 Hx). discriminate.
  - destruct s as [|d s]; [discriminate |]. simpl.
    intros [-> H]%andb_true_iff. simpl. apply IH; assumption.
Qed.

(** The two replacements in a row do what one pass over the template
    does. *)
Lemma replace_twice_fill n : forall s,
  (length s <= n)%nat ->
  replace t2 b (replace t1 a s) = fill' s.
Proof.
  induction n as [|n IH]; intros s Hn.
  { destruct s; [reflexivity | simpl in Hn; lia]. }
  rewrite (replace_unfold t1 a) by discriminate. rewrite fill_unfold.
  destruct (startswith t1 s) eqn:E1.
  - rewrite (replace_skip t2 b ltac:(discriminate) "{" p2 a _ eq_refl
               (isnum_not_brace a (proj2 Ha))).
    f_equal. apply IH. apply startswith_length in E1. rewrite length_drop. simpl in *. lia.
  - destruct (startswith t2 s) eqn:E2.
    + pose proof (startswith_length _ _ E2) as Hlen.
      rewrite (startswith_split _ _ E2) at 1. simpl app. cbv iota.
      rewrite (replace_skip t1 a ltac:(discriminate) "{" p1 p2 _ eq_refl
                 (isplain_not_brace p2 Hp2)).
      rewrite (replace_unfold t2 b) by discriminate.
      change ("{"%char :: p2 ++ ?x) with (t2 ++ x).
      rewrite (startswith_app t2), drop_app_length. f_equal.
      apply IH. rewrite length_drop. simpl in *. lia.
    + destruct s as [|c s]; [reflexivity |].
      rewrite (replace_unfold t2 b) by discriminate.
      destruct (startswith t2 (c :: replace t1 a s)) eqn:E3.
      * simpl in E3. apply andb_true_iff in E3 as [Hc H].
        apply (startswith_replace p2 s Hp2) in H.
        simpl in E2. rewrite Hc, H in E2. discriminate.
      * f_equal. apply IH. simpl in Hn. lia.
Qed.

Lemma contains_skip (h : ascii) (o x y : str) :
  forallb (fun c => negb (Ascii.eqb h c)) x = true ->
  contains (h :: o) (x ++ y) = contains (h :: o) y.
Proof.
  induction x as [|c x IH]; [reflexivity |].
  simpl forallb. intros [Hc Hx]%andb_true_iff.
  change (contains (h :: o) ((c :: x) ++ y))
    with (startswith (h :: o) (c :: x ++ y) || contains (h :: o) (x ++ y)).
  simpl startswith. apply negb_true_iff in Hc. rewrite Hc. simpl. apply IH, Hx.
Qed.

(** No placeholder is left in a filled template. *)
Lemma fill_no_placeholder n : forall s,
  (length s <= n)%nat ->
  contains t1 (fill' s) = false /\ contains t2 (fill' s) = false.
Proof.
  induction n as [|n IH]; intros s Hn.
  { destruct s; [split; reflexivity | simpl in Hn; lia]. }
  rewrite fill_unfold.
  destruct (startswith t1 s) eqn:E1; [| destruct (startswith t2 s) eqn:E2].
  - apply startswith_length in E1.
    unfold t1, t2. rewrite !contains_skip by apply isnum_not_brace, Ha.
    apply IH. rewrite length_drop. simpl in *. lia.
  - apply startswith_length in E2.
    unfold t1, t2. rewrite !contains_skip by apply isnum_not_brace, Hb.
    apply IH. rewrite length_drop. simpl in *. lia.
  - destruct s as [|c s]; [split; reflexivity |].
    destruct (IH s ltac:(simpl in Hn; lia)) as [H1 H2].
    change (contains t1 (c :: fill' s)) with (startswith t1 (c :: fill' s) || contains t1 (fill' s)).
    change (contains t2 (c :: fill' s)) with (startswith t2 (c :: fill' s) || contains t2 (fill' s)).
    rewrite H1, H2, !orb_false_r. simpl in E1, E2 |- *. split.
    + destruct (Ascii.eqb "{" c); [simpl in * | reflexivity].
      destruct (startswith p1 (fill' s)) eqn:E; [| reflexivity].
      apply (startswith_fill p1 s Hp1) in E. congruence.
    + destruct (Ascii.eqb "{" c); [simpl in * | reflexivity].
      destruct (startswith p2 (fill' s)) eqn:E; [| reflexivity].
      apply (startswith_fill p2 s Hp2) in E. congruence.
Qed.

End FillFacts.

(** ** The script generator *)

Section ScriptFacts.
Import PyStr PyNum Template Sweep.

Lemma uint_text_digits (d : Decimal.uint) :
  forallb isnum (list_ascii_of_string (NilEmpty.string_of_uint d)) = true.
Proof. induction d; simpl; try rewrite IHd; reflexivity. Qed.

(** The text of an integer is not empty and made of digits and the minus
    sign. *)
Lemma str_of_Z_numeric (z : Z) : str_of_Z z <> [] /\ forallb isnum (str_of_Z z) = true.
Proof.
  unfold str_of_Z, lit. destruct (Z.to_int z) as [d | d]; simpl.
  - destruct d; simpl; (split; [discriminate |]); try apply uint_text_digits; reflexivity.
  - split; [discriminate |].
    destruct d; simpl; try apply uint_text_digits; reflexivity.
Qed.

Lemma substitute_fill (command : str) (cores num_cpus : Z) :
  substitute command cores num_cpus = fill (str_of_Z cores) (str_of_Z num_cpus) command.
Proof.
  unfold substitute.
  apply (replace_twice_fill (lit "cores}") (lit "cpus}") _ _ eq_refl
           (str_of_Z_numeric cores) (length command) command).
  lia.
Qed.

Lemma fill_clean (command : str) (cores num_cpus : Z) :
  contains (lit "{cores}") (fill (str_of_Z cores) (str_of_Z num_cpus) command) = false
  /\ contains (lit "{cpus}") (fill (str_of_Z cores) (str_of_Z num_cpus) command) = false.
Proof.
  apply (fill_no_placeholder (lit "cores}") (lit "cpus}") _ _ eq_refl eq_refl
           (str_of_Z_numeric cores) (str_of_Z_numeric num_cpus) (length command) command).
  lia.
Qed.

Lemma unlines_app (xs ys : list str) : unlines (xs ++ ys) = unlines xs ++ unlines ys.
Proof. unfold unlines. rewrite map_app, concat_app. reflexivity. Qed.

End ScriptFacts.

(** C8.  For every CPU count and command template [create_slurm_script]
    writes, to the file [slurm_job_<cpu_count>.sh], the script text below
    and returns that file name.  In the text the core count is
    [cpu_count * 64]; the command line is the template with each
    [{cores}] replaced by the core count and each [{cpus}] by the CPU
    count, and no placeholder is left in it; the lines around the command
    take the time before and after it, and the last line writes the
    elapsed seconds to [job-<cpu_count>.time].  With 2 CPUs the
    substitutions are [128] and [2]. *)
Theorem create_slurm_script_spec
    (num_cpus : Z) (command job_name account partition : str) (w : Sweep.World) :
  let cores := num_cpus * 64 in
  let filled := Template.fill (PyNum.str_of_Z cores) (PyNum.str_of_Z num_cpus) command in
  let nl : str := ["010"%char] in
  let dq : str := ["034"%char] in
  let script : str :=
    lit "#!/bin/bash" ++ nl
    ++ lit "#SBATCH --job-name=" ++ job_name ++ nl
    ++ lit "#SBATCH --ntasks=" ++ PyNum.str_of_Z num_cpus ++ nl
    ++ lit "#SBATCH --cpus-per-task=1" ++ nl
    ++ lit "#SBATCH --time=1-00:00:00  # Adjust this as necessary" ++ nl
    ++ lit "#SBATCH --account=" ++ account ++ lit "  # Specify your account" ++ nl
    ++ lit "#SBATCH --partition=" ++ partition ++ lit "  # Specify the partition" ++ nl
    ++ lit "#SBATCH --exclusive" ++ nl
    ++ lit "#SBATCH --output=slurm-%j.out" ++ nl
    ++ lit "#SBATCH --error=slurm-%j.err" ++ nl
    ++ lit "#SBATCH --mem-per-cpu=200GB" ++ nl
    ++ nl
    ++ lit "echo " ++ dq ++ lit "Running on $SLURM_JOB_NODELIST" ++ dq ++ nl
    ++ lit "echo " ++ dq ++ lit "Using " ++ PyNum.str_of_Z num_cpus ++ lit " CPUs and "
       ++ PyNum.str_of_Z cores ++ lit " cores" ++ dq ++ nl
    ++ nl
    ++ lit "# Record start time" ++ nl
    ++ lit "start_time=$(date +%s)" ++ nl
    ++ nl
    ++ lit "# Run the command with the number of cores and output directory" ++ nl
    ++ filled ++ nl
    ++ nl
    ++ lit "# Record end time" ++ nl
    ++ lit "end_time=$(date +%s)" ++ nl
    ++ lit "elapsed_time=$((end_time - start_time))" ++ nl
    ++ nl
    ++ lit "# Write the elapsed time to a file" ++ nl
    ++ lit "echo " ++ dq ++ lit "Elapsed time: $elapsed_time seconds" ++ dq
       ++ lit " > job-" ++ PyNum.str_of_Z num_cpus ++ lit ".time" ++ nl in
  let script_filename := lit "slurm_job_" ++ PyNum.str_of_Z num_cpus ++ lit ".sh" in
  Sweep.create_slurm_script num_cpus command job_name account partition w
  = Sweep.Done script_filename
      {| Sweep.cluster := Sweep.cluster w; Sweep.tick := Sweep.tick w;
         Sweep.files := <[script_filename := script]> (Sweep.files w);
         Sweep.trace := Sweep.trace w ++ [Sweep.WriteFile script_filename script] |}
  /\ filled
     = PyStr.replace (lit "{cpus}") (PyNum.str_of_Z num_cpus)
         (PyStr.replace (lit "{cores}") (PyNum.str_of_Z cores) command)
  /\ PyStr.contains (lit "{cores}") filled = false
  /\ PyStr.contains (lit "{cpus}") filled = false
  /\ Template.fill (PyNum.str_of_Z (2 * 64)) (PyNum.str_of_Z 2)
       (lit "my_tool --consCores {cores} -o output_{cpus}")
     = lit "my_tool --consCores 128 -o output_2"
  /\ (exists script_2 : str,
         Sweep.create_slurm_script 2 (lit "my_tool --consCores {cores} -o output_{cpus}")
           (lit "test_job_2_cpus") (lit "my_account") (lit "my_partition")
           (Sample.start (Sample.steady 0))
         = Sweep.Done (lit "slurm_job_2.sh")
             {| Sweep.cluster := Sample.steady 0; Sweep.tick := 0;
                Sweep.files := {[ lit "slurm_job_2.sh" := script_2 ]};
                Sweep.trace := [Sweep.WriteFile (lit "slurm_job_2.sh") script_2] |}
         /\ PyStr.contains
              (lit "echo " ++ dq ++ lit "Using 2 CPUs and 128 cores" ++ dq ++ nl) script_2
            = true
         /\ PyStr.contains (nl ++ lit "my_tool --consCores 128 -o output_2" ++ nl) script_2
            = true
         /\ PyStr.contains
              (lit "echo " ++ dq ++ lit "Elapsed time: $elapsed_time seconds" ++ dq
               ++ lit " > job-2.time" ++ nl) script_2 = true
         /\ PyStr.contains (lit "{cores}") script_2 = false
         /\ PyStr.contains (lit "{cpus}") script_2 = false).
Proof.
  intros cores filled nl dq script script_filename.
  assert (Hfill : Sweep.substitute command cores num_cpus = filled)
    by apply substitute_fill.
  split.
  { unfold Sweep.create_slurm_script, Sweep.script_content_of.
    fold cores. rewrite Hfill.
    assert (E : Sweep.unlines
                  (Sweep.script_head num_cpus cores job_name account partition
                   ++ [filled] ++ Sweep.script_tail num_cpus) = script).
    { unfold Sweep.unlines, Sweep.script_head, Sweep.script_tail, Sweep.time_filename_of,
        script.
      cbn [map concat app]. fold nl dq.
      repeat rewrite <- app_assoc. reflexivity. }
    rewrite E. reflexivity. }
  split; [symmetry; exact Hfill |].
  split; [apply fill_clean |]. split; [apply fill_clean |].
  split; [vm_compute; reflexivity |].
  eexists. split; [vm_compute; reflexivity |].
  repeat split; vm_compute; reflexivity.
Qed.

(** ** The polling loop *)

Section PollFacts.
Import PyStr PyNum Sweep Run.

Lemma record_record e1 e2 w : record e2 (record e1 w) = record (e1 ++ e2) w.
Proof. unfold record. simpl. rewrite app_assoc. reflexivity. Qed.

Lemma record_nil w : record [] w = w.
Proof. destruct w. unfold record. simpl. rewrite app_nil_r. reflexivity. Qed.

Lemma elapse_record k : forall evs w, elapse k (record evs w) = record evs (elapse k w).
Proof.
  induction k as [|k IH]; intros evs w; [reflexivity |]. simpl.
  exact (IH evs {| cluster := cluster w; tick := S (tick w);
                   files := job_output (cluster w) (tick w) ∪ files w;
                   trace := trace w |}).
Qed.

Lemma elapse_add a : forall b w, elapse b (elapse a w) = elapse (a + b) w.
Proof. induction a as [|a IH]; intros b w; [reflexivity |]. simpl. apply IH. Qed.

Lemma elapse_cluster k : forall w, cluster (elapse k w) = cluster w.
Proof. induction k as [|k IH]; intros w; [reflexivity |]. simpl. rewrite IH. reflexivity. Qed.

Lemma elapse_tick k : forall w, tick (elapse k w) = (tick w + k)%nat.
Proof. induction k as [|k IH]; intros w; [simpl; lia |]. simpl. rewrite IH. simpl. lia. Qed.

Lemma elapse_trace k : forall w, trace (elapse k w) = trace w.
Proof. induction k as [|k IH]; intros w; [reflexivity |]. simpl. rewrite IH. reflexivity. Qed.

(** One [sacct] call. *)
Lemma run_sacct_step job_id w :
  run_sacct job_id w
  = Done (sacct_reply (cluster w) (tick w) job_id) (record [Sacct job_id] (elapse 1 w)).
Proof. reflexivity. Qed.

Lemma sleep_step seconds w : sleep seconds w = Done tt (record [Sleep seconds] (elapse 1 w)).
Proof. reflexivity. Qed.

(** One round of the loop. *)
Lemma wait_step fuel job_id w :
  wait_for_job_completion (S fuel) job_id w =
  if is_terminal (strip (sacct_reply (cluster w) (tick w) job_id))
  then Done tt (record [Sacct job_id] (elapse 1 w))
  else wait_for_job_completion fuel job_id (record [Sacct job_id; Sleep 10] (elapse 2 w)).
Proof.
  cbn [wait_for_job_completion]. unfold mbind at 1, M_bind at 1. rewrite run_sacct_step.
  destruct (is_terminal _); [reflexivity |].
  unfold mbind, M_bind. rewrite sleep_step. f_equal.
  rewrite elapse_record, record_record. reflexivity.
Qed.

End PollFacts.

Section TerminalFacts.
Import PyStr PyNum Sweep Run.
Variable kw : str.
Hypothesis Hne : kw <> [].
Hypothesis Hsolid : forallb (fun c => negb (isspace c)) kw = true.

Lemma startswith_space c s : isspace c = true -> startswith kw (c :: s) = false.
Proof.
  intros Hc. destruct kw as [|k kw']; [congruence |]. simpl in *.
  apply andb_true_iff in Hsolid as [Hk _].
  destruct (Ascii.eqb_spec k c) as [-> |]; [| reflexivity].
  rewrite Hc in Hk. discriminate.
Qed.

Lemma contains_lstrip s : contains kw (lstrip s) = contains kw s.
Proof.
  unfold lstrip. induction s as [|c s IH]; [reflexivity |].
  simpl dropwhile. destruct (isspace c) eqn:Hc; [| reflexivity].
  rewrite IH. change (contains kw (c :: s)) with (startswith kw (c :: s) || contains kw s).
  rewrite (startswith_space c s Hc). reflexivity.
Qed.

Lemma contains_spaces ws : forallb isspace ws = true -> contains kw ws = false.
Proof.
  induction ws as [|c ws IH]; simpl forallb.
  - intros _. simpl. rewrite orb_false_r. destruct kw; [congruence | reflexivity].
  - intros [Hc Hws]%andb_true_iff.
    change (contains kw (c :: ws)) with (startswith kw (c :: ws) || contains kw ws).
    rewrite (startswith_space c ws Hc), (IH Hws). reflexivity.
Qed.

End TerminalFacts.

Section StripFacts.
Import PyStr PyNum Sweep Run.

Lemma startswith_trailing_spaces (k : str) : forall y ws,
  forallb (fun c => negb (isspace c)) k = true ->
  forallb isspace ws = true ->
  startswith k (y ++ ws) = startswith k y.
Proof.
  induction k as [|c k IH]; intros y ws Hk Hws; [reflexivity |].
  simpl in Hk. apply andb_true_iff in Hk as [Hc Hk].
  destruct y as [|d y]; simpl.
  - destruct ws as [|e ws]; [reflexivity |]. simpl in Hws.
    apply andb_true_iff in Hws as [He _].
    destruct (Ascii.eqb_spec c e) as [-> |]; [| reflexivity].
    rewrite He in Hc. discriminate.
  - rewrite (IH y ws Hk Hws). reflexivity.
Qed.

Lemma contains_trailing_spaces (k x ws : str) :
  k <> [] ->
  forallb (fun c => negb (isspace c)) k = true ->
  forallb isspace ws = true ->
  contains k (x ++ ws) = contains k x.
Proof.
  intros Hne Hk Hws. induction x as [|c x IH].
  - simpl app. rewrite (contains_spaces k Hne Hk ws Hws).
    simpl. destruct k; [congruence | reflexivity].
  - change (contains k ((c :: x) ++ ws))
      with (startswith k ((c :: x) ++ ws) || contains k (x ++ ws)).
    rewrite (startswith_trailing_spaces k (c :: x) ws Hk Hws), IH. reflexivity.
Qed.

Lemma rstrip_split s : exists ws, forallb isspace ws = true /\ s = rstrip s ++ ws.
Proof.
  exists (rev (takewhile isspace (rev s))). split.
  - rewrite forallb_rev. apply forallb_takewhile.
  - unfold rstrip. rewrite <- rev_app_distr, takewhile_dropwhile, rev_involutive. reflexivity.
Qed.

Lemma contains_strip (k s : str) :
  k <> [] ->
  forallb (fun c => negb (isspace c)) k = true ->
  contains k (strip s) = contains k s.
Proof.
  intros Hne Hk. unfold strip.
  destruct (rstrip_split (lstrip s)) as (ws & Hws & Hsplit).
  rewrite <- (contains_lstrip k Hne Hk s). rewrite Hsplit at 2.
  rewrite (contains_trailing_spaces k _ ws Hne Hk Hws). reflexivity.
Qed.

(** The test of the loop gives the same answer on what [sacct] printed
    and on its stripped form. *)
Lemma is_terminal_strip out : is_terminal (strip out) = is_terminal out.
Proof.
  unfold is_terminal.
  rewrite !contains_strip by (discriminate || reflexivity). reflexivity.
Qed.

Lemma find_first (P : nat -> bool) (fuel : nat) :
  (forall i, (i < fuel)%nat -> P i = false)
  \/ (exists n, (n < fuel)%nat /\ P n = true /\ forall i, (i < n)%nat -> P i = false).
Proof.
  induction fuel as [|fuel [IH | (n & Hn & Hp & Hfirst)]].
  - left. intros i Hi. lia.
  - destruct (P fuel) eqn:E.
    + right. exists fuel. split; [lia |]. split; [exact E | exact IH].
    + left. intros i Hi. destruct (Nat.eq_dec i fuel) as [-> |]; [exact E | apply IH; lia].
  - right. exists n. split; [lia |]. split; assumption.
Qed.

Lemma status_at_next w job_id i :
  status_at (record [Sacct job_id; Sleep 10] (elapse 2 w)) job_id i
  = status_at w job_id (S i).
Proof.
  unfold status_at. simpl cluster. simpl tick. f_equal. lia.
Qed.

Lemma status_at_0 w job_id : status_at w job_id 0 = sacct_reply (cluster w) (tick w) job_id.
Proof. unfold status_at. f_equal. lia. Qed.

Lemma wait_returns n : forall fuel job_id w,
  first_terminal w job_id n -> (n < fuel)%nat ->
  wait_for_job_completion fuel job_id w
  = Done tt (record (poll_events job_id n) (elapse (2 * n + 1) w)).
Proof.
  induction n as [|n IH]; intros [|fuel] job_id w [Hterm Hbefore] Hfuel; try lia;
    rewrite wait_step, is_terminal_strip, <- status_at_0.
  - rewrite Hterm. reflexivity.
  - rewrite (Hbefore 0%nat) by lia.
    rewrite (IH fuel job_id); [| | lia].
    + rewrite elapse_record, record_record, elapse_add. f_equal. f_equal. f_equal. lia.
    + split.
      * rewrite status_at_next. exact Hterm.
      * intros i Hi. rewrite status_at_next. apply Hbefore. lia.
Qed.

Lemma wait_running fuel : forall job_id w,
  (forall i, (i < fuel)%nat -> is_terminal (status_at w job_id i) = false) ->
  wait_for_job_completion fuel job_id w
  = Running (record (poll_rounds job_id fuel) (elapse (2 * fuel) w)).
Proof.
  induction fuel as [|fuel IH]; intros job_id w Hnot.
  - simpl. rewrite record_nil. reflexivity.
  - rewrite wait_step, is_terminal_strip, <- status_at_0, (Hnot 0%nat) by lia.
    rewrite (IH job_id).
    + rewrite elapse_record, record_record, elapse_add. f_equal. f_equal. f_equal. lia.
    + intros i Hi. rewrite status_at_next. apply Hnot. lia.
Qed.

Lemma wait_done_inv fuel job_id w u w' :
  wait_for_job_completion fuel job_id w = Done u w' ->
  exists n, (n < fuel)%nat /\ first_terminal w job_id n
            /\ w' = record (poll_events job_id n) (elapse (2 * n + 1) w).
Proof.
  intros H.
  destruct (find_first (fun i => is_terminal (status_at w job_id i)) fuel)
    as [Hnot | (n & Hn & Hp & Hfirst)].
  - rewrite (wait_running fuel job_id w Hnot) in H. discriminate.
  - exists n. split; [exact Hn |]. split; [split; assumption |].
    rewrite (wait_returns n fuel job_id w (conj Hp Hfirst) Hn) in H. congruence.
Qed.

Lemma wait_never_aborts fuel : forall job_id w e w',
  wait_for_job_completion fuel job_id w <> Raised e w'.
Proof.
  intros job_id w e w' H.
  destruct (find_first (fun i => is_terminal (status_at w job_id i)) fuel)
    as [Hnot | (n & Hn & Hp & Hfirst)].
  - rewrite (wait_running fuel job_id w Hnot) in H. discriminate.
  - rewrite (wait_returns n fuel job_id w (conj Hp Hfirst) Hn) in H. discriminate.
Qed.

Lemma poll_rounds_events job_id n : Forall (is_query_or_delay job_id) (poll_rounds job_id n).
Proof.
  unfold poll_rounds. induction n as [|n IH]; simpl; [constructor |].
  constructor; [left; reflexivity |]. constructor; [right; reflexivity | exact IH].
Qed.

End StripFacts.

(** C5.  [wait_for_job_completion] returns exactly when what [sacct]
    printed contains [COMPLETED], [FAILED] or [CANCELLED]: it returns at
    the first query that finds one of them, and on any other status text
    it sleeps 10 seconds and queries again.  There is no bound on the
    rounds: as long as no status is terminal the loop is still running,
    whatever the number of rounds granted.  All it does is query and
    sleep, and it raises nothing. *)
Theorem wait_for_job_completion_spec (job_id : str) (w : Sweep.World) :
  (forall fuel w',
      Sweep.wait_for_job_completion fuel job_id w = Sweep.Done tt w' <->
      exists n, (n < fuel)%nat /\ Run.first_terminal w job_id n
                /\ w' = Run.record (Run.poll_events job_id n) (Run.elapse (2 * n + 1) w))
  /\ (forall fuel,
         Sweep.is_terminal (Run.status_at w job_id 0) = false ->
         Sweep.wait_for_job_completion (S fuel) job_id w
         = Sweep.wait_for_job_completion fuel job_id
             (Run.record [Sweep.Sacct job_id; Sweep.Sleep 10] (Run.elapse 2 w)))
  /\ (forall fuel,
         (forall i, (i < fuel)%nat -> Sweep.is_terminal (Run.status_at w job_id i) = false) ->
         Sweep.wait_for_job_completion fuel job_id w
         = Sweep.Running (Run.record (Run.poll_rounds job_id fuel) (Run.elapse (2 * fuel) w)))
  /\ (forall fuel e w', Sweep.wait_for_job_completion fuel job_id w <> Sweep.Raised e w')
  /\ (forall n, Forall (Run.is_query_or_delay job_id) (Run.poll_events job_id n))
  /\ (forall out,
         Sweep.is_terminal (PyStr.strip out)
         = PyStr.contains (lit "COMPLETED") out
           || PyStr.contains (lit "FAILED") out
           || PyStr.contains (lit "CANCELLED") out)
  /\ Sweep.is_terminal (lit "RUNNING") = false
  /\ Sweep.is_terminal (lit "PENDING") = false
  /\ Sweep.is_terminal [] = false
  /\ Sweep.is_terminal (lit "CANCELLED by 1001") = true.
Proof.
  split; [| split; [| split; [| split; [| split; [| split]]]]].
  - intros fuel w'. split.
    + apply wait_done_inv.
    + intros (n & Hn & Hfirst & ->). apply wait_returns; assumption.
  - intros fuel H. rewrite wait_step, is_terminal_strip, <- status_at_0, H. reflexivity.
  - intros fuel. apply wait_running.
  - intros fuel. apply wait_never_aborts.
  - intros n. unfold Run.poll_events. apply Forall_app. split.
    + apply poll_rounds_events.
    + constructor; [left; reflexivity | constructor].
  - intros out. rewrite is_terminal_strip. reflexivity.
  - repeat split; reflexivity.
Qed.

(** On a cluster that reports the job running at ticks 0 and 2 and
    completed at tick 4, the loop returns at its third query. *)
Lemma wait_for_job_completion_spec_witness :
  Sweep.wait_for_job_completion 5 (lit "7") (Sample.start (Sample.steady 3))
  = Sweep.Done tt
      (Run.record (Run.poll_events (lit "7") 2)
         (Run.elapse (2 * 2 + 1) (Sample.start (Sample.steady 3))))
  /\ Sweep.wait_for_job_completion 2 (lit "7") (Sample.start (Sample.steady 3))
     = Sweep.Running
         (Run.record (Run.poll_rounds (lit "7") 2)
            (Run.elapse (2 * 2) (Sample.start (Sample.steady 3)))).
Proof.
  split.
  - apply (proj1 (wait_for_job_completion_spec (lit "7") (Sample.start (Sample.steady 3)))).
    exists 2%nat. split; [lia |]. split; [| reflexivity]. split; [reflexivity |].
    intros [|[|i]] Hi; [reflexivity | reflexivity | lia].
  - apply (proj1 (proj2 (proj2 (wait_for_job_completion_spec (lit "7")
                                  (Sample.start (Sample.steady 3)))))).
    intros [|[|i]] Hi; [reflexivity | reflexivity | lia].
Defined.

(** ** The three phases of the sweep *)

Section PhaseFacts.
Import PyStr PyNum Sweep Run.
Variables command account partition : str.

Lemma submitted_record l : forall evs w,
  submitted command account partition l (record evs w)
  = record evs (submitted command account partition l w).
Proof.
  induction l as [|c l IH]; intros evs w; [reflexivity |].
  cbn [submitted].
  exact (IH evs (elapse 1 {| cluster := cluster w; tick := tick w;
                             files := <[script_filename_of c :=
                                          script_content_of c command (job_name_of c)
                                            account partition]> (files w);
                             trace := trace w |})).
Qed.

Lemma submitted_cluster l : forall w,
  cluster (submitted command account partition l w) = cluster w.
Proof. induction l as [|c l IH]; intros w; [reflexivity |]. cbn [submitted]. rewrite IH. reflexivity. Qed.

Lemma submitted_tick l : forall w,
  tick (submitted command account partition l w) = (tick w + length l)%nat.
Proof.
  induction l as [|c l IH]; intros w; [simpl; lia |].
  cbn [submitted]. rewrite IH. simpl. lia.
Qed.

Lemma submitted_trace l : forall w,
  trace (submitted command account partition l w) = trace w.
Proof. induction l as [|c l IH]; intros w; [reflexivity |]. cbn [submitted]. rewrite IH. reflexivity. Qed.

(** The first loop. *)
Lemma submit_all_run l : forall job_ids w,
  submit_all l command account partition job_ids w
  = Done (register (cluster w) (tick w) l job_ids)
         (record (submit_events command account partition l)
                 (submitted command account partition l w)).
Proof.
  induction l as [|c l IH]; intros job_ids w.
  - simpl. rewrite record_nil. reflexivity.
  - set (w1 := {| cluster := cluster w; tick := tick w;
                  files := <[script_filename_of c :=
                               script_content_of c command (job_name_of c)
                                 account partition]> (files w);
                  trace := trace w |}).
    transitivity
      (submit_all l command account partition
         (if accepted (submission (cluster w) (tick w) c)
          then dict_set c (submission (cluster w) (tick w) c) job_ids
          else job_ids)
         (record [Sbatch (script_filename_of c)]
            (elapse 1 (record [WriteFile (script_filename_of c)
                                 (script_content_of c command (job_name_of c)
                                    account partition)] w1)))).
    { reflexivity. }
    rewrite IH, elapse_record, record_record, submitted_record, record_record.
    reflexivity.
Qed.

(** The second loop, on jobs that all reach a terminal state. *)
Lemma wait_all_run items : forall w,
  Forall (fun item => finishing (cluster w) (snd item)) items ->
  exists rounds fuel0,
    length rounds = length items
    /\ forall fuel, (fuel0 <= fuel)%nat ->
         wait_all fuel items w
         = Done tt (record (poll_all_events items rounds)
                           (elapse (poll_all_ticks rounds) w)).
Proof.
  induction items as [|[c job_id] items IH]; intros w Hfin.
  - exists [], 0%nat. split; [reflexivity |]. intros fuel _. simpl.
    rewrite record_nil. reflexivity.
  - apply Forall_cons in Hfin as [Hj Hrest]. simpl in Hj.
    destruct (Hj (tick w)) as [m Hm].
    destruct (find_first (fun i => is_terminal (status_at w job_id i)) (S m))
      as [Hnot | (n & Hn & Hp & Hfirst)].
    { specialize (Hnot m ltac:(lia)). unfold status_at in Hnot. congruence. }
    set (w1 := record (poll_events job_id n) (elapse (2 * n + 1) w)).
    destruct (IH w1) as (rounds & fuel0 & Hlen & Hrun).
    { unfold w1. simpl. rewrite elapse_cluster. exact Hrest. }
    exists (n :: rounds), (Nat.max (S n) fuel0). split; [simpl; lia |].
    intros fuel Hfuel. cbn [wait_all]. unfold mbind, M_bind.
    rewrite (wait_returns n fuel job_id w (conj Hp Hfirst)) by lia.
    fold w1. rewrite (Hrun fuel) by lia. unfold w1.
    rewrite elapse_record, record_record, elapse_add. reflexivity.
Qed.

Lemma getitem_raises {A : Type} (l : list A) i e : getitem l i = Raise e -> e = IndexError.
Proof. unfold getitem. destruct (nth_error l i); congruence. Qed.

Lemma py_float_raises s e : py_float s = Raise e -> e = ValueError.
Proof.
  unfold py_float. destruct (split_sign (numstrip s)) as [neg body].
  destruct (dropwhile isdecimal body) as [|c rest].
  - destruct (all_digits _); congruence.
  - destruct (Ascii.ascii_dec c ".") as [-> | Hc].
    + destruct (forallb isdecimal rest && _); congruence.
    + destruct c as [[] [] [] [] [] [] [] []]; congruence.
Qed.

(** [read_wall_time] reads the files and nothing else. *)
Lemma read_wall_time_run cpu_count w :
  read_wall_time cpu_count w =
  match wall_time_in (files w) cpu_count with
  | Ok q => Done q (record [ReadFile (time_filename_of cpu_count)] w)
  | Raise e => Raised e (record [ReadFile (time_filename_of cpu_count)] w)
  end.
Proof.
  unfold read_wall_time, catch_not_found, wall_time_in.
  unfold mbind, M_bind, result_bind, lift, mret, M_ret, result_ret, read_file.
  destruct (files w !! time_filename_of cpu_count) as [data |]; [| reflexivity].
  fold (record [ReadFile (time_filename_of cpu_count)] w).
  destruct (getitem (split_ws (strip data)) 2) as [field | e] eqn:Hg.
  - destruct (py_float field) as [q | e] eqn:Hf; [reflexivity |].
    apply py_float_raises in Hf as ->. reflexivity.
  - apply getitem_raises in Hg as ->. reflexivity.
Qed.

(** The third loop, when every wall-time file can be read. *)
Lemma report_all_run l : forall w,
  (forall c, In c l -> exists q, wall_time_in (files w) c = Ok q) ->
  report_all 64 1 l w = Done tt (record (report_events (files w) l) w).
Proof.
  induction l as [|c l IH]; intros w Hread.
  - simpl. rewrite record_nil. reflexivity.
  - cbn [report_all]. unfold mbind at 1, M_bind at 1, report_one.
    unfold mbind at 1, M_bind at 1. rewrite read_wall_time_run.
    destruct (Hread c (or_introl eq_refl)) as [q Hq].
    cbn [report_events flat_map]. unfold wall_time_or_zero at 1. rewrite Hq.
    unfold log_write, emit. cbn [cluster tick files trace record].
    set (w1 := record [ReadFile (time_filename_of c);
                       LogWrite (report_line c (c * 64) (calculate_su c 64 q 1))] w).
    transitivity (report_all 64 1 l w1).
    { unfold w1, record. simpl. rewrite <- app_assoc. reflexivity. }
    rewrite (IH w1).
    + unfold w1. rewrite record_record. reflexivity.
    + intros c' Hc'. apply Hread. right. exact Hc'.
Qed.

(** A wall-time file written by the generated script can be read. *)
Lemma rstrip_solid x c ws :
  isspace c = false -> forallb isspace ws = true -> rstrip (x ++ c :: ws) = x ++ [c].
Proof.
  intros Hc Hws. unfold rstrip.
  rewrite rev_app_distr. simpl rev. rewrite <- !app_assoc. simpl app.
  rewrite (dropwhile_app isspace (rev ws) c (rev x)) by (rewrite ?forallb_rev; assumption).
  simpl rev. rewrite rev_involutive. reflexivity.
Qed.

Lemma split_ws_token tok : forall cur rest,
  forallb (fun c => negb (isspace c)) tok = true ->
  split_ws_go cur (tok ++ rest) = split_ws_go (cur ++ tok) rest.
Proof.
  induction tok as [|c tok IH]; intros cur rest Htok.
  - rewrite app_nil_r. reflexivity.
  - simpl in Htok. apply andb_true_iff in Htok as [Hc Htok].
    apply negb_true_iff in Hc. simpl. rewrite Hc, (IH _ _ Htok), <- app_assoc.
    reflexivity.
Qed.

Lemma wall_time_in_written fs cpu_count content :
  fs !! time_filename_of cpu_count = Some content ->
  written_by_script content ->
  exists q, wall_time_in fs cpu_count = Ok q.
Proof.
  intros Hfile (ds & Hds & ->). unfold wall_time_in. rewrite Hfile.
  assert (Hstrip : strip (lit "Elapsed time: " ++ ds ++ lit " seconds" ++ nl)
                   = lit "Elapsed time: " ++ ds ++ lit " seconds").
  { unfold strip. change (lstrip (lit "Elapsed time: " ++ ds ++ lit " seconds" ++ nl))
      with (lit "Elapsed time: " ++ ds ++ lit " seconds" ++ nl).
    transitivity (rstrip ((lit "Elapsed time: " ++ ds ++ lit " second") ++ "s"%char :: nl)).
    { f_equal. rewrite <- !app_assoc. reflexivity. }
    rewrite rstrip_solid by reflexivity. rewrite <- !app_assoc. reflexivity. }
  rewrite Hstrip.
  assert (Hsplit : split_ws (lit "Elapsed time: " ++ ds ++ lit " seconds")
                   = [lit "Elapsed"; lit "time:"; ds; lit "seconds"]).
  { unfold split_ws.
    change (split_ws_go [] (lit "Elapsed time: " ++ ds ++ lit " seconds"))
      with (lit "Elapsed" :: lit "time:" :: split_ws_go [] (ds ++ lit " seconds")).
    rewrite split_ws_token.
    - destruct ds as [|d ds]; [discriminate |]. reflexivity.
    - apply all_digits_forallb in Hds. revert Hds. apply forallb_impl.
      intros c Hc. rewrite (isdecimal_not_space c Hc). reflexivity. }
  rewrite Hsplit. cbn [getitem nth_error mbind result_bind].
  destruct (py_float_seconds (DurationText.Whole ds) Hds) as (q & Hq & _).
  simpl in Hq. rewrite Hq. eexists. reflexivity.
Qed.

Lemma script_name_not_time c c' : script_filename_of c <> time_filename_of c'.
Proof. discriminate. Qed.

Lemma tidy_union fs1 fs2 : tidy fs1 -> tidy fs2 -> tidy (fs1 ∪ fs2).
Proof.
  intros H1 H2 c content [H | [_ H]]%lookup_union_Some_raw; [apply (H1 c) | apply (H2 c)];
    exact H.
Qed.

Lemma tidy_insert_script fs c content : tidy fs -> tidy (<[script_filename_of c := content]> fs).
Proof.
  intros H c' content'. rewrite lookup_insert_ne by apply script_name_not_time. apply H.
Qed.

Lemma tidy_elapse k : forall w,
  (forall t, tidy (job_output (cluster w) t)) -> tidy (files w) -> tidy (files (elapse k w)).
Proof.
  induction k as [|k IH]; intros w Hout Hw; [exact Hw |].
  simpl. apply IH; simpl; [exact Hout |]. apply tidy_union; [apply Hout | exact Hw].
Qed.

Lemma tidy_submitted l : forall w,
  (forall t, tidy (job_output (cluster w) t)) -> tidy (files w) ->
  tidy (files (submitted command account partition l w)).
Proof.
  induction l as [|c l IH]; intros w Hout Hw; [exact Hw |].
  cbn [submitted]. apply IH; simpl; [exact Hout |].
  apply tidy_union; [apply Hout | apply tidy_insert_script, Hw].
Qed.

Lemma tidy_readable fs l : tidy fs -> forall c, In c l -> exists q, wall_time_in fs c = Ok q.
Proof.
  intros Htidy c _. destruct (fs !! time_filename_of c) as [content |] eqn:Hfile.
  - apply (wall_time_in_written fs c content Hfile), (Htidy c content Hfile).
  - exists 0%Q. unfold wall_time_in. rewrite Hfile. reflexivity.
Qed.

(** The dictionary of job IDs. *)
Lemma dict_set_keys c v d k :
  In k (map fst (dict_set c v d)) <-> k = c \/ In k (map fst d).
Proof.
  induction d as [|[c' v'] d IH]; simpl.
  - intuition congruence.
  - destruct (Z.eqb_spec c' c) as [-> |]; simpl; [intuition congruence |].
    rewrite IH. intuition congruence.
Qed.

Lemma dict_set_values c v d j :
  In j (map snd (dict_set c v d)) -> j = v \/ In j (map snd d).
Proof.
  induction d as [|[c' v'] d IH]; simpl.
  - intuition congruence.
  - destruct (Z.eqb_spec c' c) as [-> |]; simpl; [intuition congruence |].
    intros [H | H]; [auto |]. destruct (IH H); auto.
Qed.

Lemma dict_set_fresh c v d : ~ In c (map fst d) -> dict_set c v d = d ++ [(c, v)].
Proof.
  induction d as [|[c' v'] d IH]; simpl; [reflexivity |].
  intros Hc. destruct (Z.eqb_spec c' c) as [-> |]; [tauto |].
  rewrite IH by tauto. reflexivity.
Qed.

Lemma register_keys cl l : forall t d k,
  In k (map fst (register cl t l d)) <->
  In k (map fst d)
  \/ exists i, l !! i = Some k /\ accepted (submission cl (t + i) k) = true.
Proof.
  induction l as [|c l IH]; intros t d k; cbn [register].
  - split; [auto |]. intros [H | (i & Hi & _)]; [exact H | discriminate Hi].
  - rewrite IH. split.
    + intros [H | (i & Hi & Hacc)].
      * destruct (accepted (submission cl t c)) eqn:Hc; [| auto].
        apply dict_set_keys in H as [-> | H]; [| auto].
        right. exists 0%nat. rewrite Nat.add_0_r. auto.
      * right. exists (S i). replace (t + S i)%nat with (S t + i)%nat by lia. auto.
    + intros [H | ([|i] & Hi & Hacc)].
      * left. destruct (accepted (submission cl t c)); [apply dict_set_keys |]; auto.
      * simpl in Hi. injection Hi as ->. rewrite Nat.add_0_r in Hacc. rewrite Hacc.
        left. apply dict_set_keys. auto.
      * right. exists i. replace (S t + i)%nat with (t + S i)%nat by lia. auto.
Qed.

Lemma register_values cl l : forall t d j,
  In j (map snd (register cl t l d)) ->
  In j (map snd d)
  \/ exists i c, l !! i = Some c /\ j = submission cl (t + i) c /\ accepted j = true.
Proof.
  induction l as [|c l IH]; intros t d j; cbn [register]; [auto |].
  intros H. apply IH in H as [H | (i & c' & Hi & Hj & Hacc)].
  - destruct (accepted (submission cl t c)) eqn:Hc; [| auto].
    apply dict_set_values in H as [-> | H]; [| auto].
    right. exists 0%nat, c. rewrite Nat.add_0_r. auto.
  - right. exists (S i), c'. replace (t + S i)%nat with (S t + i)%nat by lia. auto.
Qed.

Lemma accepted_jobs_keys cl l : forall t k,
  In k (map fst (accepted_jobs cl t l)) -> In k l.
Proof.
  induction l as [|c l IH]; intros t k; cbn [accepted_jobs]; [auto |].
  rewrite map_app, in_app_iff. intros [H | H].
  - destruct (accepted _); simpl in H; [| tauto]. left. tauto.
  - right. apply (IH (S t)), H.
Qed.

(** On pairwise distinct CPU counts the dictionary lists the accepted
    submissions in the order of the CPU counts. *)
Lemma register_distinct cl l : forall t d,
  NoDup l -> (forall c, In c l -> ~ In c (map fst d)) ->
  register cl t l d = d ++ accepted_jobs cl t l.
Proof.
  induction l as [|c l IH]; intros t d Hnd Hfresh; cbn [register accepted_jobs].
  - rewrite app_nil_r. reflexivity.
  - apply NoDup_cons in Hnd as [Hc Hnd]. rewrite list_elem_of_In in Hc.
    destruct (accepted (submission cl t c)).
    + rewrite dict_set_fresh by (apply Hfresh; left; reflexivity).
      rewrite IH, <- app_assoc; [reflexivity | exact Hnd |].
      intros c' Hc'. rewrite map_app, in_app_iff. simpl.
      intros [H | [-> | []]]; [| tauto]. apply (Hfresh c'); [right |]; assumption.
    + rewrite IH; [reflexivity | exact Hnd |].
      intros c' Hc'. apply Hfresh. right. exact Hc'.
Qed.

(** The whole run. *)
Lemma main_run (cpu_list_str : str) (l : list Z) (w : World) :
  parse_cpu_list (split (lit ",") cpu_list_str) = Ok l ->
  Forall (fun item => finishing (cluster w) (snd item))
         (register (cluster w) (tick w) l []) ->
  tidy (files w) ->
  (forall t, tidy (job_output (cluster w) t)) ->
  exists rounds fuel0,
    length rounds = length (register (cluster w) (tick w) l [])
    /\ forall fuel, (fuel0 <= fuel)%nat ->
       exists w',
         main fuel cpu_list_str command account partition w = Done tt w'
         /\ trace w'
            = trace w ++ [LogWrite header_line; LogWrite rule_line]
              ++ submit_events command account partition l
              ++ poll_all_events (register (cluster w) (tick w) l []) rounds
              ++ report_events (files w') l
         /\ cluster w' = cluster w
         /\ tidy (files w').
Proof.
  intros Hparse Hfin Htidy Hout.
  set (w0 := record [LogWrite header_line; LogWrite rule_line] w).
  set (job_ids := register (cluster w) (tick w) l []) in *.
  set (w2 := record (submit_events command account partition l)
                    (submitted command account partition l w0)).
  assert (Hc2 : cluster w2 = cluster w).
  { unfold w2. simpl. rewrite submitted_cluster. reflexivity. }
  destruct (wait_all_run job_ids w2) as (rounds & fuel0 & Hlen & Hrun).
  { rewrite Hc2. exact Hfin. }
  exists rounds, fuel0. split; [exact Hlen |]. intros fuel Hfuel.
  set (w3 := record (poll_all_events job_ids rounds) (elapse (poll_all_ticks rounds) w2)).
  assert (Htidy3 : tidy (files w3)).
  { unfold w3. simpl. apply tidy_elapse.
    - rewrite Hc2. exact Hout.
    - unfold w2. simpl. apply tidy_submitted; assumption. }
  exists (record (report_events (files w3) l) w3).
  split; [| split; [| split]].
  - unfold main. unfold mbind at 1, M_bind at 1. rewrite Hparse. cbn [lift].
    transitivity
      (match submit_all l command account partition []
               (record [LogWrite rule_line] (record [LogWrite header_line] w)) with
       | Done j w' => (wait_all fuel j ≫= fun _ => report_all 64 1 l) w'
       | Raised e w' => Raised e w'
       | Running w' => Running w'
       end).
    { reflexivity. }
    rewrite record_record, submit_all_run.
    change ([LogWrite header_line] ++ [LogWrite rule_line])
      with [LogWrite header_line; LogWrite rule_line].
    fold w0. change (cluster w0) with (cluster w). change (tick w0) with (tick w).
    fold job_ids. fold w2. unfold mbind, M_bind. rewrite (Hrun fuel Hfuel). fold w3.
    apply report_all_run, tidy_readable, Htidy3.
  - unfold w3, w2, w0. simpl. rewrite elapse_trace. simpl.
    rewrite submitted_trace. simpl. rewrite <- !app_assoc. reflexivity.
  - unfold w3. simpl. rewrite elapse_cluster. exact Hc2.
  - exact Htidy3.
Qed.

(** What a completed run has done. *)
Lemma wait_all_inv fuel items : forall w u w',
  wait_all fuel items w = Done u w' ->
  exists rounds,
    length rounds = length items
    /\ w' = record (poll_all_events items rounds) (elapse (poll_all_ticks rounds) w).
Proof.
  induction items as [|[c job_id] items IH]; intros w u w'.
  - simpl. intros [= _ <-]. exists []. split; [reflexivity |].
    simpl. rewrite record_nil. reflexivity.
  - cbn [wait_all]. unfold mbind, M_bind.
    destruct (wait_for_job_completion fuel job_id w) as [u1 w1 | |] eqn:Hwait;
      [| discriminate | discriminate].
    apply wait_done_inv in Hwait as (n & _ & _ & ->).
    intros H. apply IH in H as (rounds & Hlen & ->).
    exists (n :: rounds). split; [simpl; lia |].
    rewrite elapse_record, record_record, elapse_add. reflexivity.
Qed.

Lemma report_all_inv l : forall w u w',
  report_all 64 1 l w = Done u w' -> w' = record (report_events (files w) l) w.
Proof.
  induction l as [|c l IH]; intros w u w'.
  - simpl. intros [= _ <-]. rewrite record_nil. reflexivity.
  - cbn [report_all]. unfold mbind at 1, M_bind at 1, report_one.
    unfold mbind at 1, M_bind at 1. rewrite read_wall_time_run.
    cbn [report_events flat_map]. unfold wall_time_or_zero at 1.
    destruct (wall_time_in (files w) c) as [q | e]; [| discriminate].
    set (w1 := record [ReadFile (time_filename_of c);
                       LogWrite (report_line c (c * 64) (calculate_su c 64 q 1))] w).
    intros H.
    assert (H1 : report_all 64 1 l w1 = Done u w').
    { rewrite <- H. unfold w1, record, log_write, emit. simpl.
      rewrite <- app_assoc. reflexivity. }
    apply IH in H1 as ->. unfold w1. rewrite record_record. reflexivity.
Qed.

Lemma main_inv fuel (cpu_list_str : str) (l : list Z) (w w' : World) u :
  parse_cpu_list (split (lit ",") cpu_list_str) = Ok l ->
  main fuel cpu_list_str command account partition w = Done u w' ->
  phased command account partition l (register (cluster w) (tick w) l []) w w'.
Proof.
  intros Hparse. unfold main. unfold mbind at 1, M_bind at 1. rewrite Hparse. cbn [lift].
  intros H.
  set (w0 := record [LogWrite rule_line] (record [LogWrite header_line] w)).
  assert (H1 : match submit_all l command account partition [] w0 with
               | Done j w2 => (wait_all fuel j ≫= fun _ => report_all 64 1 l) w2
               | Raised e w2 => Raised e w2
               | Running w2 => Running w2
               end = Done u w').
  { rewrite <- H. reflexivity. }
  clear H. rewrite submit_all_run in H1.
  change (cluster w0) with (cluster w) in H1. change (tick w0) with (tick w) in H1.
  unfold mbind, M_bind in H1.
  destruct (wait_all fuel _ _) as [u3 w3 | |] eqn:Hwait; [| discriminate | discriminate].
  apply wait_all_inv in Hwait as (rounds & Hlen & ->).
  apply report_all_inv in H1 as ->.
  exists rounds. split; [exact Hlen |].
  unfold w0. simpl. rewrite elapse_trace. simpl. rewrite submitted_trace. simpl.
  rewrite <- !app_assoc. reflexivity.
Qed.

(** The events of the phases. *)
Lemma poll_events_sacct job_id n j : In (Sacct j) (poll_events job_id n) -> j = job_id.
Proof.
  unfold poll_events, poll_rounds. rewrite in_app_iff. intros [H | [[= ->] | []]]; [| reflexivity].
  induction n as [|n IH]; simpl in H; [tauto |].
  destruct H as [[= ->] | [[=] | H]]; [reflexivity | apply IH, H].
Qed.

Lemma poll_all_events_sacct items : forall rounds j,
  In (Sacct j) (poll_all_events items rounds) -> In j (map snd items).
Proof.
  induction items as [|[c job_id] items IH]; intros [|n rounds] j; simpl; try tauto.
  rewrite in_app_iff. intros [H | H].
  - left. symmetry. apply (poll_events_sacct job_id n j H).
  - right. apply (IH rounds j H).
Qed.

Lemma submit_events_sacct l j : ~ In (Sacct j) (submit_events command account partition l).
Proof.
  unfold submit_events. rewrite in_flat_map. intros (c & _ & [[=] | [[=] | []]]).
Qed.

Lemma report_events_sacct fs l j : ~ In (Sacct j) (report_events fs l).
Proof.
  unfold report_events. rewrite in_flat_map. intros (c & _ & [[=] | [[=] | []]]).
Qed.

Lemma log_text_app t1 t2 : log_text (t1 ++ t2) = log_text t1 ++ log_text t2.
Proof. unfold log_text. rewrite map_app, concat_app. reflexivity. Qed.

Lemma log_text_submit l : log_text (submit_events command account partition l) = [].
Proof. induction l as [|c l IH]; [reflexivity |]. simpl. exact IH. Qed.

Lemma log_text_poll_events job_id n : log_text (poll_events job_id n) = [].
Proof.
  unfold poll_events, poll_rounds. rewrite log_text_app. simpl.
  induction n as [|n IH]; [reflexivity |]. simpl. exact IH.
Qed.

Lemma log_text_poll_all items : forall rounds, log_text (poll_all_events items rounds) = [].
Proof.
  induction items as [|[c job_id] items IH]; intros [|n rounds]; try reflexivity.
  simpl. rewrite log_text_app, log_text_poll_events, IH. reflexivity.
Qed.

Lemma log_text_report fs l :
  log_text (report_events fs l)
  = concat (map (fun c => report_line c (c * 64)
                            (calculate_su c 64 (wall_time_or_zero fs c) 1)) l).
Proof.
  induction l as [|c l IH]; [reflexivity |].
  cbn [report_events flat_map]. rewrite log_text_app. fold (report_events fs l).
  rewrite IH. unfold log_text at 1. cbn [map concat app]. rewrite app_nil_r. reflexivity.
Qed.

(** The log of a phased run: the two header lines, then one line per CPU
    count in the order given, and nothing after. *)
Lemma phased_log l job_ids w w' :
  phased command account partition l job_ids w w' ->
  log_text (trace w')
  = log_text (trace w) ++ header_line ++ rule_line
    ++ concat (map (fun c => report_line c (c * 64)
                               (calculate_su c 64 (wall_time_or_zero (files w') c) 1)) l).
Proof.
  intros (rounds & _ & ->).
  rewrite !log_text_app, log_text_submit, log_text_poll_all, log_text_report.
  change (log_text [LogWrite header_line; LogWrite rule_line])
    with (header_line ++ rule_line ++ []).
  rewrite app_nil_r, !app_nil_l, <- !app_assoc. reflexivity.
Qed.

Lemma phased_sacct l job_ids w w' j :
  phased command account partition l job_ids w w' ->
  In (Sacct j) (trace w') -> In (Sacct j) (trace w) \/ In j (map snd job_ids).
Proof.
  intros (rounds & _ & ->). rewrite !in_app_iff.
  intros [H | [H | [H | [H | H]]]].
  - left. exact H.
  - destruct H as [[=] | [[=] | []]].
  - destruct (submit_events_sacct _ _ H).
  - right. apply (poll_all_events_sacct _ _ _ H).
  - destruct (report_events_sacct _ _ _ H).
Qed.

(** A missing wall-time file gives the row with SU 0.00. *)
Lemma report_line_zero c : report_line c (c * 64) (calculate_su c 64 0 1) = zero_row c.
Proof.
  unfold report_line, zero_row.
  replace (calculate_su c 64 0 1) with (0 # 1)%Q; [reflexivity |].
  unfold calculate_su, Qmult, inject_Z. simpl. f_equal. lia.
Qed.

Lemma wall_time_missing fs c :
  fs !! time_filename_of c = None -> wall_time_in fs c = Ok 0%Q.
Proof. intros H. unfold wall_time_in. rewrite H. reflexivity. Qed.

Lemma phased_zero_row l job_ids w w' c :
  phased command account partition l job_ids w w' ->
  In c l -> files w' !! time_filename_of c = None ->
  In (LogWrite (zero_row c)) (trace w').
Proof.
  intros (rounds & _ & ->) Hc Hmiss. rewrite !in_app_iff. do 4 right.
  unfold report_events. rewrite in_flat_map. exists c. split; [exact Hc |].
  right. left. unfold wall_time_or_zero. rewrite (wall_time_missing _ _ Hmiss).
  rewrite report_line_zero. reflexivity.
Qed.

Lemma poll_all_events_covers items : forall rounds j,
  length rounds = length items -> In j (map snd items) ->
  In (Sacct j) (poll_all_events items rounds).
Proof.
  induction items as [|[c job_id] items IH]; intros [|n rounds] j Hlen; simpl in *;
    try tauto; try discriminate.
  intros [-> | H]; rewrite in_app_iff.
  - left. unfold poll_events. rewrite in_app_iff. right. left. reflexivity.
  - right. apply IH; [lia | exact H].
Qed.

Lemma report_all_missing c l w :
  files w !! time_filename_of c = None ->
  report_all 64 1 (c :: l) w
  = report_all 64 1 l (record [ReadFile (time_filename_of c); LogWrite (zero_row c)] w).
Proof.
  intros Hmiss. cbn [report_all]. unfold mbind at 1, M_bind at 1, report_one.
  unfold mbind at 1, M_bind at 1. rewrite read_wall_time_run, (wall_time_missing _ _ Hmiss).
  rewrite report_line_zero. unfold log_write, emit, record. simpl.
  rewrite <- app_assoc. reflexivity.
Qed.

Lemma job_id_of_refused r :
  returncode r <> 0 ->
  job_id_of r = lit "Error submitting job: " ++ stderr r /\ accepted (job_id_of r) = false.
Proof.
  intros Hrc. unfold job_id_of. destruct (Z.eqb_spec (returncode r) 0); [congruence |].
  split; reflexivity.
Qed.

Lemma job_id_of_no_token r :
  returncode r = 0 -> MemoryText.whitespace_only (stdout r) = true ->
  job_id_of r = lit "Error: Failed to extract job ID from sbatch output."
  /\ accepted (job_id_of r) = false.
Proof.
  intros Hrc Hws. unfold job_id_of. rewrite Hrc. simpl negb. cbv iota.
  apply strip_nil_iff in Hws. rewrite Hws. split; reflexivity.
Qed.

End PhaseFacts.

(** ** The sweep *)

Section SampleFacts.
Import PyStr PyNum Sweep Run Sample.

Lemma steady_finishing done_at job_id : finishing (steady done_at) job_id.
Proof.
  intros t. exists done_at. unfold steady. cbn [sacct_reply].
  replace (t + 2 * done_at <? done_at)%nat with false; [reflexivity |].
  symmetry. apply Nat.ltb_ge. lia.
Qed.

Lemma refusing_finishing bad done_at job_id : finishing (refusing bad done_at) job_id.
Proof. exact (steady_finishing done_at job_id). Qed.

Lemma tidy_empty : tidy ∅.
Proof. intros c content H. rewrite lookup_empty in H. discriminate. Qed.

Lemma all_finishing (c : Cluster) (items : list (Z * str)) :
  (forall job_id, finishing c job_id) ->
  Forall (fun item => finishing c (snd item)) items.
Proof. intros H. induction items; constructor; auto. Qed.

End SampleFacts.

(** A run in which one job leaves its wall time and the other does not:
    the log of the sweep. *)
Example sweep_log_sample :
  exists w',
    Sweep.main 4 (lit "2,4") (lit "my_tool --consCores {cores} -o output_{cpus}")
      (lit "my_account") (lit "my_partition") (Sample.start (Sample.timed 3))
    = Sweep.Done tt w'
    /\ Sweep.log_text (Sweep.trace w')
       = lit "CPUs      Cores     SU        " ++ Sweep.nl
         ++ lit "==============================" ++ Sweep.nl
         ++ lit "2         128       256.00    " ++ Sweep.nl
         ++ lit "4         256       0.00      " ++ Sweep.nl.
Proof. eexists. split; vm_compute; reflexivity. Qed.

(** C9, as the code has it.  On pairwise distinct CPU counts the sweep is
    two-phase.  The trace of every completed run is: the two header lines of
    the log; a script and its submission for each CPU count, in the order
    given; then the polling loops of the accepted submissions, in that same
    order; then, for each CPU count in the order given, the reading of its
    wall-time file and its report line.  The log holds the header and
    exactly one line per CPU count, in the order given, and nothing after.
    The run completes when every accepted job reaches a terminal state and
    the wall-time files are those the scripts write. *)
Theorem sweep_is_two_phase
    (command account partition cpu_list_str : str) (cpu_list : list Z) (w : Sweep.World) :
  Sweep.parse_cpu_list (PyStr.split (lit ",") cpu_list_str) = Ok cpu_list ->
  NoDup cpu_list ->
  (forall fuel w',
      Sweep.main fuel cpu_list_str command account partition w = Sweep.Done tt w' ->
      Run.phased command account partition cpu_list
        (Run.accepted_jobs (Sweep.cluster w) (Sweep.tick w) cpu_list) w w'
      /\ Sweep.log_text (Sweep.trace w')
         = Sweep.log_text (Sweep.trace w) ++ Sweep.header_line ++ Sweep.rule_line
           ++ concat (map (fun c =>
                             Sweep.report_line c (c * 64)
                               (Sweep.calculate_su c 64
                                  (Run.wall_time_or_zero (Sweep.files w') c) 1))
                          cpu_list))
  /\ (Forall (fun item => Run.finishing (Sweep.cluster w) (snd item))
             (Run.accepted_jobs (Sweep.cluster w) (Sweep.tick w) cpu_list) ->
      Run.tidy (Sweep.files w) ->
      (forall t, Run.tidy (Sweep.job_output (Sweep.cluster w) t)) ->
      exists fuel0, forall fuel, (fuel0 <= fuel)%nat ->
        exists w', Sweep.main fuel cpu_list_str command account partition w = Sweep.Done tt w').
Proof.
  intros Hparse Hnd.
  assert (Hreg : Run.register (Sweep.cluster w) (Sweep.tick w) cpu_list []
                 = Run.accepted_jobs (Sweep.cluster w) (Sweep.tick w) cpu_list).
  { rewrite register_distinct; [reflexivity | exact Hnd | intros c _ []]. }
  split.
  - intros fuel w' Hmain.
    pose proof (main_inv command account partition fuel cpu_list_str cpu_list w w' tt
                  Hparse Hmain) as Hphased.
    rewrite Hreg in Hphased. split; [exact Hphased |].
    apply (phased_log command account partition _ _ _ _ Hphased).
  - intros Hfin Htidy Hout. rewrite <- Hreg in Hfin.
    destruct (main_run command account partition cpu_list_str cpu_list w
                Hparse Hfin Htidy Hout) as (rounds & fuel0 & _ & Hrun).
    exists fuel0. intros fuel Hfuel. destruct (Hrun fuel Hfuel) as (w' & Hmain & _).
    exists w'. exact Hmain.
Qed.

(** The sweep of 2, 4 and 8 CPUs on a cluster that accepts every script
    and reports every job completed from tick 5 on. *)
Lemma sweep_is_two_phase_witness :
  exists w',
    Sweep.main 3 (lit "2,4,8") (lit "my_tool --consCores {cores} -o output_{cpus}")
      (lit "my_account") (lit "my_partition") (Sample.start (Sample.steady 5))
    = Sweep.Done tt w'
    /\ Run.phased (lit "my_tool --consCores {cores} -o output_{cpus}")
         (lit "my_account") (lit "my_partition") [2; 4; 8]
         [(2, lit "7"); (4, lit "8"); (8, lit "9")] (Sample.start (Sample.steady 5)) w'.
Proof.
  eexists. split; [vm_compute; reflexivity |].
  refine (proj1 (proj1 (sweep_is_two_phase _ _ _ (lit "2,4,8") [2; 4; 8]
                          (Sample.start (Sample.steady 5)) _ _) 3%nat _ _)).
  - reflexivity.
  - apply (bool_decide_unpack (NoDup [2; 4; 8])). vm_compute. exact I.
  - vm_compute. reflexivity.
Defined.

(** C9, as it is stated, fails on a list that repeats a CPU count.  With
    the CPU counts 2, 4, 2 on a cluster that accepts every script, the jobs
    7, 8 and 9 are submitted; the later job of 2 CPUs takes the place of the
    earlier one in the dictionary, and job 7 is never polled. *)
Lemma sweep_repeated_count_not_two_phase :
  ~ (forall (command account partition cpu_list_str : str) (cpu_list : list Z)
            (w : Sweep.World) (fuel : nat) (w' : Sweep.World),
        Sweep.parse_cpu_list (PyStr.split (lit ",") cpu_list_str) = Ok cpu_list ->
        Sweep.main fuel cpu_list_str command account partition w = Sweep.Done tt w' ->
        Run.phased command account partition cpu_list
          (Run.accepted_jobs (Sweep.cluster w) (Sweep.tick w) cpu_list) w w').
Proof.
  intros H.
  pose (w := Sample.start (Sample.steady 0)).
  destruct (Sweep.main 1 (lit "2,4,2") (lit "run {cores}") (lit "a") (lit "p") w)
    as [[] w' | |] eqn:Hmain; [| vm_compute in Hmain; discriminate Hmain ..].
  specialize (H (lit "run {cores}") (lit "a") (lit "p") (lit "2,4,2") [2; 4; 2] w 1%nat w'
                eq_refl Hmain).
  destruct H as (rounds & Hlen & Htrace).
  assert (H7 : In (Sweep.Sacct (lit "7")) (Sweep.trace w')).
  { rewrite Htrace, !in_app_iff. do 3 right. left.
    apply poll_all_events_covers; [exact Hlen |]. left. reflexivity. }
  vm_compute in Hmain. injection Hmain as <-. clear - H7.
  vm_compute in H7.
  repeat (destruct H7 as [H7 | H7]; [discriminate H7 |]). exact H7.
Qed.

(** C6, as the code has it.  When [sbatch] exits non-zero, or prints no
    token, [submit_slurm_job] returns a text that holds [Error] and raises
    nothing, and [main] does not enter it in the dictionary of job IDs.  So
    a CPU count is in the dictionary exactly when one of its submissions
    was accepted: a CPU count all of whose submissions failed is left out.
    Every job that a completed run polls is in the dictionary, hence no
    failed submission is polled, and the log has a report line for every
    CPU count of the sweep.  The run completes when every job of the
    dictionary reaches a terminal state and the wall-time files are those
    the scripts write. *)
Theorem failed_submission_is_left_out
    (command account partition cpu_list_str : str) (cpu_list : list Z) (w : Sweep.World) :
  Sweep.parse_cpu_list (PyStr.split (lit ",") cpu_list_str) = Ok cpu_list ->
  let job_ids := Run.register (Sweep.cluster w) (Sweep.tick w) cpu_list [] in
  (forall script w0,
      Sweep.submit_slurm_job script w0
      = Sweep.Done
          (Sweep.job_id_of (Sweep.sbatch_reply (Sweep.cluster w0) (Sweep.tick w0) script))
          (Run.record [Sweep.Sbatch script] (Run.elapse 1 w0)))
  /\ (forall r, Sweep.returncode r <> 0 ->
        Sweep.job_id_of r = lit "Error submitting job: " ++ Sweep.stderr r
        /\ Run.accepted (Sweep.job_id_of r) = false)
  /\ (forall r, Sweep.returncode r = 0 ->
        MemoryText.whitespace_only (Sweep.stdout r) = true ->
        Sweep.job_id_of r = lit "Error: Failed to extract job ID from sbatch output."
        /\ Run.accepted (Sweep.job_id_of r) = false)
  /\ (forall c,
        In c (map fst job_ids) <->
        exists i, cpu_list !! i = Some c
                  /\ Run.accepted (Run.submission (Sweep.cluster w) (Sweep.tick w + i) c) = true)
  /\ (forall j, In j (map snd job_ids) -> Run.accepted j = true)
  /\ (forall fuel w',
        Sweep.main fuel cpu_list_str command account partition w = Sweep.Done tt w' ->
        (forall j, In (Sweep.Sacct j) (Sweep.trace w') ->
                   In (Sweep.Sacct j) (Sweep.trace w) \/ In j (map snd job_ids))
        /\ Sweep.log_text (Sweep.trace w')
           = Sweep.log_text (Sweep.trace w) ++ Sweep.header_line ++ Sweep.rule_line
             ++ concat (map (fun c =>
                               Sweep.report_line c (c * 64)
                                 (Sweep.calculate_su c 64
                                    (Run.wall_time_or_zero (Sweep.files w') c) 1))
                            cpu_list))
  /\ (Forall (fun item => Run.finishing (Sweep.cluster w) (snd item)) job_ids ->
      Run.tidy (Sweep.files w) ->
      (forall t, Run.tidy (Sweep.job_output (Sweep.cluster w) t)) ->
      exists fuel0, forall fuel, (fuel0 <= fuel)%nat ->
        exists w', Sweep.main fuel cpu_list_str command account partition w = Sweep.Done tt w').
Proof.
  intros Hparse job_ids.
  split; [reflexivity |].
  split; [apply job_id_of_refused |].
  split; [apply job_id_of_no_token |].
  split.
  { intros c. unfold job_ids. rewrite register_keys. simpl. tauto. }
  split.
  { intros j Hj. apply register_values in Hj as [[] | (i & c & _ & _ & Hacc)]. exact Hacc. }
  split.
  - intros fuel w' Hmain.
    pose proof (main_inv command account partition fuel cpu_list_str cpu_list w w' tt
                  Hparse Hmain) as Hphased.
    split.
    + intros j. apply (phased_sacct command account partition _ _ _ _ _ Hphased).
    + apply (phased_log command account partition _ _ _ _ Hphased).
  - intros Hfin Htidy Hout.
    destruct (main_run command account partition cpu_list_str cpu_list w
                Hparse Hfin Htidy Hout) as (rounds & fuel0 & _ & Hrun).
    exists fuel0. intros fuel Hfuel. destruct (Hrun fuel Hfuel) as (w' & Hmain & _).
    exists w'. exact Hmain.
Qed.

(** The sweep of 2, 4 and 8 CPUs on a cluster that refuses the second
    script: 4 is not in the dictionary, the run completes, and the log has
    the three report lines. *)
Lemma failed_submission_is_left_out_witness :
  Run.register (Sample.refusing 1 0) 0 [2; 4; 8] [] = [(2, lit "7"); (8, lit "9")]
  /\ ~ In 4 (map fst (Run.register (Sample.refusing 1 0) 0 [2; 4; 8] []))
  /\ exists fuel0, forall fuel, (fuel0 <= fuel)%nat ->
       exists w',
         Sweep.main fuel (lit "2,4,8") (lit "run {cores}") (lit "a") (lit "p")
           (Sample.start (Sample.refusing 1 0)) = Sweep.Done tt w'.
Proof.
  pose proof (failed_submission_is_left_out (lit "run {cores}") (lit "a") (lit "p")
                (lit "2,4,8") [2; 4; 8] (Sample.start (Sample.refusing 1 0)) eq_refl)
    as (_ & _ & _ & Hkeys & _ & _ & Hlive).
  split; [reflexivity |]. split.
  - intros H4. apply Hkeys in H4 as (i & Hi & Hacc).
    destruct i as [|[|[|i]]]; try discriminate Hi. vm_compute in Hacc. discriminate Hacc.
  - apply Hlive.
    + apply all_finishing. intros job_id. apply refusing_finishing.
    + apply tidy_empty.
    + intros t. apply tidy_empty.
Defined.

(** C6, as it is stated, fails on a list that repeats a CPU count: with the
    CPU counts 2, 2 and a cluster that accepts the first script and refuses
    the second, the CPU count 2 stays in the dictionary although its second
    submission failed. *)
Lemma failed_submission_count_stays_mapped :
  ~ (forall (c : Sweep.Cluster) (t : nat) (cpu_list : list Z) (i : nat) (num_cpus : Z),
        cpu_list !! i = Some num_cpus ->
        Run.accepted (Run.submission c (t + i) num_cpus) = false ->
        ~ In num_cpus (map fst (Run.register c t cpu_list []))).
Proof.
  intros H. apply (H (Sample.refusing 1 0) 0%nat [2; 2] 1%nat 2).
  - reflexivity.
  - vm_compute. reflexivity.
  - vm_compute. left. reflexivity.
Qed.

(** C7.  When the wall-time file of a CPU count does not exist,
    [read_wall_time] returns 0 and raises nothing, the report loop writes
    the row of that CPU count with SU 0.00 and goes on to the next CPU
    count.  In every completed run each CPU count whose wall-time file is
    missing when the report is written has that row in the log, and the log
    has one line per CPU count.  The run completes when every job of the
    dictionary reaches a terminal state and the wall-time files that do
    exist are those the scripts write. *)
Theorem missing_wall_time_is_zero
    (command account partition cpu_list_str : str) (cpu_list : list Z) (w : Sweep.World) :
  Sweep.parse_cpu_list (PyStr.split (lit ",") cpu_list_str) = Ok cpu_list ->
  (forall c w0,
      Sweep.files w0 !! Sweep.time_filename_of c = None ->
      Sweep.read_wall_time c w0
      = Sweep.Done 0%Q (Run.record [Sweep.ReadFile (Sweep.time_filename_of c)] w0))
  /\ (forall c l w0,
        Sweep.files w0 !! Sweep.time_filename_of c = None ->
        Sweep.report_all 64 1 (c :: l) w0
        = Sweep.report_all 64 1 l
            (Run.record [Sweep.ReadFile (Sweep.time_filename_of c);
                         Sweep.LogWrite (Run.zero_row c)] w0))
  /\ (forall fuel w',
        Sweep.main fuel cpu_list_str command account partition w = Sweep.Done tt w' ->
        (forall c, In c cpu_list ->
                   Sweep.files w' !! Sweep.time_filename_of c = None ->
                   In (Sweep.LogWrite (Run.zero_row c)) (Sweep.trace w'))
        /\ Sweep.log_text (Sweep.trace w')
           = Sweep.log_text (Sweep.trace w) ++ Sweep.header_line ++ Sweep.rule_line
             ++ concat (map (fun c =>
                               Sweep.report_line c (c * 64)
                                 (Sweep.calculate_su c 64
                                    (Run.wall_time_or_zero (Sweep.files w') c) 1))
                            cpu_list))
  /\ (Forall (fun item => Run.finishing (Sweep.cluster w) (snd item))
             (Run.register (Sweep.cluster w) (Sweep.tick w) cpu_list []) ->
      Run.tidy (Sweep.files w) ->
      (forall t, Run.tidy (Sweep.job_output (Sweep.cluster w) t)) ->
      exists fuel0, forall fuel, (fuel0 <= fuel)%nat ->
        exists w', Sweep.main fuel cpu_list_str command account partition w = Sweep.Done tt w')
  /\ Run.zero_row 2 = lit "2         128       0.00      " ++ Sweep.nl.
Proof.
  intros Hparse.
  split.
  { intros c w0 Hmiss. rewrite read_wall_time_run, (wall_time_missing _ _ Hmiss). reflexivity. }
  split; [apply report_all_missing |].
  split; [| split; [| reflexivity]].
  - intros fuel w' Hmain.
    pose proof (main_inv command account partition fuel cpu_list_str cpu_list w w' tt
                  Hparse Hmain) as Hphased.
    split.
    + intros c. apply (phased_zero_row command account partition _ _ _ _ _ Hphased).
    + apply (phased_log command account partition _ _ _ _ Hphased).
  - intros Hfin Htidy Hout.
    destruct (main_run command account partition cpu_list_str cpu_list w
                Hparse Hfin Htidy Hout) as (rounds & fuel0 & _ & Hrun).
    exists fuel0. intros fuel Hfuel. destruct (Hrun fuel Hfuel) as (w' & Hmain & _).
    exists w'. exact Hmain.
Qed.

(** The sweep of 2 and 4 CPUs on a cluster whose jobs write no wall-time
    file: both rows show SU 0.00. *)
Lemma missing_wall_time_is_zero_witness :
  exists w',
    Sweep.main 1 (lit "2,4") (lit "run {cores}") (lit "a") (lit "p")
      (Sample.start (Sample.steady 0)) = Sweep.Done tt w'
    /\ In (Sweep.LogWrite (lit "2         128       0.00      " ++ Sweep.nl)) (Sweep.trace w')
    /\ In (Sweep.LogWrite (lit "4         256       0.00      " ++ Sweep.nl)) (Sweep.trace w').
Proof.
  eexists. split; [vm_compute; reflexivity |].
  pose proof (missing_wall_time_is_zero (lit "run {cores}") (lit "a") (lit "p")
                (lit "2,4") [2; 4] (Sample.start (Sample.steady 0)) eq_refl)
    as (_ & _ & Hrun & _).
  destruct (Hrun 1%nat _ ltac:(vm_compute; reflexivity)) as [Hrows _].
  split.
  - apply (Hrows 2); [left; reflexivity | reflexivity].
  - apply (Hrows 4); [right; left; reflexivity | reflexivity].
Defined.

(** * Further properties of the programs *)

(** ** [clean_name] *)

Section NameFacts.
Import PyStr PyNum FixedCpus NameText DurationText.
#[local] Arguments Ascii.eqb : simpl never.

Lemma find_close_shorter s r : find_close s = Some r -> (length r < length s)%nat.
Proof.
  induction s as [|c s IH]; simpl; [discriminate |].
  destruct (Ascii.eqb c ")"); [intros [= <-]; lia |].
  destruct (Ascii.eqb c "010"); [discriminate |].
  intros H. specialize (IH H). lia.
Qed.

Lemma find_close_prefix a b : find_close (a ++ b) = None -> find_close a = None.
Proof.
  induction a as [|c a IH]; simpl; [reflexivity |].
  destruct (Ascii.eqb c ")"); [discriminate |].
  destruct (Ascii.eqb c "010"); [reflexivity | exact IH].
Qed.

Lemma find_close_same_line mid post :
  has_char "010" mid = false -> find_close (mid ++ ")"%char :: post) <> None.
Proof.
  induction mid as [|c mid IH]; simpl; [discriminate |].
  intros [Hc Hmid]%orb_false_iff.
  destruct (Ascii.eqb c ")"); [discriminate |].
  rewrite Ascii.eqb_sym, Hc. apply IH, Hmid.
Qed.

Lemma sub_brackets_fuel f1 : forall f2 s,
  (length s <= f1)%nat -> (length s <= f2)%nat -> sub_brackets f1 s = sub_brackets f2 s.
Proof.
  induction f1 as [|f1 IH]; intros [|f2] s H1 H2;
    try (destruct s; [reflexivity | simpl in *; lia]).
  destruct s as [|c s]; [reflexivity |]. simpl in H1, H2. simpl.
  destruct (Ascii.eqb c "(").
  - destruct (find_close s) as [r |] eqn:Hr.
    + apply find_close_shorter in Hr. apply IH; lia.
    + f_equal. apply IH; lia.
  - f_equal. apply IH; lia.
Qed.

(** The substitution of [clean_name], one character at a time. *)
Lemma sub_brackets_cons c s :
  sub_brackets (length (c :: s)) (c :: s) =
  if Ascii.eqb c "("
  then match find_close s with
       | Some r => sub_brackets (length r) r
       | None => c :: sub_brackets (length s) s
       end
  else c :: sub_brackets (length s) s.
Proof.
  simpl. destruct (Ascii.eqb c "("); [| reflexivity].
  destruct (find_close s) as [r |] eqn:Hr; [| reflexivity].
  apply find_close_shorter in Hr. apply sub_brackets_fuel; lia.
Qed.

Lemma find_close_sub n : forall s,
  (length s <= n)%nat -> find_close s = None ->
  find_close (sub_brackets (length s) s) = None.
Proof.
  induction n as [|n IH]; intros [|c s] Hn; try reflexivity; [simpl in Hn; lia |].
  simpl in Hn. rewrite sub_brackets_cons. simpl find_close at 1.
  destruct (Ascii.eqb c ")") eqn:E1; [discriminate |].
  destruct (Ascii.eqb c "010") eqn:E2.
  - intros _. destruct (Ascii.eqb c "(") eqn:E3.
    + apply Ascii.eqb_eq in E2, E3. congruence.
    + simpl. rewrite E1, E2. reflexivity.
  - intros Hs. rewrite Hs.
    destruct (Ascii.eqb c "("); simpl; rewrite E1, E2; apply IH; (lia || exact Hs).
Qed.

Lemma bracket_free_cons c s :
  (Ascii.eqb c "(" = true -> find_close s = None) ->
  bracket_free s -> bracket_free (c :: s).
Proof.
  intros Hc Hs [|d pre] suf; simpl; intros [= -> ->].
  - apply Hc. reflexivity.
  - apply (Hs pre suf). reflexivity.
Qed.

Lemma bracket_free_tail c s : bracket_free (c :: s) -> bracket_free s.
Proof. intros H pre suf ->. apply (H (c :: pre) suf). reflexivity. Qed.

Lemma bracket_free_nil : bracket_free [].
Proof. intros [|c pre] suf; discriminate. Qed.

(** After the substitution no bracket group is left. *)
Lemma sub_brackets_free n : forall s,
  (length s <= n)%nat -> bracket_free (sub_brackets (length s) s).
Proof.
  induction n as [|n IH]; intros [|c s] Hn; try apply bracket_free_nil;
    [simpl in Hn; lia |].
  simpl in Hn. rewrite sub_brackets_cons.
  destruct (Ascii.eqb c "(") eqn:E.
  - destruct (find_close s) as [r |] eqn:Hr.
    + apply IH. apply find_close_shorter in Hr. lia.
    + apply bracket_free_cons; [| apply IH; lia].
      intros _. apply (find_close_sub (length s)); [lia | exact Hr].
  - apply bracket_free_cons; [congruence | apply IH; lia].
Qed.

(** A text without bracket group is left as it is. *)
Lemma sub_brackets_id s : bracket_free s -> sub_brackets (length s) s = s.
Proof.
  induction s as [|c s IH]; intros Hfree; [reflexivity |].
  rewrite sub_brackets_cons, (IH (bracket_free_tail c s Hfree)).
  destruct (Ascii.eqb c "(") eqn:E; [| reflexivity].
  apply Ascii.eqb_eq in E as ->. rewrite (Hfree [] s eq_refl). reflexivity.
Qed.

Lemma no_bracket_free s : has_char "(" s = false -> bracket_free s.
Proof.
  intros H pre suf ->. unfold has_char in H. rewrite existsb_app in H. simpl in H.
  rewrite orb_true_r in H. discriminate.
Qed.

Lemma strip_middle s : exists l r, s = l ++ strip s ++ r.
Proof.
  unfold strip. destruct (rstrip_split (lstrip s)) as (ws & _ & Hr).
  exists (takewhile isspace s), ws. rewrite <- Hr. unfold lstrip.
  symmetry. apply takewhile_dropwhile.
Qed.

Lemma bracket_free_strip s : bracket_free s -> bracket_free (strip s).
Proof.
  intros Hfree pre suf Hs. destruct (strip_middle s) as (l & r & Hmid).
  apply (find_close_prefix suf r), (Hfree (l ++ pre)).
  rewrite Hmid at 1. rewrite Hs, <- !app_assoc. reflexivity.
Qed.

Lemma lstrip_head s :
  lstrip s = [] \/ exists c t, lstrip s = c :: t /\ isspace c = false.
Proof.
  unfold lstrip. induction s as [|c s IH]; simpl; [left; reflexivity |].
  destruct (isspace c) eqn:E; [exact IH |]. right. exists c, s. auto.
Qed.

Lemma strip_idempotent s : strip (strip s) = strip s.
Proof.
  unfold strip at 2 3. set (t := lstrip s).
  destruct (rstrip_split t) as (ws & Hws & Hsplit).
  assert (Hl : lstrip (rstrip t) = rstrip t).
  { destruct (rstrip t) as [|c u] eqn:Hr; [reflexivity |].
    destruct (lstrip_head s) as [Hnil | (d & v & Hd & Hsp)]; fold t in Hnil || fold t in Hd.
    - rewrite Hnil in Hsplit. discriminate.
    - rewrite Hd in Hsplit. simpl in Hsplit. injection Hsplit as <- _.
      unfold lstrip. simpl. rewrite Hsp. reflexivity. }
  unfold strip. rewrite Hl. unfold rstrip. rewrite rev_involutive.
  f_equal. clear. induction (rev t) as [|c u IH]; simpl; [reflexivity |].
  destruct (isspace c) eqn:E; [exact IH |]. simpl. rewrite E. reflexivity.
Qed.

End NameFacts.

(** X1.  [clean_name] leaves no bracket group: wherever its result has an
    opening bracket followed by a closing one, a line feed lies between
    them.  A name without opening bracket is only stripped. *)
Theorem clean_name_removes_brackets (name : str) :
  (forall pre mid post,
      FixedCpus.clean_name name = pre ++ "("%char :: mid ++ ")"%char :: post ->
      DurationText.has_char "010" mid = true)
  /\ (DurationText.has_char "(" name = false ->
      FixedCpus.clean_name name = PyStr.strip name)
  /\ FixedCpus.clean_name (lit "taskA (attempt 2)") = lit "taskA"
  /\ FixedCpus.clean_name (lit "taskB") = lit "taskB".
Proof.
  split; [| split; [| split; reflexivity]].
  - intros pre mid post Hname.
    pose proof (bracket_free_strip _ (sub_brackets_free (length name) name (le_n _)))
      as Hfree.
    fold (FixedCpus.clean_name name) in Hfree.
    specialize (Hfree pre (mid ++ ")"%char :: post) Hname).
    destruct (DurationText.has_char "010" mid) eqn:E; [reflexivity |].
    destruct (find_close_same_line mid post E Hfree).
  - intros Hno. unfold FixedCpus.clean_name.
    rewrite (sub_brackets_id name (no_bracket_free name Hno)). reflexivity.
Qed.

Lemma clean_name_removes_brackets_witness :
  FixedCpus.clean_name (lit "  align_reads ") = lit "align_reads".
Proof.
  rewrite (proj1 (proj2 (clean_name_removes_brackets (lit "  align_reads "))) eq_refl).
  reflexivity.
Defined.

(** X2.  Cleaning a name twice gives what cleaning it once gives. *)
Theorem clean_name_idempotent (name : str) :
  FixedCpus.clean_name (FixedCpus.clean_name name) = FixedCpus.clean_name name.
Proof.
  unfold FixedCpus.clean_name at 1.
  rewrite sub_brackets_id.
  - apply strip_idempotent.
  - apply bracket_free_strip, (sub_brackets_free (length name)). lia.
Qed.

(** ** [format_memory] *)

Section MemoryAgain.
Import PyStr PyNum FixedCpus MemoryText.

Lemma isvalue_not_space c : isvalue c = true -> isspace c = false.
Proof. destruct c as [[] [] [] [] [] [] [] []]; vm_compute; congruence. Qed.

(** A value and a unit joined by one space are read back as that value
    and that unit. *)
Lemma re_match_memory_joined v u :
  v <> [] -> forallb isvalue v = true -> u <> [] -> forallb isword u = true ->
  re_match_memory (v ++ lit " " ++ u) = Some (v, u).
Proof.
  intros Hv Hvall Hu Huall. unfold re_match_memory. change (lit " " ++ u) with (" "%char :: u).
  rewrite (takewhile_stop isvalue v " " u Hvall eq_refl).
  destruct v as [|c v]; [congruence |]. cbn [length match_value].
  change (S (length v)) with (length (c :: v)). rewrite drop_app_length.
  destruct u as [|d u]; [congruence |].
  simpl in Huall. apply andb_true_iff in Huall as [Hd Huall].
  assert (Htw : takewhile isspace (" "%char :: d :: u) = [" "%char]).
  { simpl. rewrite (isword_not_space d Hd). reflexivity. }
  rewrite Htw. cbn [length match_spaces drop]. unfold match_unit.
  simpl takewhile. rewrite Hd, (takewhile_all isword u Huall).
  change (S (length v)) with (length (c :: v)). rewrite take_app_length.
  reflexivity.
Qed.

End MemoryAgain.

(** X3.  Formatting a memory text twice gives what formatting it once
    gives: the sentinel, a joined value and unit, and a text that does not
    match are all left as they are. *)
Theorem format_memory_idempotent (s : str) :
  FixedCpus.format_memory (FixedCpus.format_memory s) = FixedCpus.format_memory s.
Proof.
  destruct (format_memory_cases s)
    as [[_ ->] | [[_ (v & sp & u & rest & Hshape & ->)] | [_ [_ H]]]].
  - reflexivity.
  - destruct Hshape as (_ & Hv & Hvall & _ & Hu & Huall).
    unfold FixedCpus.format_memory at 1.
    rewrite (re_match_memory_joined v u Hv Hvall Hu Huall).
    destruct (PyStr.strip (v ++ lit " " ++ u)) eqn:E; [| reflexivity].
    apply strip_nil_iff in E. destruct v as [|c v]; [congruence |].
    simpl in Hvall, E. apply andb_true_iff in Hvall as [Hc _].
    rewrite (isvalue_not_space c Hc) in E. discriminate.
  - rewrite !H. reflexivity.
Qed.

(** ** [main] of the fixed-CPUs report *)

Section ReportFacts.
Import PyStr PyNum FixedCpus Report.


Lemma main_row_short cpus row : (length row < 11)%nat -> main_row cpus row = Raise IndexError.
Proof.
  intros Hlen. unfold main_row.
  destruct (getitem row 3) as [n0 | e] eqn:H3;
    [| apply getitem_raises in H3 as ->; reflexivity].
  destruct (getitem row 8) as [d | e] eqn:H8;
    [| apply getitem_raises in H8 as ->; reflexivity].
  assert (H10 : getitem row 10 = Raise IndexError).
  { unfold getitem. rewrite (proj2 (nth_error_None row 10)) by lia. reflexivity. }
  cbn [mbind result_bind]. rewrite H10. reflexivity.
Qed.

Lemma main_rows_raise cpus good : forall bad rest output total_su e,
  Forall (fun row => exists t, main_row cpus row = Ok t) good ->
  main_row cpus bad = Raise e ->
  main_rows cpus (good ++ bad :: rest) output total_su = Raise e.
Proof.
  induction good as [|row good IH]; intros bad rest output total e Hgood Hbad; simpl.
  - cbn [mbind result_bind]. rewrite Hbad. reflexivity.
  - apply Forall_cons in Hgood as [[t Ht] Hgood]. cbn [mbind result_bind].
    rewrite Ht. apply IH; assumption.
Qed.

End ReportFacts.



(** X5.  A data row of fewer than eleven columns makes [main] of the
    fixed-CPUs report raise [IndexError], when the rows before it are
    accepted: no record is produced, not even for those rows. *)
Theorem fixed_cpus_main_short_row (cpus : Z) (data : str)
    (good : list (list str)) (bad : list str) (rest : list (list str)) :
  Report.data_rows data = good ++ bad :: rest ->
  Forall (fun row => exists t, FixedCpus.main_row cpus row = Ok t) good ->
  (length bad < 11)%nat ->
  FixedCpus.main cpus data = Raise IndexError.
Proof.
  intros Hrows Hgood Hbad. unfold FixedCpus.main. fold (Report.data_rows data).
  rewrite Hrows. apply main_rows_raise; [exact Hgood |]. apply main_row_short, Hbad.
Qed.

(** A file whose second data line is blank. *)
Lemma fixed_cpus_main_short_row_witness :
  FixedCpus.main 4 (Sample.one_record_file "1h" ++ PyStr.line_feed
                    ++ Sample.one_record_file "2h") = Raise IndexError.
Proof.
  apply (fixed_cpus_main_short_row 4 _
           [PyStr.split PyStr.tab
              (lit "1" ++ PyStr.tab ++ lit "ab/12" ++ PyStr.tab ++ lit "77" ++ PyStr.tab
               ++ lit "align (sample 1)" ++ PyStr.tab ++ lit "COMPLETED" ++ PyStr.tab
               ++ lit "0" ++ PyStr.tab ++ lit "2024-09-25" ++ PyStr.tab ++ lit "-" ++ PyStr.tab
               ++ lit "1h" ++ PyStr.tab ++ lit "95.0%" ++ PyStr.tab ++ lit "512.5MB")]
           [[]]
           (skipn 2 (Report.data_rows (Sample.one_record_file "1h" ++ PyStr.line_feed
                                       ++ Sample.one_record_file "2h")))).
  - vm_compute. reflexivity.
  - constructor; [| constructor]. eexists. vm_compute. reflexivity.
  - simpl. lia.
Defined.

(** ** Submissions and wall-time files of the sweep *)

Section SubmitFacts.
Import PyStr PyNum Sweep Run.

Lemma split_ws_go_spaces ws : forall cur,
  forallb isspace ws = true ->
  split_ws_go cur ws = match cur with [] => [] | _ => [cur] end.
Proof.
  induction ws as [|c ws IH]; intros cur; simpl; [reflexivity |].
  intros [Hc Hws]%andb_true_iff. rewrite Hc, (IH [] Hws). destruct cur; reflexivity.
Qed.

Lemma split_ws_go_rstrip x : forall cur ws,
  forallb isspace ws = true -> split_ws_go cur (x ++ ws) = split_ws_go cur x.
Proof.
  induction x as [|c x IH]; intros cur ws Hws.
  - apply split_ws_go_spaces, Hws.
  - simpl. rewrite !IH by exact Hws. reflexivity.
Qed.

Lemma split_ws_lstrip s : split_ws_go [] (lstrip s) = split_ws_go [] s.
Proof.
  unfold lstrip. induction s as [|c s IH]; simpl; [reflexivity |].
  destruct (isspace c) eqn:E; [exact IH |]. simpl. rewrite E. reflexivity.
Qed.

(** [s.strip().split()] is [s.split()]. *)
Lemma split_ws_strip s : split_ws (strip s) = split_ws s.
Proof.
  unfold split_ws, strip. rewrite <- (split_ws_lstrip s).
  destruct (rstrip_split (lstrip s)) as (ws & Hws & Heq).
  rewrite Heq at 2. rewrite split_ws_go_rstrip by exact Hws. reflexivity.
Qed.

Lemma split_ws_go_solid s : forall cur,
  forallb (fun c => negb (isspace c)) cur = true ->
  Forall (fun tok => tok <> [] /\ forallb (fun c => negb (isspace c)) tok = true)
         (split_ws_go cur s).
Proof.
  induction s as [|c s IH]; intros cur Hcur; simpl.
  - destruct cur; constructor; [split; [discriminate | exact Hcur] | constructor].
  - destruct (isspace c) eqn:E.
    + destruct cur; [apply IH; reflexivity |].
      constructor; [split; [discriminate | exact Hcur] | apply IH; reflexivity].
    + apply IH. rewrite forallb_app, Hcur. simpl. rewrite E. reflexivity.
Qed.

Lemma split_ws_one tok :
  tok <> [] -> forallb (fun c => negb (isspace c)) tok = true ->
  split_ws_go [] tok = [tok].
Proof.
  intros Hne Htok. rewrite <- (app_nil_r tok) at 1.
  rewrite split_ws_token by exact Htok. simpl. destruct tok; [congruence | reflexivity].
Qed.

Lemma split_ws_go_last tok :
  tok <> [] -> forallb (fun c => negb (isspace c)) tok = true ->
  forall pre cur c, isspace c = true ->
    last (split_ws_go cur (pre ++ c :: tok)) = Some tok.
Proof.
  intros Hne Htok. induction pre as [|d pre IH]; intros cur c Hc; simpl.
  - rewrite Hc, (split_ws_one tok Hne Htok). destruct cur; reflexivity.
  - destruct (isspace d).
    + destruct cur; [apply IH, Hc |]. rewrite last_cons, (IH [] c Hc). reflexivity.
    + apply IH, Hc.
Qed.

Lemma job_id_of_token r pre tok ws :
  returncode r = 0 ->
  stdout r = pre ++ tok ++ ws ->
  pre = [] \/ (exists p c, pre = p ++ [c] /\ isspace c = true) ->
  tok <> [] -> forallb (fun c => negb (isspace c)) tok = true ->
  forallb isspace ws = true ->
  job_id_of r = tok.
Proof.
  intros Hrc Hout Hpre Hne Htok Hws. unfold job_id_of. rewrite Hrc. simpl negb. cbv iota.
  rewrite split_ws_strip, Hout. unfold split_ws, getlast.
  rewrite app_assoc, split_ws_go_rstrip by exact Hws.
  destruct Hpre as [-> | (p & c & -> & Hc)].
  - simpl. rewrite (split_ws_one tok Hne Htok). reflexivity.
  - rewrite <- app_assoc. simpl. rewrite (split_ws_go_last tok Hne Htok p [] c Hc).
    reflexivity.
Qed.

Lemma job_id_of_accepted r :
  accepted (job_id_of r) = true ->
  returncode r = 0
  /\ last (split_ws (stdout r)) = Some (job_id_of r).
Proof.
  destruct (Z.eq_dec (returncode r) 0) as [Hrc | Hrc].
  - intros Hacc. split; [exact Hrc |]. revert Hacc. unfold job_id_of.
    rewrite Hrc. simpl negb. cbv iota. rewrite split_ws_strip. unfold getlast.
    destruct (last (split_ws (stdout r))) as [tok |]; [reflexivity | discriminate].
  - destruct (job_id_of_refused r Hrc) as [_ H]. congruence.
Qed.

Lemma submit_slurm_job_run script_filename w :
  submit_slurm_job script_filename w
  = Done (job_id_of (sbatch_reply (cluster w) (tick w) script_filename))
         (record [Sbatch script_filename] (elapse 1 w)).
Proof. reflexivity. Qed.

End SubmitFacts.

(** X6.  When [sbatch] exits with code 0, [submit_slurm_job] returns the
    last white-space-separated token of its standard output: after
    ["Submitted batch job 4711"] and a line feed it returns ["4711"].  It
    makes one call of [sbatch] and nothing else. *)
Theorem submit_slurm_job_last_token
    (script_filename pre tok ws : str) (w : Sweep.World) :
  let r := Sweep.sbatch_reply (Sweep.cluster w) (Sweep.tick w) script_filename in
  Sweep.returncode r = 0 ->
  Sweep.stdout r = pre ++ tok ++ ws ->
  pre = [] \/ (exists p c, pre = p ++ [c] /\ PyStr.isspace c = true) ->
  tok <> [] ->
  forallb (fun c => negb (PyStr.isspace c)) tok = true ->
  forallb PyStr.isspace ws = true ->
  Sweep.submit_slurm_job script_filename w
  = Sweep.Done tok (Run.record [Sweep.Sbatch script_filename] (Run.elapse 1 w)).
Proof.
  intros r Hrc Hout Hpre Hne Htok Hws. rewrite submit_slurm_job_run. fold r.
  rewrite (job_id_of_token r pre tok ws Hrc Hout Hpre Hne Htok Hws). reflexivity.
Qed.

Lemma submit_slurm_job_last_token_witness :
  Sweep.submit_slurm_job (lit "slurm_job_2.sh") (Sample.start (Sample.steady 3))
  = Sweep.Done (lit "7")
      (Run.record [Sweep.Sbatch (lit "slurm_job_2.sh")]
         (Run.elapse 1 (Sample.start (Sample.steady 3)))).
Proof.
  apply (submit_slurm_job_last_token (lit "slurm_job_2.sh") (lit "Submitted batch job ")
           (lit "7") Sweep.nl (Sample.start (Sample.steady 3))).
  - reflexivity.
  - reflexivity.
  - right. exists (lit "Submitted batch job"), " "%char. split; reflexivity.
  - discriminate.
  - reflexivity.
  - reflexivity.
Defined.

(** X7.  A submission that [main] maps to its CPU count (the returned text
    does not contain ["Error"]) had exit code 0, and the text is the last
    token of what [sbatch] printed: it is not empty and holds no white
    space. *)
Theorem mapped_job_id_is_a_token (r : Sweep.CompletedProcess) :
  Run.accepted (Sweep.job_id_of r) = true ->
  Sweep.returncode r = 0
  /\ last (PyStr.split_ws (Sweep.stdout r)) = Some (Sweep.job_id_of r)
  /\ Sweep.job_id_of r <> []
  /\ forallb (fun c => negb (PyStr.isspace c)) (Sweep.job_id_of r) = true.
Proof.
  intros Hacc. destruct (job_id_of_accepted r Hacc) as [Hrc Hlast].
  split; [exact Hrc |]. split; [exact Hlast |].
  apply last_Some in Hlast as [l' Hl].
  pose proof (split_ws_go_solid (Sweep.stdout r) [] eq_refl) as Hall.
  fold (PyStr.split_ws (Sweep.stdout r)) in Hall. rewrite Hl in Hall.
  apply Forall_app in Hall as [_ Hall]. apply Forall_cons in Hall as [H _]. exact H.
Qed.

Lemma mapped_job_id_is_a_token_witness :
  Sweep.job_id_of (Sweep.sbatch_reply (Sample.steady 3) 0 (lit "slurm_job_2.sh")) <> [].
Proof.
  apply (mapped_job_id_is_a_token
           (Sweep.sbatch_reply (Sample.steady 3) 0 (lit "slurm_job_2.sh"))).
  reflexivity.
Defined.

Section WallTimeFacts.
Import PyStr PyNum Sweep Run DurationText.

Lemma wall_time_in_field fs cpu_count content f0 f1 rest (l : seconds_literal) :
  fs !! time_filename_of cpu_count = Some content ->
  split_ws content = f0 :: f1 :: seconds_text l :: rest ->
  seconds_ok (Some l) = true ->
  exists q, wall_time_in fs cpu_count = Ok q /\ (q == seconds_value (Some l) / 3600)%Q.
Proof.
  intros Hfile Hsplit Hok. unfold wall_time_in. rewrite Hfile, split_ws_strip, Hsplit.
  cbn [getitem nth_error mbind result_bind].
  destruct (py_float_seconds l Hok) as (q & Hq & Hv). rewrite Hq.
  eexists. split; [reflexivity |]. rewrite Hv. reflexivity.
Qed.

Lemma wall_time_in_short fs cpu_count content :
  fs !! time_filename_of cpu_count = Some content ->
  (length (split_ws content) < 3)%nat ->
  wall_time_in fs cpu_count = Raise IndexError.
Proof.
  intros Hfile Hlen. unfold wall_time_in. rewrite Hfile, split_ws_strip.
  unfold getitem. rewrite (proj2 (nth_error_None _ 2)) by lia. reflexivity.
Qed.

End WallTimeFacts.



(** X9.  A wall-time file that exists but holds fewer than three fields
    makes [read_wall_time] raise [IndexError]: only a missing file is
    answered with 0.  The exception ends the report loop of [main] at that
    CPU count, before its row or any later row is written. *)
Theorem read_wall_time_short_file
    (cpu_count : Z) (content : str) (cpu_list : list Z) (w : Sweep.World) :
  Sweep.files w !! Sweep.time_filename_of cpu_count = Some content ->
  (length (PyStr.split_ws content) < 3)%nat ->
  Sweep.read_wall_time cpu_count w
  = Sweep.Raised IndexError
      (Run.record [Sweep.ReadFile (Sweep.time_filename_of cpu_count)] w)
  /\ Sweep.report_all 64 1 (cpu_count :: cpu_list) w
     = Sweep.Raised IndexError
         (Run.record [Sweep.ReadFile (Sweep.time_filename_of cpu_count)] w).
Proof.
  intros Hfile Hlen.
  pose proof (wall_time_in_short _ _ _ Hfile Hlen) as Hraise.
  split.
  - rewrite read_wall_time_run, Hraise. reflexivity.
  - cbn [Sweep.report_all]. unfold mbind at 1, Sweep.M_bind at 1, Sweep.report_one.
    unfold mbind at 1, Sweep.M_bind at 1. rewrite read_wall_time_run, Hraise. reflexivity.
Qed.

(** The wall-time file of 4 CPUs is there and empty. *)
Lemma read_wall_time_short_file_witness :
  Sweep.read_wall_time 4
    {| Sweep.cluster := Sample.steady 0; Sweep.tick := 0;
       Sweep.files := {[ Sweep.time_filename_of 4 := [] ]}; Sweep.trace := [] |}
  = Sweep.Raised IndexError
      {| Sweep.cluster := Sample.steady 0; Sweep.tick := 0;
         Sweep.files := {[ Sweep.time_filename_of 4 := [] ]};
         Sweep.trace := [Sweep.ReadFile (lit "job-4.time")] |}.
Proof.
  refine (proj1 (read_wall_time_short_file 4 [] []
                   {| Sweep.cluster := Sample.steady 0; Sweep.tick := 0;
                      Sweep.files := {[ Sweep.time_filename_of 4 := [] ]};
                      Sweep.trace := [] |} _ _)).
  - apply lookup_singleton_eq.
  - simpl. lia.
Defined.

(** ** The dictionary of job IDs *)

Section DictFacts.
Import PyStr PyNum Sweep Run Dict.

Lemma dict_set_NoDup c v d : NoDup (map fst d) -> NoDup (map fst (dict_set c v d)).
Proof.
  induction d as [|[c' v'] d IH]; simpl.
  - intros _. apply NoDup_singleton.
  - intros [Hc' Hd]%NoDup_cons. destruct (Z.eqb_spec c' c) as [-> |]; simpl.
    + apply NoDup_cons. split; assumption.
    + apply NoDup_cons. split; [| apply IH, Hd].
      rewrite list_elem_of_In, dict_set_keys. rewrite list_elem_of_In in Hc'.
      intros [-> | H]; [congruence | tauto].
Qed.

Lemma dict_set_In c v d k x :
  NoDup (map fst d) ->
  In (k, x) (dict_set c v d) <-> (k = c /\ x = v) \/ (k <> c /\ In (k, x) d).
Proof.
  induction d as [|[c' v'] d IH]; simpl.
  - intros _. split.
    + intros [[= <- <-] | []]. left. split; reflexivity.
    + intros [[-> ->] | [_ []]]. left. reflexivity.
  - intros [Hc' Hd]%NoDup_cons. rewrite list_elem_of_In in Hc'.
    destruct (Z.eqb_spec c' c) as [-> |]; simpl.
    + split.
      * intros [[= <- <-] | H]; [left; split; reflexivity |].
        right. split; [| right; exact H].
        intros ->. apply Hc'. apply (in_map fst) in H. exact H.
      * intros [[-> ->] | [Hk [[= <- <-] | H]]]; [left; reflexivity | congruence |].
        right. exact H.
    + rewrite (IH Hd). split.
      * intros [[= <- <-] | [[-> ->] | [Hk H]]].
        -- right. split; [congruence | left; reflexivity].
        -- left. split; reflexivity.
        -- right. split; [exact Hk | right; exact H].
      * intros [[-> ->] | [Hk [[= <- <-] | H]]].
        -- right. left. split; reflexivity.
        -- left. reflexivity.
        -- right. right. split; assumption.
Qed.

Lemma register_NoDup cl l : forall t d,
  NoDup (map fst d) -> NoDup (map fst (register cl t l d)).
Proof.
  induction l as [|c l IH]; intros t d Hd; cbn [register]; [exact Hd |].
  apply IH. destruct (accepted _); [apply dict_set_NoDup |]; exact Hd.
Qed.

Lemma register_In cl l : forall t d k x,
  NoDup (map fst d) ->
  In (k, x) (register cl t l d) <->
  (exists i, last_accepted cl t l k i /\ x = submission cl (t + i) k)
  \/ (never_accepted cl t l k /\ In (k, x) d).
Proof.
  induction l as [|c l IH]; intros t d k x Hd; cbn [register].
  - split.
    + intros H. right. split; [| exact H]. intros i Hi. discriminate Hi.
    + intros [(i & (Hi & _) & _) | [_ H]]; [discriminate Hi | exact H].
  - set (s := submission cl t c).
    assert (Hd' : NoDup (map fst (if accepted s then dict_set c s d else d))).
    { destruct (accepted s); [apply dict_set_NoDup |]; exact Hd. }
    rewrite (IH (S t) _ k x Hd'). clear IH. unfold last_accepted, never_accepted.
    assert (Hshift : forall i, (S t + i)%nat = (t + S i)%nat) by (intros; lia).
    split.
    + intros [(i & (Hi & Hacc & Hlast) & ->) | [Hnever H]].
      * left. exists (S i). rewrite <- ?Hshift.
        split; [| reflexivity]. split; [exact Hi |]. split; [exact Hacc |].
        intros [|j] Hj Hlj; [lia |].
        rewrite <- ?Hshift. apply Hlast; [lia | exact Hlj].
      * destruct (accepted s) eqn:Hs.
        -- apply (dict_set_In c s d k x Hd) in H as [[-> ->] | [Hk H]].
           ++ left. exists 0%nat. rewrite Nat.add_0_r. split; [| reflexivity].
              split; [reflexivity |]. split; [exact Hs |].
              intros [|j] Hj Hlj; [lia |].
              rewrite <- ?Hshift. apply Hnever, Hlj.
           ++ right. split; [| exact H]. intros [|i] Hi.
              ** simpl in Hi. congruence.
              ** rewrite <- ?Hshift. apply Hnever, Hi.
        -- right. split; [| exact H]. intros [|i] Hi.
           ++ simpl in Hi. injection Hi as <-. rewrite Nat.add_0_r. exact Hs.
           ++ rewrite <- ?Hshift. apply Hnever, Hi.
    + intros [([|i] & (Hi & Hacc & Hlast) & ->) | [Hnever H]].
      * simpl in Hi. injection Hi as <-. rewrite Nat.add_0_r in *. right. split.
        -- intros j Hj. rewrite ?Hshift.
           apply Hlast; [lia | exact Hj].
        -- fold s in Hacc. rewrite Hacc. apply (dict_set_In c s d c s Hd). left.
           split; reflexivity.
      * left. exists i. rewrite ?Hshift.
        split; [| reflexivity]. split; [exact Hi |]. split; [exact Hacc |].
        intros j Hj Hlj. rewrite ?Hshift.
        apply Hlast; [lia | exact Hlj].
      * right. split.
        -- intros i Hi. rewrite ?Hshift. apply Hnever, Hi.
        -- destruct (accepted s) eqn:Hs; [| exact H].
           apply (dict_set_In c s d k x Hd). right. split; [| exact H].
           intros ->. specialize (Hnever 0%nat eq_refl). rewrite Nat.add_0_r in Hnever.
           fold s in Hnever. congruence.
Qed.

End DictFacts.

(** X10.  The first loop of [main] always comes to its end, and the
    dictionary [job_ids] it leaves has each CPU count at most once: a CPU
    count is mapped exactly when one of its submissions was accepted, and
    it is mapped to the job ID of the last accepted one, whatever the
    submissions before it and the refused ones after it gave. *)
Theorem job_ids_last_accepted_wins
    (cpu_list : list Z) (command account partition : str) (w : Sweep.World) :
  exists job_ids w',
    Sweep.submit_all cpu_list command account partition [] w = Sweep.Done job_ids w'
    /\ NoDup (map fst job_ids)
    /\ forall k job_id,
         In (k, job_id) job_ids <->
         exists i, Dict.last_accepted (Sweep.cluster w) (Sweep.tick w) cpu_list k i
                   /\ job_id = Run.submission (Sweep.cluster w) (Sweep.tick w + i) k.
Proof.
  eexists _, _. split; [apply submit_all_run |]. split.
  - apply register_NoDup. constructor.
  - intros k job_id. rewrite register_In by constructor. split.
    + intros [H | [_ []]]. exact H.
    + intros H. left. exact H.
Qed.

(** Two submissions of 2 CPUs, both accepted: the count is mapped to the
    job of the second. *)
Lemma job_ids_last_accepted_wins_witness :
  exists job_ids w',
    Sweep.submit_all [2; 2] (lit "run") (lit "acc") (lit "work") []
      (Sample.start (Sample.steady 3)) = Sweep.Done job_ids w'
    /\ In (2, lit "8") job_ids.
Proof.
  destruct (job_ids_last_accepted_wins [2; 2] (lit "run") (lit "acc") (lit "work")
              (Sample.start (Sample.steady 3))) as (job_ids & w' & Hrun & _ & Hin).
  exists job_ids, w'. split; [exact Hrun |]. apply Hin. exists 1%nat.
  split; [| reflexivity]. split; [reflexivity |]. split; [reflexivity |].
  intros [|[|[|j]]] Hj Hl; try lia; discriminate Hl.
Defined.

(** ** A job that never ends *)

Section BlockedFacts.
Import PyStr PyNum Sweep Run.

Lemma wait_running_inv fuel job_id w w' :
  wait_for_job_completion fuel job_id w = Running w' ->
  w' = record (poll_rounds job_id fuel) (elapse (2 * fuel) w).
Proof.
  intros H.
  destruct (find_first (fun i => is_terminal (status_at w job_id i)) fuel)
    as [Hnot | (n & Hn & Hp & Hfirst)].
  - rewrite (wait_running fuel job_id w Hnot) in H. congruence.
  - rewrite (wait_returns n fuel job_id w (conj Hp Hfirst) Hn) in H. discriminate.
Qed.

Lemma log_text_poll_rounds job_id n : log_text (poll_rounds job_id n) = [].
Proof. unfold poll_rounds. induction n as [|n IH]; [reflexivity |]. simpl. exact IH. Qed.

Lemma wait_all_blocked fuel items : forall w j,
  In j (map snd items) ->
  (forall t, is_terminal (sacct_reply (cluster w) t j) = false) ->
  exists w', wait_all fuel items w = Running w'
             /\ log_text (trace w') = log_text (trace w).
Proof.
  induction items as [|[c j1] items IH]; intros w j Hin Hnever; [destruct Hin |].
  cbn [wait_all]. unfold mbind, M_bind.
  destruct (wait_for_job_completion fuel j1 w) as [u w1 | e w1 | w1] eqn:Hwait.
  - apply wait_done_inv in Hwait as (n & _ & [Hterm _] & ->).
    destruct Hin as [<- | Hin].
    + simpl in Hterm. unfold status_at in Hterm. rewrite Hnever in Hterm. discriminate.
    + destruct (IH (record (poll_events j1 n) (elapse (2 * n + 1) w)) j Hin)
        as (w' & Hrun & Hlog).
      { simpl. rewrite elapse_cluster. exact Hnever. }
      exists w'. split; [exact Hrun |]. rewrite Hlog. simpl.
      rewrite elapse_trace, log_text_app, log_text_poll_events, app_nil_r. reflexivity.
  - destruct (wait_never_aborts _ _ _ _ _ Hwait).
  - apply wait_running_inv in Hwait as ->. eexists. split; [reflexivity |]. simpl.
    rewrite elapse_trace, log_text_app, log_text_poll_rounds, app_nil_r. reflexivity.
Qed.

End BlockedFacts.

(** X11.  When a job that [main] has mapped never reaches a terminal
    state, [main] stays in its waiting loop whatever the number of rounds
    granted: it neither returns nor raises, the report loop is never
    entered, and [job_output.log] holds the two header lines and no
    row. *)
Theorem unfinished_job_blocks_report
    (fuel : nat) (cpu_list_str command account partition : str) (cpu_list : list Z)
    (w : Sweep.World) (job_id : str) :
  Sweep.parse_cpu_list (PyStr.split (lit ",") cpu_list_str) = Ok cpu_list ->
  In job_id (map snd (Run.register (Sweep.cluster w) (Sweep.tick w) cpu_list [])) ->
  (forall t, Sweep.is_terminal (Sweep.sacct_reply (Sweep.cluster w) t job_id) = false) ->
  exists w',
    Sweep.main fuel cpu_list_str command account partition w = Sweep.Running w'
    /\ Sweep.log_text (Sweep.trace w')
       = Sweep.log_text (Sweep.trace w) ++ Sweep.header_line ++ Sweep.rule_line.
Proof.
  intros Hparse Hin Hnever.
  set (w0 := Run.record [Sweep.LogWrite Sweep.rule_line]
               (Run.record [Sweep.LogWrite Sweep.header_line] w)).
  set (w2 := Run.record (Run.submit_events command account partition cpu_list)
               (Run.submitted command account partition cpu_list w0)).
  destruct (wait_all_blocked fuel (Run.register (Sweep.cluster w) (Sweep.tick w) cpu_list [])
              w2 job_id Hin) as (w' & Hrun & Hlog).
  { unfold w2. simpl. rewrite submitted_cluster. exact Hnever. }
  exists w'. split.
  - unfold Sweep.main. unfold mbind at 1, Sweep.M_bind at 1. rewrite Hparse.
    cbn [Sweep.lift].
    transitivity
      (match Sweep.submit_all cpu_list command account partition [] w0 with
       | Sweep.Done j w3 =>
           (Sweep.wait_all fuel j ≫= fun _ => Sweep.report_all 64 1 cpu_list) w3
       | Sweep.Raised e w3 => Sweep.Raised e w3
       | Sweep.Running w3 => Sweep.Running w3
       end).
    { reflexivity. }
    rewrite submit_all_run.
    change (Sweep.cluster w0) with (Sweep.cluster w).
    change (Sweep.tick w0) with (Sweep.tick w). fold w2.
    unfold mbind, Sweep.M_bind. rewrite Hrun. reflexivity.
  - rewrite Hlog. unfold w2, w0. cbn [Sweep.trace Run.record].
    rewrite submitted_trace. cbn [Sweep.trace Run.record].
    rewrite <- !app_assoc, !log_text_app, log_text_submit, app_nil_r. reflexivity.
Qed.

(** On a cluster whose jobs run for ever, a sweep over 2 CPUs is still
    waiting after 5 rounds. *)
Lemma unfinished_job_blocks_report_witness :
  exists w',
    Sweep.main 5 (lit "2") (lit "run") (lit "acc") (lit "work")
      (Sample.start Stalled.never_done) = Sweep.Running w'
    /\ Sweep.log_text (Sweep.trace w') = Sweep.header_line ++ Sweep.rule_line.
Proof.
  apply (unfinished_job_blocks_report 5 (lit "2") (lit "run") (lit "acc") (lit "work") [2]
           (Sample.start Stalled.never_done) (lit "7")).
  - reflexivity.
  - left. vm_compute. reflexivity.
  - intros t. reflexivity.
Defined.

(** ** File names and command text *)

Section NamingFacts.
Import PyStr PyNum Sweep Run.

Lemma str_of_Z_inj a b : str_of_Z a = str_of_Z b -> a = b.
Proof.
  unfold str_of_Z, lit. intros H.
  apply (f_equal string_of_list_ascii) in H.
  rewrite !string_of_list_ascii_of_string in H.
  assert (Hnn : forall z, Z.to_int z <> Decimal.Pos Decimal.Nil
                          /\ Z.to_int z <> Decimal.Neg Decimal.Nil).
  { intros [|p|p]; simpl; split; try discriminate; intros [= Hp];
      apply (DecimalPos.Unsigned.to_uint_nonnil p Hp). }
  apply (f_equal NilZero.int_of_string) in H.
  rewrite !NilZero.isi in H by apply Hnn. injection H as H.
  rewrite <- (DecimalZ.of_to a), <- (DecimalZ.of_to b), H. reflexivity.
Qed.

Lemma no_brace x :
  DurationText.has_char "{" x = false ->
  forallb (fun c => negb (Ascii.eqb "{" c)) x = true.
Proof.
  unfold DurationText.has_char.
  induction x as [|c x IH]; cbn [existsb forallb]; [reflexivity |].
  intros [Hc Hx]%orb_false_iff. rewrite Hc, (IH Hx). reflexivity.
Qed.

End NamingFacts.

(** X12.  Two different CPU counts have different script files and
    different wall-time files, and no script file has the name of a
    wall-time file: within a sweep, the files of one CPU count are
    overwritten only by a repetition of that count. *)
Theorem file_names_distinct (a b : Z) :
  a <> b ->
  Sweep.script_filename_of a <> Sweep.script_filename_of b
  /\ Sweep.time_filename_of a <> Sweep.time_filename_of b
  /\ Sweep.script_filename_of a <> Sweep.time_filename_of b
  /\ Sweep.script_filename_of a <> Sweep.time_filename_of a.
Proof.
  intros Hab. unfold Sweep.script_filename_of, Sweep.time_filename_of.
  split; [| split; [| split; discriminate]].
  - intros H. apply app_inv_head, app_inv_tail in H. apply Hab, str_of_Z_inj, H.
  - intros H. apply app_inv_head, app_inv_tail in H. apply Hab, str_of_Z_inj, H.
Qed.

Lemma file_names_distinct_witness :
  Sweep.script_filename_of 2 <> Sweep.script_filename_of 4
  /\ Sweep.time_filename_of 2 <> Sweep.time_filename_of 4
  /\ Sweep.script_filename_of 2 <> Sweep.time_filename_of 4
  /\ Sweep.script_filename_of 2 <> Sweep.time_filename_of 2.
Proof. apply (file_names_distinct 2 4). lia. Defined.

(** X13.  The substitution of [create_slurm_script] copies the text of the
    command up to its first opening brace unchanged, and a command
    without an opening brace is run as it is given. *)
Theorem command_text_before_brace (x y : str) (cores num_cpus : Z) :
  DurationText.has_char "{" x = false ->
  Sweep.substitute (x ++ y) cores num_cpus = x ++ Sweep.substitute y cores num_cpus
  /\ Sweep.substitute x cores num_cpus = x
  /\ forall job_name account partition,
       Sweep.script_content_of num_cpus x job_name account partition
       = Sweep.unlines (Sweep.script_head num_cpus (num_cpus * 64) job_name account partition
                        ++ [x] ++ Sweep.script_tail num_cpus).
Proof.
  intros Hx%no_brace.
  assert (H : forall y c n, Sweep.substitute (x ++ y) c n = x ++ Sweep.substitute y c n).
  { intros y' c n. unfold Sweep.substitute.
    rewrite (replace_skip (lit "{cores}") _ ltac:(discriminate) "{" (lit "cores}") x y'
               eq_refl Hx).
    rewrite (replace_skip (lit "{cpus}") _ ltac:(discriminate) "{" (lit "cpus}") x _
               eq_refl Hx).
    reflexivity. }
  assert (H0 : forall c n, Sweep.substitute x c n = x).
  { intros c n. rewrite <- (app_nil_r x) at 1. rewrite H, app_nil_r. reflexivity. }
  split; [apply H |]. split; [apply H0 |].
  intros job_name account partition. unfold Sweep.script_content_of. rewrite H0.
  reflexivity.
Qed.

Lemma command_text_before_brace_witness :
  Sweep.substitute (lit "my_tool -o out_{cpus}") 128 2 = lit "my_tool -o out_2".
Proof.
  change (lit "my_tool -o out_{cpus}") with (lit "my_tool -o out_" ++ lit "{cpus}").
  rewrite (proj1 (command_text_before_brace (lit "my_tool -o out_") (lit "{cpus}") 128 2
                    eq_refl)).
  reflexivity.
Defined.

(** ** Durations with white space *)

Section PaddedFacts.
Import PyStr PyNum DurationText Duration PaddedText.




















End PaddedFacts.



(** ** Texts that are refused *)

Section RefusedFacts.
Import PyStr PyNum DurationText Duration Sweep.

Lemma py_int_raises s e : py_int s = Raise e -> e = ValueError.
Proof.
  unfold py_int. destruct (split_sign (numstrip s)) as [neg body].
  destruct (all_digits body); congruence.
Qed.

Lemma parse_cpu_list_empty fields :
  In [] fields -> parse_cpu_list fields = Raise ValueError.
Proof.
  induction fields as [|f fields IH]; [intros [] |].
  intros Hin. cbn [parse_cpu_list mbind result_bind].
  destruct (py_int f) as [n | e] eqn:Hf.
  - destruct Hin as [-> | Hin]; [discriminate Hf |]. rewrite (IH Hin). reflexivity.
  - apply py_int_raises in Hf as ->. reflexivity.
Qed.

Lemma convert_milliseconds ds :
  all_digits ds = true -> convert_time_to_hours (ds ++ lit "ms") = Raise ValueError.
Proof.
  intros Hds. pose proof (all_digits_forallb ds Hds) as Hall.
  unfold convert_time_to_hours.
  change (lit "h") with ["h"%char]. change (lit "m") with ["m"%char].
  change (lit "s") with ["s"%char].
  rewrite (contains_single "h"), has_char_app.
  rewrite (has_char_absent isdecimal "h" ds); [| | exact Hall].
  2:{ intros d Hd. apply isdecimal_not_letter, Hd. }
  change (has_char "h" (lit "ms")) with false. cbn [orb mbind result_bind mret result_ret].
  replace (ds ++ lit "ms") with (marked (Some ds) "m" ++ lit "s")
    by (simpl; rewrite <- app_assoc; reflexivity).
  rewrite (int_stage "m" (Some ds) (lit "s") eq_refl Hds eq_refl eq_refl).
  reflexivity.
Qed.

End RefusedFacts.

(** X15.  A duration given in milliseconds, digits followed by [ms], is
    not read as a duration: the digits are taken for minutes and the
    seconds are then read from the empty text, so that
    [convert_time_to_hours] raises [ValueError].  In the fixed-CPUs report
    the first row with such a duration ends [main] with that exception. *)
Theorem millisecond_duration_raises (ds : str) :
  PyNum.all_digits ds = true ->
  FixedCpus.convert_time_to_hours (ds ++ lit "ms") = Raise ValueError
  /\ Pipeline.convert_time_to_hours (ds ++ lit "ms") = Raise ValueError
  /\ forall cpus data good bad rest,
       Report.data_rows data = good ++ bad :: rest ->
       Forall (fun row => exists t, FixedCpus.main_row cpus row = Ok t) good ->
       (11 <= length bad)%nat ->
       PyStr.getitem bad 8 = Ok (ds ++ lit "ms") ->
       FixedCpus.main cpus data = Raise ValueError.
Proof.
  intros Hds. pose proof (convert_milliseconds ds Hds) as Hraise.
  split; [exact Hraise |]. split; [exact Hraise |].
  intros cpus data good bad rest Hrows Hgood Hlen Hdur.
  unfold FixedCpus.main. fold (Report.data_rows data). rewrite Hrows.
  apply main_rows_raise; [exact Hgood |]. unfold FixedCpus.main_row.
  assert (Hget : forall i, (i < 11)%nat -> exists x, PyStr.getitem bad i = Ok x).
  { intros i Hi. unfold PyStr.getitem. destruct (nth_error bad i) as [x |] eqn:E.
    - exists x. reflexivity.
    - apply nth_error_None in E. lia. }
  destruct (Hget 3%nat ltac:(lia)) as [n0 ->]. rewrite Hdur.
  destruct (Hget 10%nat ltac:(lia)) as [r0 ->]. cbn [mbind result_bind].
  unfold FixedCpus.convert_time_to_hours. rewrite Hraise. reflexivity.
Qed.

Lemma millisecond_duration_raises_witness :
  FixedCpus.convert_time_to_hours (lit "350ms") = Raise ValueError.
Proof. apply (millisecond_duration_raises (lit "350")). reflexivity. Defined.

(** X16.  An empty field in the list of CPU counts, as in ["2,,4"], in
    ["2,"] or in the empty argument, makes [main] of the sweep raise
    [ValueError] before it writes a script, submits a job or writes a line
    of the log. *)
Theorem empty_cpu_field_aborts
    (fuel : nat) (cpu_list_str command account partition : str) (w : Sweep.World) :
  In [] (PyStr.split (lit ",") cpu_list_str) ->
  Sweep.main fuel cpu_list_str command account partition w = Sweep.Raised ValueError w.
Proof.
  intros Hin. unfold Sweep.main. unfold mbind at 1, Sweep.M_bind at 1.
  rewrite (parse_cpu_list_empty _ Hin). reflexivity.
Qed.

Lemma empty_cpu_field_aborts_witness :
  Sweep.main 3 (lit "2,,4") (lit "run") (lit "acc") (lit "work")
    (Sample.start (Sample.steady 0))
  = Sweep.Raised ValueError (Sample.start (Sample.steady 0)).
Proof.
  apply (empty_cpu_field_aborts 3 (lit "2,,4")). vm_compute. right. left. reflexivity.
Defined.

(** ** The rounding of the fixed-CPUs report *)

Section RoundingFacts.
Import PyStr PyNum FixedCpus.


End RoundingFacts.



(** ** The utilization-weighted report, row by row *)

Section PipelineFacts.
Import PyStr PyNum DurationText Pipeline PipelineReport.






End PipelineFacts.




(** ** The rows of the sweep report *)

Section ReportRowFacts.
Import PyStr PyNum DurationText Sweep Run.

(** Rounding a number of ninths to the nearest integer: no number of
    ninths lies half way between two integers. *)
Lemma round_ninths (x : Z) : round_half_even (inject_Z x / 9) = (x + 4) / 9.
Proof.
  assert (E : (inject_Z x / 9 == x # 9)%Q) by (unfold Qeq; simpl; lia).
  rewrite (round_half_even_comp _ _ E). unfold round_half_even.
  change (Qfloor (x # 9)) with (x / 9).
  destruct (Qcompare_spec ((x # 9) - inject_Z (x / 9)) (1 # 2)) as [H | H | H];
    unfold Qeq, Qlt, Qminus, Qplus, Qopp, inject_Z in H; simpl in H.
  - exfalso. lia.
  - Z.div_mod_to_equations. lia.
  - Z.div_mod_to_equations. lia.
Qed.

(** The format [.2f] on a number of nine-hundredths that is not
    negative. *)
Lemma format_2f_ninths (q : Q) (x : Z) :
  0 <= x -> (q * 100 == inject_Z x / 9)%Q ->
  format_2f q
  = str_of_Z ((x + 4) / 9 / 100) ++ lit "."
    ++ str_of_Z ((x + 4) / 9 mod 100 / 10) ++ str_of_Z ((x + 4) / 9 mod 10).
Proof.
  intros Hx Hq.
  assert (Hx' : (0 <= inject_Z x)%Q) by (change 0%Q with (inject_Z 0); rewrite <- Zle_Qle; exact Hx).
  assert (Hq0 : (0 <= q)%Q).
  { unfold Qdiv in Hq. change (/ 9)%Q with (1 # 9)%Q in Hq. lra. }
  unfold format_2f. destruct (Qlt_le_dec q 0) as [Hneg | _]; [lra |].
  assert (E : (Qabs q * 100 == inject_Z x / 9)%Q) by (rewrite (Qabs_pos q Hq0); exact Hq).
  rewrite (round_half_even_comp _ _ E), round_ninths.
  unfold two_digits. cbn [app].
  replace ((x + 4) / 9 mod 100 mod 10) with ((x + 4) / 9 mod 10)
    by (Z.div_mod_to_equations; lia).
  reflexivity.
Qed.

End ReportRowFacts.

(** X20.  For a CPU count whose wall-time file holds a whole number of
    seconds in its third field, as the generated script writes it, the
    report loop of [main] reads that file and writes one row to the log:
    the CPU count, 64 cores per CPU, and the SU, which is the number of
    cores times the seconds divided by 3600 (one SU per core-hour),
    shown with two decimals: the hundredths nearest to it, the last two
    digits after a point.  The CPU count is positive and the CPU count
    times the seconds at most [10 ^ 12]. *)
Theorem report_row_of_wall_time
    (num_cpus : Z) (content f0 f1 ip : str) (rest : list str) (w : Sweep.World) :
  Sweep.files w !! Sweep.time_filename_of num_cpus = Some content ->
  PyStr.split_ws content = f0 :: f1 :: ip :: rest ->
  PyNum.all_digits ip = true ->
  0 < num_cpus ->
  num_cpus * PyNum.digits_val 0 ip <= 10 ^ 12 ->
  let seconds := PyNum.digits_val 0 ip in
  let hundredths := (16 * num_cpus * seconds + 4) / 9 in
  Sweep.report_one 64 1 num_cpus w
  = Sweep.Done tt
      (Run.record [Sweep.ReadFile (lit "job-" ++ PyNum.str_of_Z num_cpus ++ lit ".time");
                   Sweep.LogWrite
                     (PyStr.ljust 10 (PyNum.str_of_Z num_cpus)
                      ++ PyStr.ljust 10 (PyNum.str_of_Z (num_cpus * 64))
                      ++ PyStr.ljust 10
                           (PyNum.str_of_Z (hundredths / 100) ++ lit "."
                            ++ PyNum.str_of_Z (hundredths mod 100 / 10)
                            ++ PyNum.str_of_Z (hundredths mod 10))
                      ++ ["010"%char])] w)
  /\ (Qabs (inject_Z hundredths / 100
            - inject_Z (num_cpus * 64) * (inject_Z seconds / 3600)) < 1 # 200)%Q.
Proof.
  intros Hfile Hsplit Hok Hn Hbound seconds hundredths.
  destruct (wall_time_in_field _ _ _ f0 f1 rest (DurationText.Whole ip) Hfile Hsplit Hok)
    as (q & Hq & Hv).
  cbn [DurationText.seconds_value] in Hv. fold seconds in Hv.
  assert (Hs : 0 <= seconds).
  { apply digits_val_nonneg; [apply all_digits_forallb, Hok | lia]. }
  assert (Hsu : (Sweep.calculate_su num_cpus 64 q 1 * 100
                 == inject_Z (16 * num_cpus * seconds) / 9)%Q).
  { unfold Sweep.calculate_su. rewrite Hv, !inject_Z_mult.
    change (inject_Z 1) with 1%Q. change (inject_Z 64) with 64%Q.
    change (inject_Z 16) with 16%Q. field. }
  split.
  - unfold Sweep.report_one. unfold mbind, Sweep.M_bind.
    rewrite read_wall_time_run, Hq. unfold Sweep.log_write, Sweep.emit, Run.record.
    cbn [Sweep.cluster Sweep.tick Sweep.files Sweep.trace].
    unfold Sweep.report_line.
    rewrite (format_2f_ninths _ (16 * num_cpus * seconds) ltac:(nia) Hsu).
    rewrite <- app_assoc. reflexivity.
  - unfold hundredths. set (x := 16 * num_cpus * seconds).
    assert (E : (inject_Z (num_cpus * 64) * (inject_Z seconds / 3600)
                 == inject_Z x * (1 # 900))%Q).
    { unfold x. rewrite !inject_Z_mult. change (inject_Z 64) with 64%Q.
      change (inject_Z 16) with 16%Q. field. }
    rewrite E.
    assert (Hlo : 9 * ((x + 4) / 9) <= x + 4 <= 9 * ((x + 4) / 9) + 8)
      by (Z.div_mod_to_equations; lia).
    set (r := (x + 4) / 9) in *.
    destruct Hlo as [H1 H2]. clearbody r x.
    assert (H1' : (inject_Z 9 * inject_Z r <= inject_Z x + inject_Z 4)%Q)
      by (rewrite <- inject_Z_mult, <- inject_Z_plus, <- Zle_Qle; exact H1).
    assert (H2' : (inject_Z x + inject_Z 4 <= inject_Z 9 * inject_Z r + inject_Z 8)%Q)
      by (rewrite <- inject_Z_mult, <- !inject_Z_plus, <- Zle_Qle; exact H2).
    change (inject_Z 9) with 9%Q in *. change (inject_Z 4) with 4%Q in *.
    change (inject_Z 8) with 8%Q in *.
    unfold Qdiv. change (/ 100)%Q with (1 # 100)%Q.
    apply Qabs_Qlt_condition. split; lra.
Qed.

(** The job of 2 CPUs ran for 7200 seconds: 128 cores for two hours. *)
Lemma report_row_of_wall_time_witness :
  Sweep.report_one 64 1 2
    {| Sweep.cluster := Sample.steady 0; Sweep.tick := 0;
       Sweep.files := {[ lit "job-2.time" := lit "Elapsed time: 7200 seconds" ++ Sweep.nl ]};
       Sweep.trace := [] |}
  = Sweep.Done tt
      {| Sweep.cluster := Sample.steady 0; Sweep.tick := 0;
         Sweep.files := {[ lit "job-2.time" := lit "Elapsed time: 7200 seconds" ++ Sweep.nl ]};
         Sweep.trace := [Sweep.ReadFile (lit "job-2.time");
                         Sweep.LogWrite (lit "2         128       256.00    "
                                         ++ ["010"%char])] |}.
Proof.
  refine (proj1 (report_row_of_wall_time 2 (lit "Elapsed time: 7200 seconds" ++ Sweep.nl)
                   (lit "Elapsed") (lit "time:") (lit "7200") [lit "seconds"]
                   {| Sweep.cluster := Sample.steady 0; Sweep.tick := 0;
                      Sweep.files := {[ lit "job-2.time"
                                        := lit "Elapsed time: 7200 seconds" ++ Sweep.nl ]};
                      Sweep.trace := [] |} _ _ _ _ _)).
  - apply lookup_singleton_eq.
  - reflexivity.
  - reflexivity.
  - lia.
  - vm_compute. discriminate.
Defined.
